(** * Pet Care Planner: the action handlers over the four tables

    A shallow embedding of [src/actions/index.ts] (the fifteen action
    handlers and their three helpers) and of the table declarations
    ([Pets], [PetCareRoutines], [PetCareLogs], [VetVisits]).

    - A table is the list of its rows, in insertion order; [select], [insert],
      [update] and [delete] are the statements the handlers issue. The
      store holds the constraints the tables declare. [insert] refuses a
      taken [primaryKey]. A column with [references] must name a stored
      row: [insert], and an [update] that sets [petId], refuse a row whose
      pet (for a log also: whose routine, when it has one) is not stored,
      and [delete] refuses a row that another row still names. Nothing
      cascades, and a refused statement writes nothing.
    - A row holds its values as the driver hands them to the handler, and
      [select] returns the rows that match as they are stored. What can go
      wrong between the handler and the store without the statement being
      refused (the connection, a stored number the driver cannot read
      back) is not part of the model.
    - A handler is a computation in [Action]: it threads the [World] (the
      store, and how often the clock, the UUID generator and the store were
      used) and stops at the first thrown exception. No statement is rolled
      back: what was written before a throw stays written.
    - A handler receives its input after the [z.object] schema accepted it:
      the input records are the validated shapes, an optional field is an
      [option].
    - What the handlers call but the repository does not define (the clock
      behind [new Date()], [crypto.randomUUID], [new Date(string)],
      [JSON.stringify], and what the storage driver does with an empty SET
      clause) is a [Host], a parameter of the handlers. *)

From Stdlib Require Import String Ascii DecimalString List ZArith Bool Lia PeanoNat.
From Stdlib Require Import Floats.PrimFloat.
Import ListNotations.
Open Scope string_scope.

Set Implicit Arguments.

(** ** Values *)

(** A JS [Date]: a time value in milliseconds, or the Invalid Date that
    [new Date(s)] yields on a string it cannot read. *)
Inductive Date : Type :=
| DateMs (ms : Z)
| InvalidDate.

(** [z.union([z.date(), z.string().datetime()])]. *)
Inductive DateInput : Type :=
| DateObj (d : Date)
| DateStr (s : string).

(** [z.number()]: a JS number. *)
Definition number : Type := float.

(** [z.enum(["done", "skipped"])]. *)
Inductive LogStatus : Type := done | skipped.

Definition LogStatus_text (s : LogStatus) : string :=
  match s with done => "done" | skipped => "skipped" end.

(** JS truthiness of a string: every string but the empty one. *)
Definition truthy (s : string) : bool :=
  match s with EmptyString => false | String _ _ => true end.

(** Truthiness of an optional string: [undefined] is falsy too. *)
Definition truthy_opt (s : option string) : bool :=
  match s with Some s' => truthy s' | None => false end.

(** Truthiness of a [Date | string]: an object is always truthy. *)
Definition truthy_date (v : DateInput) : bool :=
  match v with DateObj _ => true | DateStr s => truthy s end.

(** [a ?? b]. *)
Definition nullish {A} (a : option A) (b : A) : A :=
  match a with Some x => x | None => b end.

(** [updates.f = v] when [v !== undefined], on a column that is never NULL. *)
Definition assign {A} (v : option A) (old : A) : A :=
  match v with Some x => x | None => old end.

(** The same on an optional column. *)
Definition assign_opt {A} (v : option A) (old : option A) : option A :=
  match v with Some x => Some x | None => old end.

(** ** The tables *)

Module Pets.
Record row : Type := {
  id : string;
  userId : string;
  name : string;
  species : option string;
  breed : option string;
  gender : option string;
  dateOfBirth : option Date;
  color : option string;
  weightKg : option number;
  notes : option string;
  createdAt : Date;
  updatedAt : Date
}.

(** [Partial<typeof Pets.$inferInsert>] as the update handler fills it:
    a field left [undefined] is [None]. *)
Record partial : Type := {
  set_name : option string;
  set_species : option string;
  set_breed : option string;
  set_gender : option string;
  set_dateOfBirth : option Date;
  set_color : option string;
  set_weightKg : option number;
  set_notes : option string;
  set_updatedAt : option Date
}.

Definition apply (u : partial) (r : row) : row :=
  {| id := id r;
     userId := userId r;
     name := assign (set_name u) (name r);
     species := assign_opt (set_species u) (species r);
     breed := assign_opt (set_breed u) (breed r);
     gender := assign_opt (set_gender u) (gender r);
     dateOfBirth := assign_opt (set_dateOfBirth u) (dateOfBirth r);
     color := assign_opt (set_color u) (color r);
     weightKg := assign_opt (set_weightKg u) (weightKg r);
     notes := assign_opt (set_notes u) (notes r);
     createdAt := createdAt r;
     updatedAt := assign (set_updatedAt u) (updatedAt r) |}.

Definition no_values (u : partial) : bool :=
  match set_name u, set_species u, set_breed u, set_gender u,
        set_dateOfBirth u, set_color u, set_weightKg u, set_notes u,
        set_updatedAt u with
  | None, None, None, None, None, None, None, None, None => true
  | _, _, _, _, _, _, _, _, _ => false
  end.
End Pets.

Module PetCareRoutines.
Record row : Type := {
  id : string;
  petId : string;
  userId : string;
  name : string;
  description : option string;
  frequency : option string;
  timeOfDayLocal : option string;
  daysOfWeekJson : option string;
  isActive : bool;
  createdAt : Date;
  updatedAt : Date
}.

Record partial : Type := {
  set_petId : option string;
  set_name : option string;
  set_description : option string;
  set_frequency : option string;
  set_timeOfDayLocal : option string;
  set_daysOfWeekJson : option string;
  set_isActive : option bool;
  set_updatedAt : option Date
}.

Definition apply (u : partial) (r : row) : row :=
  {| id := id r;
     petId := assign (set_petId u) (petId r);
     userId := userId r;
     name := assign (set_name u) (name r);
     description := assign_opt (set_description u) (description r);
     frequency := assign_opt (set_frequency u) (frequency r);
     timeOfDayLocal := assign_opt (set_timeOfDayLocal u) (timeOfDayLocal r);
     daysOfWeekJson := assign_opt (set_daysOfWeekJson u) (daysOfWeekJson r);
     isActive := assign (set_isActive u) (isActive r);
     createdAt := createdAt r;
     updatedAt := assign (set_updatedAt u) (updatedAt r) |}.

Definition no_values (u : partial) : bool :=
  match set_petId u, set_name u, set_description u, set_frequency u,
        set_timeOfDayLocal u, set_daysOfWeekJson u, set_isActive u,
        set_updatedAt u with
  | None, None, None, None, None, None, None, None => true
  | _, _, _, _, _, _, _, _ => false
  end.

(** The SET clause writes [petId], the column that references [Pets]. *)
Definition sets_reference (u : partial) : bool :=
  match set_petId u with Some _ => true | None => false end.
End PetCareRoutines.

Module PetCareLogs.
Record row : Type := {
  id : string;
  petId : string;
  routineId : option string;
  userId : string;
  logDateTime : Date;
  status : option string;
  notes : option string;
  createdAt : Date
}.
End PetCareLogs.

Module VetVisits.
Record row : Type := {
  id : string;
  petId : string;
  userId : string;
  visitDate : Date;
  clinicName : option string;
  reason : option string;
  diagnosis : option string;
  treatment : option string;
  medications : option string;
  followUpDate : option Date;
  createdAt : Date
}.

Record partial : Type := {
  set_petId : option string;
  set_visitDate : option Date;
  set_clinicName : option string;
  set_reason : option string;
  set_diagnosis : option string;
  set_treatment : option string;
  set_medications : option string;
  set_followUpDate : option Date
}.

Definition apply (u : partial) (r : row) : row :=
  {| id := id r;
     petId := assign (set_petId u) (petId r);
     userId := userId r;
     visitDate := assign (set_visitDate u) (visitDate r);
     clinicName := assign_opt (set_clinicName u) (clinicName r);
     reason := assign_opt (set_reason u) (reason r);
     diagnosis := assign_opt (set_diagnosis u) (diagnosis r);
     treatment := assign_opt (set_treatment u) (treatment r);
     medications := assign_opt (set_medications u) (medications r);
     followUpDate := assign_opt (set_followUpDate u) (followUpDate r);
     createdAt := createdAt r |}.

Definition no_values (u : partial) : bool :=
  match set_petId u, set_visitDate u, set_clinicName u, set_reason u,
        set_diagnosis u, set_treatment u, set_medications u,
        set_followUpDate u with
  | None, None, None, None, None, None, None, None => true
  | _, _, _, _, _, _, _, _ => false
  end.

(** The SET clause writes [petId], the column that references [Pets]. *)
Definition sets_reference (u : partial) : bool :=
  match set_petId u with Some _ => true | None => false end.
End VetVisits.

(** ** The store *)

Record Db : Type := {
  pets : list Pets.row;
  petCareRoutines : list PetCareRoutines.row;
  petCareLogs : list PetCareLogs.row;
  vetVisits : list VetVisits.row
}.

(** A table of the store: how to read it, how to replace it, its
    [primaryKey] column, and what the [references] of its columns and of
    the other tables' columns ask: [references_hold d r] says that every
    reference of the row [r] names a row stored in [d], [referenced d r]
    that a row of another table in [d] names [r]. *)
Record Table (R : Type) : Type := {
  rows : Db -> list R;
  put : list R -> Db -> Db;
  primaryKey : R -> string;
  references_hold : Db -> R -> bool;
  referenced : Db -> R -> bool
}.

(** Some pet, some routine is stored under this id. *)
Definition pet_stored (d : Db) (id : string) : bool :=
  existsb (fun p => String.eqb (Pets.id p) id) (pets d).

Definition routine_stored (d : Db) (id : string) : bool :=
  existsb (fun r => String.eqb (PetCareRoutines.id r) id) (petCareRoutines d).

(** Some routine, log or visit names the pet [id] in its [petId]. *)
Definition pet_in_use (d : Db) (id : string) : bool :=
  existsb (fun r => String.eqb (PetCareRoutines.petId r) id) (petCareRoutines d)
  || existsb (fun l => String.eqb (PetCareLogs.petId l) id) (petCareLogs d)
  || existsb (fun v => String.eqb (VetVisits.petId v) id) (vetVisits d).

(** Some log names the routine [id] in its [routineId]. *)
Definition routine_in_use (d : Db) (id : string) : bool :=
  existsb (fun l => match PetCareLogs.routineId l with
                    | Some routineId => String.eqb routineId id
                    | None => false
                    end)
          (petCareLogs d).

Definition tblPets : Table Pets.row :=
  {| rows := pets;
     put := fun l d =>
       {| pets := l; petCareRoutines := petCareRoutines d;
          petCareLogs := petCareLogs d; vetVisits := vetVisits d |};
     primaryKey := Pets.id;
     references_hold := fun _ _ => true;
     referenced := fun d r => pet_in_use d (Pets.id r) |}.

Definition tblPetCareRoutines : Table PetCareRoutines.row :=
  {| rows := petCareRoutines;
     put := fun l d =>
       {| pets := pets d; petCareRoutines := l;
          petCareLogs := petCareLogs d; vetVisits := vetVisits d |};
     primaryKey := PetCareRoutines.id;
     references_hold := fun d r => pet_stored d (PetCareRoutines.petId r);
     referenced := fun d r => routine_in_use d (PetCareRoutines.id r) |}.

Definition tblPetCareLogs : Table PetCareLogs.row :=
  {| rows := petCareLogs;
     put := fun l d =>
       {| pets := pets d; petCareRoutines := petCareRoutines d;
          petCareLogs := l; vetVisits := vetVisits d |};
     primaryKey := PetCareLogs.id;
     references_hold := fun d r =>
       pet_stored d (PetCareLogs.petId r)
       && match PetCareLogs.routineId r with
          | Some routineId => routine_stored d routineId
          | None => true
          end;
     referenced := fun _ _ => false |}.

Definition tblVetVisits : Table VetVisits.row :=
  {| rows := vetVisits;
     put := fun l d =>
       {| pets := pets d; petCareRoutines := petCareRoutines d;
          petCareLogs := petCareLogs d; vetVisits := l |};
     primaryKey := VetVisits.id;
     references_hold := fun d r => pet_stored d (VetVisits.petId r);
     referenced := fun _ _ => false |}.

(** Conditions of a WHERE clause: [eq(column, value)] and [and(...)]. *)
Class SqlEq (A : Type) : Type := sql_eqb : A -> A -> bool.
#[export] Instance SqlEq_text : SqlEq string := String.eqb.
#[export] Instance SqlEq_boolean : SqlEq bool := Bool.eqb.

Module Sql.
Definition eq {R A : Type} `{SqlEq A} (column : R -> A) (value : A) : R -> bool :=
  fun r => sql_eqb (column r) value.

Definition and {R : Type} (conditions : list (R -> bool)) : R -> bool :=
  fun r => forallb (fun c => c r) conditions.
End Sql.

(** ** Errors, the world and the [Action] monad *)

Inductive ErrorCode : Type := UNAUTHORIZED | NOT_FOUND | FORBIDDEN.

(** What a handler throws: an [ActionError] of its own, or whatever the
    storage driver raised. *)
Inductive Exception : Type :=
| ActionError (code : ErrorCode) (message : string)
| StorageError (message : string).

Inductive Outcome (A : Type) : Type :=
| Returned (value : A)
| Thrown (e : Exception).
Arguments Thrown {A} e.

(** The store, with the number of clock readings, UUIDs and storage
    statements used so far. *)
Record World : Type := {
  store : Db;
  clockReads : nat;
  uuidCalls : nat;
  statements : nat
}.

Definition Action (A : Type) : Type := World -> Outcome A * World.

Definition ret {A} (a : A) : Action A := fun w => (Returned a, w).

Definition bind {A B} (m : Action A) (k : A -> Action B) : Action B :=
  fun w =>
    match m w with
    | (Returned a, w') => k a w'
    | (Thrown e, w') => (Thrown e, w')
    end.

Definition throw {A} (e : Exception) : Action A := fun w => (Thrown e, w).

Declare Scope action_scope.
Delimit Scope action_scope with action.
Notation "x <- m ;; k" := (bind m (fun x => k))
  (at level 100, m at next level, right associativity) : action_scope.
Notation "m ;;; k" := (bind m (fun _ => k))
  (at level 100, right associativity) : action_scope.
Open Scope action_scope.

(** The runtime the handlers run on. [clock n] is the time the [n]-th
    [new Date()] of the process reads, [randomUUID n] the [n]-th UUID;
    [rejects_empty_set] says whether the driver throws on an update whose
    SET clause holds no value (otherwise such an update changes nothing). *)
Record Host : Type := {
  clock : nat -> Z;
  randomUUID : nat -> string;
  Date_of_string : string -> Date;
  JSON_stringify : list string -> string;
  rejects_empty_set : bool
}.

(** The request context: [context.locals?.user]. *)
Module App.
Record User : Type := { id : string }.
Record Locals : Type := { user : option User }.
End App.

Record ActionAPIContext : Type := { locals : option App.Locals }.

(** [context.locals?.user]: the resolved caller, if any. *)
Definition caller (context : ActionAPIContext) : option App.User :=
  match locals context with
  | Some l => App.user l
  | None => None
  end.

(** [{ items, total }] of the list handlers. *)
Record Listing (R : Type) : Type := { items : list R; total : nat }.

(** ** Inputs of the handlers, one record per [z.object] *)

Module CreatePetInput.
Record t : Type := {
  name : string;
  species : option string;
  breed : option string;
  gender : option string;
  dateOfBirth : option DateInput;
  color : option string;
  weightKg : option number;
  notes : option string
}.
End CreatePetInput.

Module UpdatePetInput.
Record t : Type := {
  id : string;
  name : option string;
  species : option string;
  breed : option string;
  gender : option string;
  dateOfBirth : option DateInput;
  color : option string;
  weightKg : option number;
  notes : option string
}.
End UpdatePetInput.

Module IdInput.
Record t : Type := { id : string }.
End IdInput.

Module PetIdInput.
Record t : Type := { petId : string }.
End PetIdInput.

Module CreateRoutineInput.
Record t : Type := {
  petId : string;
  name : string;
  description : option string;
  frequency : option string;
  timeOfDayLocal : option string;
  daysOfWeek : option (list string)
}.
End CreateRoutineInput.

Module UpdateRoutineInput.
Record t : Type := {
  id : string;
  petId : option string;
  name : option string;
  description : option string;
  frequency : option string;
  timeOfDayLocal : option string;
  daysOfWeek : option (list string);
  isActive : option bool
}.
End UpdateRoutineInput.

(** [includeInactive] carries [.default(false)]: once the object is given
    the field is a boolean; the object itself is [.optional()]. *)
Module ListRoutinesInput.
Record t : Type := {
  petId : option string;
  includeInactive : bool
}.
End ListRoutinesInput.

Module CreateLogInput.
Record t : Type := {
  petId : string;
  routineId : option string;
  logDateTime : option DateInput;
  status : option LogStatus;
  notes : option string
}.
End CreateLogInput.

Module CreateVisitInput.
Record t : Type := {
  petId : string;
  visitDate : option DateInput;
  clinicName : option string;
  reason : option string;
  diagnosis : option string;
  treatment : option string;
  medications : option string;
  followUpDate : option DateInput
}.
End CreateVisitInput.

Module UpdateVisitInput.
Record t : Type := {
  id : string;
  petId : option string;
  visitDate : option DateInput;
  clinicName : option string;
  reason : option string;
  diagnosis : option string;
  treatment : option string;
  medications : option string;
  followUpDate : option DateInput
}.
End UpdateVisitInput.

(** ** The handlers *)

Section Handlers.

Variable host : Host.

(** [new Date()]. *)
Definition newDate : Action Date :=
  fun w =>
    (Returned (DateMs (clock host (clockReads w))),
     {| store := store w; clockReads := S (clockReads w);
        uuidCalls := uuidCalls w; statements := statements w |}).

(** [crypto.randomUUID()]. *)
Definition cryptoRandomUUID : Action string :=
  fun w =>
    (Returned (randomUUID host (uuidCalls w)),
     {| store := store w; clockReads := clockReads w;
        uuidCalls := S (uuidCalls w); statements := statements w |}).

(** One statement sent to the store, leaving [d] behind. *)
Definition sent (d : Db) (w : World) : World :=
  {| store := d; clockReads := clockReads w;
     uuidCalls := uuidCalls w; statements := S (statements w) |}.

(** [db.select().from(T).where(c)]. *)
Definition select {R} (T : Table R) (c : R -> bool) : Action (list R) :=
  fun w => (Returned (filter c (rows T (store w))), sent (store w) w).

(** [db.insert(T).values(r)]: refused when the primary key is taken, and
    when a reference of the row names no stored row. *)
Definition insert {R} (T : Table R) (r : R) : Action unit :=
  fun w =>
    if existsb (fun x => String.eqb (primaryKey T x) (primaryKey T r))
               (rows T (store w))
    then (Thrown (StorageError "UNIQUE constraint failed"), sent (store w) w)
    else if negb (references_hold T (store w) r)
    then (Thrown (StorageError "FOREIGN KEY constraint failed"), sent (store w) w)
    else (Returned tt, sent (put T (rows T (store w) ++ [r])%list (store w)) w).

(** [db.update(T).set(u).where(c)]; [empty] tells that [u] holds no
    value, [rekeyed] that it writes a referencing column, [change] is what
    [u] does to a row. A rewritten reference must name a stored row. *)
Definition update {R} (T : Table R) (empty rekeyed : bool) (change : R -> R)
    (c : R -> bool) : Action unit :=
  fun w =>
    if rejects_empty_set host && empty
    then (Thrown (StorageError "No values to set"), w)
    else if rekeyed
            && existsb (fun r => c r && negb (references_hold T (store w) (change r)))
                       (rows T (store w))
    then (Thrown (StorageError "FOREIGN KEY constraint failed"), sent (store w) w)
    else (Returned tt,
          sent (put T (map (fun r => if c r then change r else r)
                           (rows T (store w))) (store w)) w).

(** [db.delete(T).where(c)]: refused when a row to delete is still named
    by a row of another table. *)
Definition delete {R} (T : Table R) (c : R -> bool) : Action unit :=
  fun w =>
    if existsb (fun r => c r && referenced T (store w) r) (rows T (store w))
    then (Thrown (StorageError "FOREIGN KEY constraint failed"), sent (store w) w)
    else (Returned tt,
          sent (put T (filter (fun r => negb (c r)) (rows T (store w)))
                  (store w)) w).

Definition requireUser (context : ActionAPIContext) : Action App.User :=
  match caller context with
  | None =>
      throw (ActionError UNAUTHORIZED
               "You must be signed in to perform this action.")
  | Some user => ret user
  end.

Definition parseDateInput (value : option DateInput) : option Date :=
  match value with
  | None => None
  | Some v =>
      if negb (truthy_date v) then None
      else Some (match v with
                 | DateObj d => d
                 | DateStr s => Date_of_string host s
                 end)
  end.

(** A date column declared [default: NOW] that is handed [undefined]
    takes the store's current time. *)
Definition columnDefaultNow (value : option Date) : Action Date :=
  match value with
  | Some d => ret d
  | None => newDate
  end.

Definition assertPetOwnership (petId userId : string) : Action Pets.row :=
  pet <- select tblPets
           (Sql.and [Sql.eq Pets.id petId; Sql.eq Pets.userId userId]) ;;
  match pet with
  | [] => throw (ActionError NOT_FOUND "Pet not found.")
  | pet0 :: _ => ret pet0
  end.

Definition assertRoutineOwnership (routineId userId : string)
    : Action PetCareRoutines.row :=
  routine <- select tblPetCareRoutines
               (Sql.and [Sql.eq PetCareRoutines.id routineId;
                         Sql.eq PetCareRoutines.userId userId]) ;;
  match routine with
  | [] => throw (ActionError NOT_FOUND "Care routine not found.")
  | routine0 :: _ => ret routine0
  end.

Definition createPet (input : CreatePetInput.t) (context : ActionAPIContext)
    : Action Pets.row :=
  user <- requireUser context ;;
  now <- newDate ;;
  id <- cryptoRandomUUID ;;
  let pet :=
    {| Pets.id := id;
       Pets.userId := App.id user;
       Pets.name := CreatePetInput.name input;
       Pets.species := CreatePetInput.species input;
       Pets.breed := CreatePetInput.breed input;
       Pets.gender := CreatePetInput.gender input;
       Pets.dateOfBirth := parseDateInput (CreatePetInput.dateOfBirth input);
       Pets.color := CreatePetInput.color input;
       Pets.weightKg := CreatePetInput.weightKg input;
       Pets.notes := CreatePetInput.notes input;
       Pets.createdAt := now;
       Pets.updatedAt := now |} in
  insert tblPets pet ;;;
  ret pet.

Definition updatePet (input : UpdatePetInput.t) (context : ActionAPIContext)
    : Action unit :=
  user <- requireUser context ;;
  assertPetOwnership (UpdatePetInput.id input) (App.id user) ;;;
  now <- newDate ;;
  let updates :=
    {| Pets.set_updatedAt := Some now;
       Pets.set_name := UpdatePetInput.name input;
       Pets.set_species := UpdatePetInput.species input;
       Pets.set_breed := UpdatePetInput.breed input;
       Pets.set_gender := UpdatePetInput.gender input;
       Pets.set_color := UpdatePetInput.color input;
       Pets.set_weightKg := UpdatePetInput.weightKg input;
       Pets.set_notes := UpdatePetInput.notes input;
       Pets.set_dateOfBirth := parseDateInput (UpdatePetInput.dateOfBirth input) |} in
  update tblPets (Pets.no_values updates) false (Pets.apply updates)
    (Sql.and [Sql.eq Pets.id (UpdatePetInput.id input);
              Sql.eq Pets.userId (App.id user)]).

Definition deletePet (input : IdInput.t) (context : ActionAPIContext)
    : Action unit :=
  user <- requireUser context ;;
  assertPetOwnership (IdInput.id input) (App.id user) ;;;
  delete tblPets
    (Sql.and [Sql.eq Pets.id (IdInput.id input);
              Sql.eq Pets.userId (App.id user)]).

Definition listPets (context : ActionAPIContext) : Action (Listing Pets.row) :=
  user <- requireUser context ;;
  pets <- select tblPets (Sql.eq Pets.userId (App.id user)) ;;
  ret {| items := pets; total := length pets |}.

Definition createPetCareRoutine (input : CreateRoutineInput.t)
    (context : ActionAPIContext) : Action PetCareRoutines.row :=
  user <- requireUser context ;;
  assertPetOwnership (CreateRoutineInput.petId input) (App.id user) ;;;
  now <- newDate ;;
  id <- cryptoRandomUUID ;;
  let routine :=
    {| PetCareRoutines.id := id;
       PetCareRoutines.petId := CreateRoutineInput.petId input;
       PetCareRoutines.userId := App.id user;
       PetCareRoutines.name := CreateRoutineInput.name input;
       PetCareRoutines.description := CreateRoutineInput.description input;
       PetCareRoutines.frequency := CreateRoutineInput.frequency input;
       PetCareRoutines.timeOfDayLocal := CreateRoutineInput.timeOfDayLocal input;
       PetCareRoutines.daysOfWeekJson :=
         match CreateRoutineInput.daysOfWeek input with
         | Some days => Some (JSON_stringify host days)
         | None => None
         end;
       PetCareRoutines.isActive := true;
       PetCareRoutines.createdAt := now;
       PetCareRoutines.updatedAt := now |} in
  insert tblPetCareRoutines routine ;;;
  ret routine.

Definition updatePetCareRoutine (input : UpdateRoutineInput.t)
    (context : ActionAPIContext) : Action unit :=
  user <- requireUser context ;;
  routine <- assertRoutineOwnership (UpdateRoutineInput.id input) (App.id user) ;;
  let targetPetId :=
    nullish (UpdateRoutineInput.petId input) (PetCareRoutines.petId routine) in
  assertPetOwnership targetPetId (App.id user) ;;;
  now <- newDate ;;
  let updates :=
    {| PetCareRoutines.set_updatedAt := Some now;
       PetCareRoutines.set_petId := UpdateRoutineInput.petId input;
       PetCareRoutines.set_name := UpdateRoutineInput.name input;
       PetCareRoutines.set_description := UpdateRoutineInput.description input;
       PetCareRoutines.set_frequency := UpdateRoutineInput.frequency input;
       PetCareRoutines.set_timeOfDayLocal :=
         UpdateRoutineInput.timeOfDayLocal input;
       PetCareRoutines.set_daysOfWeekJson :=
         match UpdateRoutineInput.daysOfWeek input with
         | Some days => Some (JSON_stringify host days)
         | None => None
         end;
       PetCareRoutines.set_isActive := UpdateRoutineInput.isActive input |} in
  update tblPetCareRoutines (PetCareRoutines.no_values updates)
    (PetCareRoutines.sets_reference updates) (PetCareRoutines.apply updates)
    (Sql.and [Sql.eq PetCareRoutines.id (UpdateRoutineInput.id input);
              Sql.eq PetCareRoutines.userId (App.id user)]).

Definition archivePetCareRoutine (input : IdInput.t)
    (context : ActionAPIContext) : Action unit :=
  user <- requireUser context ;;
  assertRoutineOwnership (IdInput.id input) (App.id user) ;;;
  now <- newDate ;;
  let updates :=
    {| PetCareRoutines.set_isActive := Some false;
       PetCareRoutines.set_updatedAt := Some now;
       PetCareRoutines.set_petId := None;
       PetCareRoutines.set_name := None;
       PetCareRoutines.set_description := None;
       PetCareRoutines.set_frequency := None;
       PetCareRoutines.set_timeOfDayLocal := None;
       PetCareRoutines.set_daysOfWeekJson := None |} in
  update tblPetCareRoutines (PetCareRoutines.no_values updates)
    (PetCareRoutines.sets_reference updates) (PetCareRoutines.apply updates)
    (Sql.and [Sql.eq PetCareRoutines.id (IdInput.id input);
              Sql.eq PetCareRoutines.userId (App.id user)]).

(** [input] itself is optional: [None] is a call without an object. *)
Definition listPetCareRoutines (input : option ListRoutinesInput.t)
    (context : ActionAPIContext) : Action (Listing PetCareRoutines.row) :=
  user <- requireUser context ;;
  let filters := [Sql.eq PetCareRoutines.userId (App.id user)] in
  let filters :=
    match input with
    | Some i =>
        match ListRoutinesInput.petId i with
        | Some petId =>
            if truthy petId
            then (filters ++ [Sql.eq PetCareRoutines.petId petId])%list
            else filters
        | None => filters
        end
    | None => filters
    end in
  let filters :=
    if negb (match input with
             | Some i => ListRoutinesInput.includeInactive i
             | None => false
             end)
    then (filters ++ [Sql.eq PetCareRoutines.isActive true])%list
    else filters in
  let whereClause :=
    match filters with
    | [only] => only
    | _ => Sql.and filters
    end in
  routines <- select tblPetCareRoutines whereClause ;;
  ret {| items := routines; total := length routines |}.

Definition createPetCareLog (input : CreateLogInput.t)
    (context : ActionAPIContext) : Action PetCareLogs.row :=
  user <- requireUser context ;;
  assertPetOwnership (CreateLogInput.petId input) (App.id user) ;;;
  (match CreateLogInput.routineId input with
   | Some routineId =>
       if truthy routineId then
         routine <- assertRoutineOwnership routineId (App.id user) ;;
         if negb (String.eqb (PetCareRoutines.petId routine)
                             (CreateLogInput.petId input))
         then throw (ActionError FORBIDDEN
                       "Routine does not belong to this pet.")
         else ret tt
       else ret tt
   | None => ret tt
   end) ;;;
  id <- cryptoRandomUUID ;;
  logDateTime <-
    (match CreateLogInput.logDateTime input with
     | Some v =>
         if truthy_date v
         then ret (parseDateInput (CreateLogInput.logDateTime input))
         else (now <- newDate ;; ret (Some now))
     | None => now <- newDate ;; ret (Some now)
     end) ;;
  createdAt <- newDate ;;
  logDateTime <- columnDefaultNow logDateTime ;;
  let log :=
    {| PetCareLogs.id := id;
       PetCareLogs.petId := CreateLogInput.petId input;
       PetCareLogs.routineId := CreateLogInput.routineId input;
       PetCareLogs.userId := App.id user;
       PetCareLogs.logDateTime := logDateTime;
       PetCareLogs.status :=
         option_map LogStatus_text (CreateLogInput.status input);
       PetCareLogs.notes := CreateLogInput.notes input;
       PetCareLogs.createdAt := createdAt |} in
  insert tblPetCareLogs log ;;;
  ret log.

Definition listPetCareLogs (input : PetIdInput.t) (context : ActionAPIContext)
    : Action (Listing PetCareLogs.row) :=
  user <- requireUser context ;;
  assertPetOwnership (PetIdInput.petId input) (App.id user) ;;;
  logs <- select tblPetCareLogs
            (Sql.and [Sql.eq PetCareLogs.petId (PetIdInput.petId input);
                      Sql.eq PetCareLogs.userId (App.id user)]) ;;
  ret {| items := logs; total := length logs |}.

Definition deletePetCareLog (input : IdInput.t) (context : ActionAPIContext)
    : Action unit :=
  user <- requireUser context ;;
  log <- select tblPetCareLogs
           (Sql.and [Sql.eq PetCareLogs.id (IdInput.id input);
                     Sql.eq PetCareLogs.userId (App.id user)]) ;;
  match log with
  | [] => throw (ActionError NOT_FOUND "Care log not found.")
  | _ :: _ =>
      delete tblPetCareLogs
        (Sql.and [Sql.eq PetCareLogs.id (IdInput.id input);
                  Sql.eq PetCareLogs.userId (App.id user)])
  end.

Definition createVetVisit (input : CreateVisitInput.t)
    (context : ActionAPIContext) : Action VetVisits.row :=
  user <- requireUser context ;;
  assertPetOwnership (CreateVisitInput.petId input) (App.id user) ;;;
  id <- cryptoRandomUUID ;;
  visitDate <-
    (match CreateVisitInput.visitDate input with
     | Some v =>
         if truthy_date v
         then ret (parseDateInput (CreateVisitInput.visitDate input))
         else (now <- newDate ;; ret (Some now))
     | None => now <- newDate ;; ret (Some now)
     end) ;;
  createdAt <- newDate ;;
  visitDate <- columnDefaultNow visitDate ;;
  let visit :=
    {| VetVisits.id := id;
       VetVisits.petId := CreateVisitInput.petId input;
       VetVisits.userId := App.id user;
       VetVisits.visitDate := visitDate;
       VetVisits.clinicName := CreateVisitInput.clinicName input;
       VetVisits.reason := CreateVisitInput.reason input;
       VetVisits.diagnosis := CreateVisitInput.diagnosis input;
       VetVisits.treatment := CreateVisitInput.treatment input;
       VetVisits.medications := CreateVisitInput.medications input;
       VetVisits.followUpDate :=
         parseDateInput (CreateVisitInput.followUpDate input);
       VetVisits.createdAt := createdAt |} in
  insert tblVetVisits visit ;;;
  ret visit.

Definition updateVetVisit (input : UpdateVisitInput.t)
    (context : ActionAPIContext) : Action unit :=
  user <- requireUser context ;;
  visit <- select tblVetVisits
             (Sql.and [Sql.eq VetVisits.id (UpdateVisitInput.id input);
                       Sql.eq VetVisits.userId (App.id user)]) ;;
  match visit with
  | [] => throw (ActionError NOT_FOUND "Vet visit not found.")
  | visit0 :: _ =>
      let targetPetId :=
        nullish (UpdateVisitInput.petId input) (VetVisits.petId visit0) in
      assertPetOwnership targetPetId (App.id user) ;;;
      let updates :=
        {| VetVisits.set_petId := UpdateVisitInput.petId input;
           VetVisits.set_visitDate :=
             parseDateInput (UpdateVisitInput.visitDate input);
           VetVisits.set_clinicName := UpdateVisitInput.clinicName input;
           VetVisits.set_reason := UpdateVisitInput.reason input;
           VetVisits.set_diagnosis := UpdateVisitInput.diagnosis input;
           VetVisits.set_treatment := UpdateVisitInput.treatment input;
           VetVisits.set_medications := UpdateVisitInput.medications input;
           VetVisits.set_followUpDate :=
             parseDateInput (UpdateVisitInput.followUpDate input) |} in
      update tblVetVisits (VetVisits.no_values updates)
        (VetVisits.sets_reference updates) (VetVisits.apply updates)
        (Sql.and [Sql.eq VetVisits.id (UpdateVisitInput.id input);
                  Sql.eq VetVisits.userId (App.id user)])
  end.

Definition deleteVetVisit (input : IdInput.t) (context : ActionAPIContext)
    : Action unit :=
  user <- requireUser context ;;
  visit <- select tblVetVisits
             (Sql.and [Sql.eq VetVisits.id (IdInput.id input);
                       Sql.eq VetVisits.userId (App.id user)]) ;;
  match visit with
  | [] => throw (ActionError NOT_FOUND "Vet visit not found.")
  | _ :: _ =>
      delete tblVetVisits
        (Sql.and [Sql.eq VetVisits.id (IdInput.id input);
                  Sql.eq VetVisits.userId (App.id user)])
  end.

Definition listVetVisits (input : PetIdInput.t) (context : ActionAPIContext)
    : Action (Listing VetVisits.row) :=
  user <- requireUser context ;;
  assertPetOwnership (PetIdInput.petId input) (App.id user) ;;;
  visits <- select tblVetVisits
              (Sql.and [Sql.eq VetVisits.petId (PetIdInput.petId input);
                        Sql.eq VetVisits.userId (App.id user)]) ;;
  ret {| items := visits; total := length visits |}.

(** *** The catalogue: [export const server = { ... }] *)

Inductive Request : Type :=
| CreatePet (input : CreatePetInput.t)
| UpdatePet (input : UpdatePetInput.t)
| DeletePet (input : IdInput.t)
| ListPets
| CreatePetCareRoutine (input : CreateRoutineInput.t)
| UpdatePetCareRoutine (input : UpdateRoutineInput.t)
| ArchivePetCareRoutine (input : IdInput.t)
| ListPetCareRoutines (input : option ListRoutinesInput.t)
| CreatePetCareLog (input : CreateLogInput.t)
| ListPetCareLogs (input : PetIdInput.t)
| DeletePetCareLog (input : IdInput.t)
| CreateVetVisit (input : CreateVisitInput.t)
| UpdateVetVisit (input : UpdateVisitInput.t)
| DeleteVetVisit (input : IdInput.t)
| ListVetVisits (input : PetIdInput.t).

(** [{ success: true, data }], by the shape of [data]. *)
Inductive Response : Type :=
| Success
| PetData (pet : Pets.row)
| RoutineData (routine : PetCareRoutines.row)
| LogData (log : PetCareLogs.row)
| VisitData (visit : VetVisits.row)
| PetItems (data : Listing Pets.row)
| RoutineItems (data : Listing PetCareRoutines.row)
| LogItems (data : Listing PetCareLogs.row)
| VisitItems (data : Listing VetVisits.row).

Definition respond {A} (wrap : A -> Response) (m : Action A) : Action Response :=
  a <- m ;; ret (wrap a).

Definition server (request : Request) (context : ActionAPIContext)
    : Action Response :=
  match request with
  | CreatePet input => respond PetData (createPet input context)
  | UpdatePet input => respond (fun _ => Success) (updatePet input context)
  | DeletePet input => respond (fun _ => Success) (deletePet input context)
  | ListPets => respond PetItems (listPets context)
  | CreatePetCareRoutine input =>
      respond RoutineData (createPetCareRoutine input context)
  | UpdatePetCareRoutine input =>
      respond (fun _ => Success) (updatePetCareRoutine input context)
  | ArchivePetCareRoutine input =>
      respond (fun _ => Success) (archivePetCareRoutine input context)
  | ListPetCareRoutines input =>
      respond RoutineItems (listPetCareRoutines input context)
  | CreatePetCareLog input => respond LogData (createPetCareLog input context)
  | ListPetCareLogs input => respond LogItems (listPetCareLogs input context)
  | DeletePetCareLog input =>
      respond (fun _ => Success) (deletePetCareLog input context)
  | CreateVetVisit input => respond VisitData (createVetVisit input context)
  | UpdateVetVisit input =>
      respond (fun _ => Success) (updateVetVisit input context)
  | DeleteVetVisit input =>
      respond (fun _ => Success) (deleteVetVisit input context)
  | ListVetVisits input => respond VisitItems (listVetVisits input context)
  end.

End Handlers.

(** ** Reading a run *)

(** The code of the [ActionError] a run ended with, if it ended with one. *)
Definition errorCode {A} (o : Outcome A) : option ErrorCode :=
  match o with
  | Thrown (ActionError c _) => Some c
  | _ => None
  end.

(** The run of [m] from [w] throws an [ActionError] with [code] and leaves
    every table as it was. *)
Definition fails {A} (m : Action A) (w : World) (code : ErrorCode) : Prop :=
  errorCode (fst (m w)) = Some code /\ store (snd (m w)) = store w.

(** The entity kinds, and the lookup each guard makes: is there a row with
    this id and this owner? *)
Inductive Entity : Type := Pet | CareRoutine | CareLog | VetVisit.

Definition owned (e : Entity) (d : Db) (id uid : string) : bool :=
  match e with
  | Pet =>
      existsb (fun r => String.eqb (Pets.id r) id && String.eqb (Pets.userId r) uid)
              (pets d)
  | CareRoutine =>
      existsb (fun r => String.eqb (PetCareRoutines.id r) id
                        && String.eqb (PetCareRoutines.userId r) uid)
              (petCareRoutines d)
  | CareLog =>
      existsb (fun r => String.eqb (PetCareLogs.id r) id
                        && String.eqb (PetCareLogs.userId r) uid)
              (petCareLogs d)
  | VetVisit =>
      existsb (fun r => String.eqb (VetVisits.id r) id
                        && String.eqb (VetVisits.userId r) uid)
              (vetVisits d)
  end.

(** The ids a request names and its handler looks up before it acts:
    the row it updates, deletes or archives, the pet it attaches to or
    lists for, a pet an update moves the row to, and the routine of a new
    log. [createPetCareLog] looks a routine up only when [routineId] is
    truthy; the [petId] of [listPetCareRoutines] is a filter of the query
    and is not looked up. *)
Definition targets (request : Request) : list (Entity * string) :=
  match request with
  | CreatePet _ => []
  | UpdatePet input => [(Pet, UpdatePetInput.id input)]
  | DeletePet input => [(Pet, IdInput.id input)]
  | ListPets => []
  | CreatePetCareRoutine input => [(Pet, CreateRoutineInput.petId input)]
  | UpdatePetCareRoutine input =>
      (CareRoutine, UpdateRoutineInput.id input)
      :: match UpdateRoutineInput.petId input with
         | Some petId => [(Pet, petId)]
         | None => []
         end
  | ArchivePetCareRoutine input => [(CareRoutine, IdInput.id input)]
  | ListPetCareRoutines _ => []
  | CreatePetCareLog input =>
      (Pet, CreateLogInput.petId input)
      :: match CreateLogInput.routineId input with
         | Some routineId =>
             if truthy routineId then [(CareRoutine, routineId)] else []
         | None => []
         end
  | ListPetCareLogs input => [(Pet, PetIdInput.petId input)]
  | DeletePetCareLog input => [(CareLog, IdInput.id input)]
  | CreateVetVisit input => [(Pet, CreateVisitInput.petId input)]
  | UpdateVetVisit input =>
      (VetVisit, UpdateVisitInput.id input)
      :: match UpdateVisitInput.petId input with
         | Some petId => [(Pet, petId)]
         | None => []
         end
  | DeleteVetVisit input => [(VetVisit, IdInput.id input)]
  | ListVetVisits input => [(Pet, PetIdInput.petId input)]
  end.

(** The rows a WHERE clause on [id] and [userId] selects. *)
Definition is_routine (id uid : string) (r : PetCareRoutines.row) : bool :=
  String.eqb (PetCareRoutines.id r) id && String.eqb (PetCareRoutines.userId r) uid.

(** A routine after [archivePetCareRoutine] ran at time [now]: inactive,
    touched at [now], otherwise as it was. *)
Definition archived (now : Date) (r : PetCareRoutines.row) : PetCareRoutines.row :=
  {| PetCareRoutines.id := PetCareRoutines.id r;
     PetCareRoutines.petId := PetCareRoutines.petId r;
     PetCareRoutines.userId := PetCareRoutines.userId r;
     PetCareRoutines.name := PetCareRoutines.name r;
     PetCareRoutines.description := PetCareRoutines.description r;
     PetCareRoutines.frequency := PetCareRoutines.frequency r;
     PetCareRoutines.timeOfDayLocal := PetCareRoutines.timeOfDayLocal r;
     PetCareRoutines.daysOfWeekJson := PetCareRoutines.daysOfWeekJson r;
     PetCareRoutines.isActive := false;
     PetCareRoutines.createdAt := PetCareRoutines.createdAt r;
     PetCareRoutines.updatedAt := now |}.

(** Every run of [m] takes the store to one related to it by [R]. *)
Definition keeps (R : Db -> Db -> Prop) {A} (m : Action A) : Prop :=
  forall w, R (store w) (store (snd (m w))).

(** The care logs are the same rows, in the same order. *)
Definition same_logs (d d' : Db) : Prop := petCareLogs d' = petCareLogs d.

(** The care logs are the old rows, followed by whatever was appended. *)
Definition logs_appended (d d' : Db) : Prop :=
  exists added, petCareLogs d' = (petCareLogs d ++ added)%list.

Definition is_pet (id uid : string) (r : Pets.row) : bool :=
  String.eqb (Pets.id r) id && String.eqb (Pets.userId r) uid.

Definition is_visit (id uid : string) (r : VetVisits.row) : bool :=
  String.eqb (VetVisits.id r) id && String.eqb (VetVisits.userId r) uid.

(** *** What the three update handlers do to the store

    The SET clause each of them builds from its input, and the store it
    leaves behind for a caller [uid]; the lemmas [updatePet_store],
    [updatePetCareRoutine_store] and [updateVetVisit_store] show that the
    handlers do exactly this. *)

Definition petUpdates (host : Host) (input : UpdatePetInput.t) (now : Date)
    : Pets.partial :=
  {| Pets.set_updatedAt := Some now;
     Pets.set_name := UpdatePetInput.name input;
     Pets.set_species := UpdatePetInput.species input;
     Pets.set_breed := UpdatePetInput.breed input;
     Pets.set_gender := UpdatePetInput.gender input;
     Pets.set_color := UpdatePetInput.color input;
     Pets.set_weightKg := UpdatePetInput.weightKg input;
     Pets.set_notes := UpdatePetInput.notes input;
     Pets.set_dateOfBirth :=
       parseDateInput host (UpdatePetInput.dateOfBirth input) |}.

Definition updatePet_effect (host : Host) (input : UpdatePetInput.t)
    (uid : string) (now : Date) (d : Db) : Db :=
  if owned Pet d (UpdatePetInput.id input) uid
  then put tblPets
         (map (fun r => if is_pet (UpdatePetInput.id input) uid r
                        then Pets.apply (petUpdates host input now) r else r)
              (pets d)) d
  else d.

Definition routineUpdates (host : Host) (input : UpdateRoutineInput.t)
    (now : Date) : PetCareRoutines.partial :=
  {| PetCareRoutines.set_updatedAt := Some now;
     PetCareRoutines.set_petId := UpdateRoutineInput.petId input;
     PetCareRoutines.set_name := UpdateRoutineInput.name input;
     PetCareRoutines.set_description := UpdateRoutineInput.description input;
     PetCareRoutines.set_frequency := UpdateRoutineInput.frequency input;
     PetCareRoutines.set_timeOfDayLocal := UpdateRoutineInput.timeOfDayLocal input;
     PetCareRoutines.set_daysOfWeekJson :=
       match UpdateRoutineInput.daysOfWeek input with
       | Some days => Some (JSON_stringify host days)
       | None => None
       end;
     PetCareRoutines.set_isActive := UpdateRoutineInput.isActive input |}.

Definition updatePetCareRoutine_effect (host : Host)
    (input : UpdateRoutineInput.t) (uid : string) (now : Date) (d : Db) : Db :=
  match filter (is_routine (UpdateRoutineInput.id input) uid) (petCareRoutines d) with
  | [] => d
  | routine :: _ =>
      if owned Pet d
           (nullish (UpdateRoutineInput.petId input) (PetCareRoutines.petId routine))
           uid
      then put tblPetCareRoutines
             (map (fun r => if is_routine (UpdateRoutineInput.id input) uid r
                            then PetCareRoutines.apply (routineUpdates host input now) r
                            else r)
                  (petCareRoutines d)) d
      else d
  end.

Definition visitUpdates (host : Host) (input : UpdateVisitInput.t)
    : VetVisits.partial :=
  {| VetVisits.set_petId := UpdateVisitInput.petId input;
     VetVisits.set_visitDate := parseDateInput host (UpdateVisitInput.visitDate input);
     VetVisits.set_clinicName := UpdateVisitInput.clinicName input;
     VetVisits.set_reason := UpdateVisitInput.reason input;
     VetVisits.set_diagnosis := UpdateVisitInput.diagnosis input;
     VetVisits.set_treatment := UpdateVisitInput.treatment input;
     VetVisits.set_medications := UpdateVisitInput.medications input;
     VetVisits.set_followUpDate :=
       parseDateInput host (UpdateVisitInput.followUpDate input) |}.

Definition updateVetVisit_effect (host : Host) (input : UpdateVisitInput.t)
    (uid : string) (d : Db) : Db :=
  match filter (is_visit (UpdateVisitInput.id input) uid) (vetVisits d) with
  | [] => d
  | visit :: _ =>
      if owned Pet d
           (nullish (UpdateVisitInput.petId input) (VetVisits.petId visit)) uid
      then if rejects_empty_set host && VetVisits.no_values (visitUpdates host input)
           then d
           else put tblVetVisits
                  (map (fun r => if is_visit (UpdateVisitInput.id input) uid r
                                 then VetVisits.apply (visitUpdates host input) r
                                 else r)
                       (vetVisits d)) d
      else d
  end.

(** *** Frames of the partial updates *)

(** Column [col] of table [T] reads the same, row by row, in [d] and [d']. *)
Definition column_kept {X A} (T : Table X) (col : X -> A) (d d' : Db) : Prop :=
  map col (rows T d') = map col (rows T d).

(** [updatePet]: a field absent from the input keeps its column; the key,
    the owner and [createdAt] always do; the other tables are untouched. *)
Definition updatePet_frame (input : UpdatePetInput.t) (d d' : Db) : Prop :=
  (UpdatePetInput.name input = None -> column_kept tblPets Pets.name d d')
  /\ (UpdatePetInput.species input = None -> column_kept tblPets Pets.species d d')
  /\ (UpdatePetInput.breed input = None -> column_kept tblPets Pets.breed d d')
  /\ (UpdatePetInput.gender input = None -> column_kept tblPets Pets.gender d d')
  /\ (UpdatePetInput.dateOfBirth input = None ->
      column_kept tblPets Pets.dateOfBirth d d')
  /\ (UpdatePetInput.color input = None -> column_kept tblPets Pets.color d d')
  /\ (UpdatePetInput.weightKg input = None -> column_kept tblPets Pets.weightKg d d')
  /\ (UpdatePetInput.notes input = None -> column_kept tblPets Pets.notes d d')
  /\ column_kept tblPets Pets.id d d'
  /\ column_kept tblPets Pets.userId d d'
  /\ column_kept tblPets Pets.createdAt d d'
  /\ petCareRoutines d' = petCareRoutines d
  /\ petCareLogs d' = petCareLogs d
  /\ vetVisits d' = vetVisits d.

Definition updatePetCareRoutine_frame (input : UpdateRoutineInput.t)
    (d d' : Db) : Prop :=
  (UpdateRoutineInput.petId input = None ->
   column_kept tblPetCareRoutines PetCareRoutines.petId d d')
  /\ (UpdateRoutineInput.name input = None ->
      column_kept tblPetCareRoutines PetCareRoutines.name d d')
  /\ (UpdateRoutineInput.description input = None ->
      column_kept tblPetCareRoutines PetCareRoutines.description d d')
  /\ (UpdateRoutineInput.frequency input = None ->
      column_kept tblPetCareRoutines PetCareRoutines.frequency d d')
  /\ (UpdateRoutineInput.timeOfDayLocal input = None ->
      column_kept tblPetCareRoutines PetCareRoutines.timeOfDayLocal d d')
  /\ (UpdateRoutineInput.daysOfWeek input = None ->
      column_kept tblPetCareRoutines PetCareRoutines.daysOfWeekJson d d')
  /\ (UpdateRoutineInput.isActive input = None ->
      column_kept tblPetCareRoutines PetCareRoutines.isActive d d')
  /\ column_kept tblPetCareRoutines PetCareRoutines.id d d'
  /\ column_kept tblPetCareRoutines PetCareRoutines.userId d d'
  /\ column_kept tblPetCareRoutines PetCareRoutines.createdAt d d'
  /\ pets d' = pets d
  /\ petCareLogs d' = petCareLogs d
  /\ vetVisits d' = vetVisits d.

Definition updateVetVisit_frame (input : UpdateVisitInput.t) (d d' : Db) : Prop :=
  (UpdateVisitInput.petId input = None ->
   column_kept tblVetVisits VetVisits.petId d d')
  /\ (UpdateVisitInput.visitDate input = None ->
      column_kept tblVetVisits VetVisits.visitDate d d')
  /\ (UpdateVisitInput.clinicName input = None ->
      column_kept tblVetVisits VetVisits.clinicName d d')
  /\ (UpdateVisitInput.reason input = None ->
      column_kept tblVetVisits VetVisits.reason d d')
  /\ (UpdateVisitInput.diagnosis input = None ->
      column_kept tblVetVisits VetVisits.diagnosis d d')
  /\ (UpdateVisitInput.treatment input = None ->
      column_kept tblVetVisits VetVisits.treatment d d')
  /\ (UpdateVisitInput.medications input = None ->
      column_kept tblVetVisits VetVisits.medications d d')
  /\ (UpdateVisitInput.followUpDate input = None ->
      column_kept tblVetVisits VetVisits.followUpDate d d')
  /\ column_kept tblVetVisits VetVisits.id d d'
  /\ column_kept tblVetVisits VetVisits.userId d d'
  /\ column_kept tblVetVisits VetVisits.createdAt d d'
  /\ pets d' = pets d
  /\ petCareRoutines d' = petCareRoutines d
  /\ petCareLogs d' = petCareLogs d.

(** A row with its [updatedAt] blanked, and the store with every
    [updatedAt] blanked: two stores with the same image differ in
    [updatedAt] values only. *)
Definition Pets_forget_updatedAt (r : Pets.row) : Pets.row :=
  {| Pets.id := Pets.id r; Pets.userId := Pets.userId r;
     Pets.name := Pets.name r; Pets.species := Pets.species r;
     Pets.breed := Pets.breed r; Pets.gender := Pets.gender r;
     Pets.dateOfBirth := Pets.dateOfBirth r; Pets.color := Pets.color r;
     Pets.weightKg := Pets.weightKg r; Pets.notes := Pets.notes r;
     Pets.createdAt := Pets.createdAt r; Pets.updatedAt := InvalidDate |}.

Definition PetCareRoutines_forget_updatedAt (r : PetCareRoutines.row)
    : PetCareRoutines.row :=
  {| PetCareRoutines.id := PetCareRoutines.id r;
     PetCareRoutines.petId := PetCareRoutines.petId r;
     PetCareRoutines.userId := PetCareRoutines.userId r;
     PetCareRoutines.name := PetCareRoutines.name r;
     PetCareRoutines.description := PetCareRoutines.description r;
     PetCareRoutines.frequency := PetCareRoutines.frequency r;
     PetCareRoutines.timeOfDayLocal := PetCareRoutines.timeOfDayLocal r;
     PetCareRoutines.daysOfWeekJson := PetCareRoutines.daysOfWeekJson r;
     PetCareRoutines.isActive := PetCareRoutines.isActive r;
     PetCareRoutines.createdAt := PetCareRoutines.createdAt r;
     PetCareRoutines.updatedAt := InvalidDate |}.

Definition forget_updatedAt (d : Db) : Db :=
  {| pets := map Pets_forget_updatedAt (pets d);
     petCareRoutines := map PetCareRoutines_forget_updatedAt (petCareRoutines d);
     petCareLogs := petCareLogs d;
     vetVisits := vetVisits d |}.

(** The table's primary key holds: no two rows share it. *)
Definition unique_keys {X} (T : Table X) (d : Db) : Prop :=
  NoDup (map (primaryKey T) (rows T d)).

(** ** A small installation, for running the handlers

    A host whose clock advances one second per reading and whose UUIDs are
    numbered, two callers and an anonymous context, and a store with two
    pets, two routines, a log and a visit of Alice and a pet of Bob. *)

Definition json_text (s : string) : string :=
  String (ascii_of_nat 34) (s ++ String (ascii_of_nat 34) EmptyString).

Definition sampleHost : Host :=
  {| clock := fun n => (1700000000000 + 1000 * Z.of_nat n)%Z;
     randomUUID := fun n => "uuid-" ++ NilEmpty.string_of_uint (Nat.to_uint n);
     Date_of_string := fun s =>
       if String.eqb s "2024-05-01T09:00:00Z" then DateMs 1714554000000
       else InvalidDate;
     JSON_stringify := fun days =>
       "[" ++ String.concat "," (map json_text days) ++ "]";
     rejects_empty_set := true |}.

Definition alice : ActionAPIContext :=
  {| locals := Some {| App.user := Some {| App.id := "alice" |} |} |}.

Definition bob : ActionAPIContext :=
  {| locals := Some {| App.user := Some {| App.id := "bob" |} |} |}.

Definition anonymous : ActionAPIContext :=
  {| locals := Some {| App.user := None |} |}.

Definition bruno : Pets.row :=
  {| Pets.id := "pet-1"; Pets.userId := "alice"; Pets.name := "Bruno";
     Pets.species := Some "dog"; Pets.breed := None; Pets.gender := None;
     Pets.dateOfBirth := None; Pets.color := None; Pets.weightKg := None;
     Pets.notes := None;
     Pets.createdAt := DateMs 1600000000000;
     Pets.updatedAt := DateMs 1600000000000 |}.

Definition mithra : Pets.row :=
  {| Pets.id := "pet-2"; Pets.userId := "bob"; Pets.name := "Mithra";
     Pets.species := Some "cat"; Pets.breed := None; Pets.gender := None;
     Pets.dateOfBirth := None; Pets.color := None; Pets.weightKg := None;
     Pets.notes := None;
     Pets.createdAt := DateMs 1600000001000;
     Pets.updatedAt := DateMs 1600000001000 |}.

Definition feeding : PetCareRoutines.row :=
  {| PetCareRoutines.id := "routine-1"; PetCareRoutines.petId := "pet-1";
     PetCareRoutines.userId := "alice";
     PetCareRoutines.name := "Morning feeding";
     PetCareRoutines.description := None;
     PetCareRoutines.frequency := Some "daily";
     PetCareRoutines.timeOfDayLocal := Some "07:30";
     PetCareRoutines.daysOfWeekJson := None;
     PetCareRoutines.isActive := true;
     PetCareRoutines.createdAt := DateMs 1600000002000;
     PetCareRoutines.updatedAt := DateMs 1600000002000 |}.

Definition fed : PetCareLogs.row :=
  {| PetCareLogs.id := "log-1"; PetCareLogs.petId := "pet-1";
     PetCareLogs.routineId := Some "routine-1"; PetCareLogs.userId := "alice";
     PetCareLogs.logDateTime := DateMs 1600000003000;
     PetCareLogs.status := Some "done"; PetCareLogs.notes := None;
     PetCareLogs.createdAt := DateMs 1600000003000 |}.

Definition checkup : VetVisits.row :=
  {| VetVisits.id := "visit-1"; VetVisits.petId := "pet-1";
     VetVisits.userId := "alice";
     VetVisits.visitDate := DateMs 1600000004000;
     VetVisits.clinicName := Some "Happy Paws"; VetVisits.reason := None;
     VetVisits.diagnosis := None; VetVisits.treatment := None;
     VetVisits.medications := None; VetVisits.followUpDate := None;
     VetVisits.createdAt := DateMs 1600000004000 |}.

Definition coco : Pets.row :=
  {| Pets.id := "pet-3"; Pets.userId := "alice"; Pets.name := "Coco";
     Pets.species := Some "bird"; Pets.breed := None; Pets.gender := None;
     Pets.dateOfBirth := None; Pets.color := None; Pets.weightKg := None;
     Pets.notes := None;
     Pets.createdAt := DateMs 1600000005000;
     Pets.updatedAt := DateMs 1600000005000 |}.

(** A routine of Alice's that she archived. *)
Definition walking : PetCareRoutines.row :=
  {| PetCareRoutines.id := "routine-2"; PetCareRoutines.petId := "pet-1";
     PetCareRoutines.userId := "alice";
     PetCareRoutines.name := "Evening walk";
     PetCareRoutines.description := None;
     PetCareRoutines.frequency := Some "daily";
     PetCareRoutines.timeOfDayLocal := Some "20:00";
     PetCareRoutines.daysOfWeekJson := None;
     PetCareRoutines.isActive := false;
     PetCareRoutines.createdAt := DateMs 1600000006000;
     PetCareRoutines.updatedAt := DateMs 1600000007000 |}.

Definition sampleDb : Db :=
  {| pets := [bruno; mithra; coco];
     petCareRoutines := [feeding; walking];
     petCareLogs := [fed];
     vetVisits := [checkup] |}.

Definition sampleWorld : World :=
  {| store := sampleDb; clockReads := 0; uuidCalls := 0; statements := 0 |}.

(** [sampleDb] without Bruno, as a store that does not check references
    would be after his deletion: the routines, the log and the visit still
    name [pet-1]. *)
Definition orphanedWorld : World :=
  {| store := {| pets := [mithra; coco];
                 petCareRoutines := [feeding; walking];
                 petCareLogs := [fed]; vetVisits := [checkup] |};
     clockReads := 0; uuidCalls := 0; statements := 0 |}.

(** [createPetCareLog {petId: pet-3, routineId: routine-1}]: both are
    Alice's, but the routine is Bruno's, not Coco's. *)
Definition logForCoco : CreateLogInput.t :=
  {| CreateLogInput.petId := "pet-3";
     CreateLogInput.routineId := Some "routine-1";
     CreateLogInput.logDateTime := None;
     CreateLogInput.status := None;
     CreateLogInput.notes := None |}.


(** [updatePet {id: pet-1, name: Rex}]. *)
Definition renameBruno : UpdatePetInput.t :=
  {| UpdatePetInput.id := "pet-1"; UpdatePetInput.name := Some "Rex";
     UpdatePetInput.species := None; UpdatePetInput.breed := None;
     UpdatePetInput.gender := None; UpdatePetInput.dateOfBirth := None;
     UpdatePetInput.color := None; UpdatePetInput.weightKg := None;
     UpdatePetInput.notes := None |}.

(** [createPetCareLog {petId: pet-2, routineId: routine-1, status: done}]:
    Bob's pet, Alice's routine. *)
Definition logForMithra : CreateLogInput.t :=
  {| CreateLogInput.petId := "pet-2";
     CreateLogInput.routineId := Some "routine-1";
     CreateLogInput.logDateTime := None;
     CreateLogInput.status := Some done;
     CreateLogInput.notes := None |}.

(** [updateVetVisit {id}]: no field to update. *)
Definition visitUntouched (id : string) : UpdateVisitInput.t :=
  {| UpdateVisitInput.id := id; UpdateVisitInput.petId := None;
     UpdateVisitInput.visitDate := None; UpdateVisitInput.clinicName := None;
     UpdateVisitInput.reason := None; UpdateVisitInput.diagnosis := None;
     UpdateVisitInput.treatment := None; UpdateVisitInput.medications := None;
     UpdateVisitInput.followUpDate := None |}.

(** [updatePet {id}] and [updatePetCareRoutine {id}], likewise. *)
Definition petUntouched (id : string) : UpdatePetInput.t :=
  {| UpdatePetInput.id := id; UpdatePetInput.name := None;
     UpdatePetInput.species := None; UpdatePetInput.breed := None;
     UpdatePetInput.gender := None; UpdatePetInput.dateOfBirth := None;
     UpdatePetInput.color := None; UpdatePetInput.weightKg := None;
     UpdatePetInput.notes := None |}.

Definition routineUntouched (id : string) : UpdateRoutineInput.t :=
  {| UpdateRoutineInput.id := id; UpdateRoutineInput.petId := None;
     UpdateRoutineInput.name := None; UpdateRoutineInput.description := None;
     UpdateRoutineInput.frequency := None;
     UpdateRoutineInput.timeOfDayLocal := None;
     UpdateRoutineInput.daysOfWeek := None;
     UpdateRoutineInput.isActive := None |}.

(** Some row of [T] already carries the key [k]. *)
Definition key_taken {X} (T : Table X) (d : Db) (k : string) : bool :=
  existsb (fun x => String.eqb (primaryKey T x) k) (rows T d).

(** [createVetVisit {petId: pet-1}], and the same with a visit date. *)
Definition visitToday : CreateVisitInput.t :=
  {| CreateVisitInput.petId := "pet-1"; CreateVisitInput.visitDate := None;
     CreateVisitInput.clinicName := None; CreateVisitInput.reason := None;
     CreateVisitInput.diagnosis := None; CreateVisitInput.treatment := None;
     CreateVisitInput.medications := None;
     CreateVisitInput.followUpDate := None |}.

Definition visitInMay : CreateVisitInput.t :=
  {| CreateVisitInput.petId := "pet-1";
     CreateVisitInput.visitDate := Some (DateStr "2024-05-01T09:00:00Z");
     CreateVisitInput.clinicName := None; CreateVisitInput.reason := None;
     CreateVisitInput.diagnosis := None; CreateVisitInput.treatment := None;
     CreateVisitInput.medications := None;
     CreateVisitInput.followUpDate := None |}.

(** Every table's primary key holds, and a run keeps it so. *)
Definition keys_unique (d : Db) : Prop :=
  unique_keys tblPets d /\ unique_keys tblPetCareRoutines d
  /\ unique_keys tblPetCareLogs d /\ unique_keys tblVetVisits d.

Definition keys_stay_unique (d d' : Db) : Prop := keys_unique d -> keys_unique d'.

(** The scenario of the specification, from an empty store: Alice
    registers Bruno, gives him a daily feeding routine, logs it as done,
    deletes the log and lists Bruno's logs. *)
Definition emptyWorld : World :=
  {| store := {| pets := []; petCareRoutines := []; petCareLogs := [];
                 vetVisits := [] |};
     clockReads := 0; uuidCalls := 0; statements := 0 |}.

Definition scenario : Action (Listing PetCareLogs.row) :=
  pet <- createPet sampleHost
           {| CreatePetInput.name := "Bruno"; CreatePetInput.species := None;
              CreatePetInput.breed := None; CreatePetInput.gender := None;
              CreatePetInput.dateOfBirth := None; CreatePetInput.color := None;
              CreatePetInput.weightKg := None; CreatePetInput.notes := None |}
           alice ;;
  routine <- createPetCareRoutine sampleHost
               {| CreateRoutineInput.petId := Pets.id pet;
                  CreateRoutineInput.name := "Morning feeding";
                  CreateRoutineInput.description := None;
                  CreateRoutineInput.frequency := Some "daily";
                  CreateRoutineInput.timeOfDayLocal := None;
                  CreateRoutineInput.daysOfWeek := None |}
               alice ;;
  log <- createPetCareLog sampleHost
           {| CreateLogInput.petId := Pets.id pet;
              CreateLogInput.routineId := Some (PetCareRoutines.id routine);
              CreateLogInput.logDateTime := None;
              CreateLogInput.status := Some done;
              CreateLogInput.notes := None |}
           alice ;;
  deletePetCareLog {| IdInput.id := PetCareLogs.id log |} alice ;;;
  listPetCareLogs {| PetIdInput.petId := Pets.id pet |} alice.

(** ** Further notions, for the handlers beyond the update paths *)

(** The rows of every table that carry the owner [uid]. *)
Definition rows_of (uid : string) (d : Db) : Db :=
  {| pets := filter (fun r => String.eqb (Pets.userId r) uid) (pets d);
     petCareRoutines :=
       filter (fun r => String.eqb (PetCareRoutines.userId r) uid)
              (petCareRoutines d);
     petCareLogs :=
       filter (fun r => String.eqb (PetCareLogs.userId r) uid) (petCareLogs d);
     vetVisits :=
       filter (fun r => String.eqb (VetVisits.userId r) uid) (vetVisits d) |}.

(** The rows of [uid] are the same in [d] and [d']. *)
Definition same_rows_of (uid : string) (d d' : Db) : Prop :=
  rows_of uid d' = rows_of uid d.

(** [m] only reads: whatever it returns or throws, the store is as before. *)
Definition reads {A} (m : Action A) : Prop :=
  forall w, store (snd (m w)) = store w.

(** [m] writes nothing when it throws. *)
Definition atomic {A} (m : Action A) : Prop :=
  forall w e, fst (m w) = Thrown e -> store (snd (m w)) = store w.

(** [m] sends at most [n] statements to the store. *)
Definition within (n : nat) {A} (m : Action A) : Prop :=
  forall w, statements (snd (m w)) <= statements w + n.

(** The owners of the rows a response carries. *)
Definition response_owners (r : Response) : list string :=
  match r with
  | Success => []
  | PetData pet => [Pets.userId pet]
  | RoutineData routine => [PetCareRoutines.userId routine]
  | LogData log => [PetCareLogs.userId log]
  | VisitData visit => [VetVisits.userId visit]
  | PetItems data => map Pets.userId (items data)
  | RoutineItems data => map PetCareRoutines.userId (items data)
  | LogItems data => map PetCareLogs.userId (items data)
  | VisitItems data => map VetVisits.userId (items data)
  end.

Definition is_log (id uid : string) (r : PetCareLogs.row) : bool :=
  String.eqb (PetCareLogs.id r) id && String.eqb (PetCareLogs.userId r) uid.

(** [createPet {name: Kiwi, species: bird, dateOfBirth: 2024-05-01T09:00:00Z}]. *)
Definition registerKiwi : CreatePetInput.t :=
  {| CreatePetInput.name := "Kiwi"; CreatePetInput.species := Some "bird";
     CreatePetInput.breed := None; CreatePetInput.gender := None;
     CreatePetInput.dateOfBirth := Some (DateStr "2024-05-01T09:00:00Z");
     CreatePetInput.color := None; CreatePetInput.weightKg := None;
     CreatePetInput.notes := None |}.

(** [createPetCareRoutine {petId: pet-3, name: Seeds, daysOfWeek: [mon, thu]}]. *)
Definition seedsForCoco : CreateRoutineInput.t :=
  {| CreateRoutineInput.petId := "pet-3";
     CreateRoutineInput.name := "Seeds";
     CreateRoutineInput.description := None;
     CreateRoutineInput.frequency := Some "weekly";
     CreateRoutineInput.timeOfDayLocal := None;
     CreateRoutineInput.daysOfWeek := Some ["mon"; "thu"] |}.

(** [createPetCareLog {petId: pet-1, routineId: routine-1, status: done}]. *)
Definition logFeeding : CreateLogInput.t :=
  {| CreateLogInput.petId := "pet-1";
     CreateLogInput.routineId := Some "routine-1";
     CreateLogInput.logDateTime := None;
     CreateLogInput.status := Some done;
     CreateLogInput.notes := None |}.

(** [updatePetCareRoutine {id: routine-2, isActive: true}]. *)
Definition reactivateWalking : UpdateRoutineInput.t :=
  {| UpdateRoutineInput.id := "routine-2"; UpdateRoutineInput.petId := None;
     UpdateRoutineInput.name := None; UpdateRoutineInput.description := None;
     UpdateRoutineInput.frequency := None;
     UpdateRoutineInput.timeOfDayLocal := None;
     UpdateRoutineInput.daysOfWeek := None;
     UpdateRoutineInput.isActive := Some true |}.

(** What [createPetCareLog] and the store ask of the routine its input
    names: nothing when [routineId] is absent. Otherwise a routine is
    stored under this id, which the store checks on insert; and unless the
    id is falsy, when the handler skips its own check, the routine is the
    caller's and is stored under the pet the log is for. *)
Definition routine_fits (input : CreateLogInput.t) (uid : string) (d : Db) : Prop :=
  match CreateLogInput.routineId input with
  | Some routineId =>
      routine_stored d routineId = true
      /\ (truthy routineId = true ->
          exists routine,
            unique_keys tblPetCareRoutines d
            /\ In routine (petCareRoutines d)
            /\ PetCareRoutines.id routine = routineId
            /\ PetCareRoutines.userId routine = uid
            /\ PetCareRoutines.petId routine = CreateLogInput.petId input)
  | None => True
  end.

(** [createPetCareLog {petId: pet-1, routineId: (empty)}]. *)
Definition logWithEmptyRoutine : CreateLogInput.t :=
  {| CreateLogInput.petId := "pet-1";
     CreateLogInput.routineId := Some EmptyString;
     CreateLogInput.logDateTime := None;
     CreateLogInput.status := None;
     CreateLogInput.notes := None |}.

(** A sequence of requests, each with its own context, served one after
    the other: the world the last one leaves. *)
Definition serve_all (host : Host) (requests : list (Request * ActionAPIContext))
    (w : World) : World :=
  fold_left (fun w' rc => snd (server host (fst rc) (snd rc) w')) requests w.

(** Whatever [m] returns satisfies [P]. *)
Definition returns {A} (P : A -> Prop) (m : Action A) : Prop :=
  forall w a, fst (m w) = Returned a -> P a.

(** Every row a response carries belongs to [uid]. *)
Definition all_of (uid : string) (r : Response) : Prop :=
  Forall (fun owner => owner = uid) (response_owners r).

(** Alice's day: she renames Bruno, archives the feeding routine, records
    a visit and deletes Coco; Bob lists his pets in between. *)
Definition aliceAndBob : list (Request * ActionAPIContext) :=
  [ (UpdatePet renameBruno, alice);
    (ArchivePetCareRoutine {| IdInput.id := "routine-1" |}, alice);
    (ListPets, bob);
    (CreateVetVisit visitInMay, alice);
    (DeletePet {| IdInput.id := "pet-3" |}, alice) ].

(** [updateVetVisit {id: visit-1, petId: pet-3, clinicName: City Vets}]. *)
Definition moveCheckup : UpdateVisitInput.t :=
  {| UpdateVisitInput.id := "visit-1"; UpdateVisitInput.petId := Some "pet-3";
     UpdateVisitInput.visitDate := None;
     UpdateVisitInput.clinicName := Some "City Vets";
     UpdateVisitInput.reason := None; UpdateVisitInput.diagnosis := None;
     UpdateVisitInput.treatment := None; UpdateVisitInput.medications := None;
     UpdateVisitInput.followUpDate := None |}.

(** [listPetCareRoutines {petId: (empty), includeInactive: false}]. *)
Definition routinesOfNoPet : ListRoutinesInput.t :=
  {| ListRoutinesInput.petId := Some EmptyString;
     ListRoutinesInput.includeInactive := false |}.

(** ** Basic facts about the statements and the guards *)

Lemma filter_none {A} (c : A -> bool) (l : list A) :
  (forall x, In x l -> c x = false) -> filter c l = [].
Proof.
  induction l as [|a l IH]; intros H; [reflexivity|].
  simpl. rewrite (H a (or_introl Logic.eq_refl)).
  apply IH. intros x Hx. apply H. now right.
Qed.

Lemma existsb_false_In {A} (c : A -> bool) (l : list A) (x : A) :
  existsb c l = false -> In x l -> c x = false.
Proof.
  induction l as [|a l IH]; simpl; [tauto|].
  intros H [->|Hx].
  - now apply orb_false_iff in H.
  - apply IH; [|assumption]. now apply orb_false_iff in H.
Qed.

Lemma filter_some {A} (c : A -> bool) (l : list A) :
  existsb c l = true -> exists r rest, filter c l = r :: rest /\ c r = true.
Proof.
  induction l as [|a l IH]; simpl; [discriminate|].
  destruct (c a) eqn:Ca; simpl.
  - intros _. now exists a, (filter c l).
  - exact IH.
Qed.

Lemma existsb_none {X} (c : X -> bool) (l : list X) :
  (forall x, In x l -> c x = false) -> existsb c l = false.
Proof.
  intros H. induction l as [|a l IH]; cbn; [reflexivity|].
  rewrite (H a (or_introl Logic.eq_refl)). apply IH.
  intros x Hx. apply H. now right.
Qed.

Lemma existsb_and_false {X} (c : X -> bool) (l : list X) :
  existsb (fun r => c r && false) l = false.
Proof.
  induction l as [|a l IH]; cbn; [reflexivity|].
  now rewrite andb_false_r, IH.
Qed.

(** Nothing references a care log or a vet visit: deleting them is never
    refused. *)
Lemma delete_logs_run (c : PetCareLogs.row -> bool) (w : World) :
  delete tblPetCareLogs c w
  = (Returned tt,
     sent (put tblPetCareLogs
             (filter (fun r => negb (c r)) (petCareLogs (store w))) (store w)) w).
Proof.
  unfold delete. cbn [referenced rows tblPetCareLogs].
  now rewrite existsb_and_false.
Qed.

Lemma delete_visits_run (c : VetVisits.row -> bool) (w : World) :
  delete tblVetVisits c w
  = (Returned tt,
     sent (put tblVetVisits
             (filter (fun r => negb (c r)) (vetVisits (store w))) (store w)) w).
Proof.
  unfold delete. cbn [referenced rows tblVetVisits].
  now rewrite existsb_and_false.
Qed.

(** An insert under a free key whose references hold goes through. *)
Lemma insert_run {X} (T : Table X) (r : X) (w : World) :
  existsb (fun x => String.eqb (primaryKey T x) (primaryKey T r))
          (rows T (store w)) = false ->
  references_hold T (store w) r = true ->
  insert T r w
  = (Returned tt, sent (put T (rows T (store w) ++ [r])%list (store w)) w).
Proof. intros Hfree Hrefs. unfold insert. now rewrite Hfree, Hrefs. Qed.

(** An update that rewrites no reference, or only to stored rows, passes
    the check of the references. *)
Lemma update_rekey_passes {X} (T : Table X) (rekeyed : bool) (change : X -> X)
    (c : X -> bool) (d : Db) :
  (rekeyed = true ->
   forall r, In r (rows T d) -> c r = true ->
             references_hold T d (change r) = true) ->
  rekeyed && existsb (fun r => c r && negb (references_hold T d (change r)))
                     (rows T d) = false.
Proof.
  intros H. destruct rekeyed; [|reflexivity]. cbn [andb].
  apply existsb_none. intros r Hr. destruct (c r) eqn:Hc; [|reflexivity].
  now rewrite (H Logic.eq_refl r Hr Hc).
Qed.

(** Such an update goes through whenever it has a value to set. *)
Lemma update_run {X} host (T : Table X) (rekeyed : bool) (change : X -> X)
    (c : X -> bool) (w : World) :
  (rekeyed = true ->
   forall r, In r (rows T (store w)) -> c r = true ->
             references_hold T (store w) (change r) = true) ->
  update host T false rekeyed change c w
  = (Returned tt,
     sent (put T (map (fun r => if c r then change r else r) (rows T (store w)))
             (store w)) w).
Proof.
  intros H. unfold update.
  now rewrite andb_false_r, (update_rekey_passes T change c (store w) H).
Qed.

(** A pet the caller owns is a stored pet. *)
Lemma owned_pet_stored (d : Db) (id uid : string) :
  owned Pet d id uid = true -> pet_stored d id = true.
Proof.
  cbn. unfold pet_stored. intros H. apply existsb_exists in H as (p & Hin & Hp).
  apply existsb_exists. exists p. split; [exact Hin|].
  now apply andb_true_iff in Hp.
Qed.

Section Guards.

Variable host : Host.
Variable context : ActionAPIContext.
Variable user : App.User.
Hypothesis signed_in : caller context = Some user.

Lemma requireUser_signed_in (w : World) :
  requireUser context w = (Returned user, w).
Proof. unfold requireUser. now rewrite signed_in. Qed.

Lemma assertPetOwnership_missing (petId : string) (w : World) :
  owned Pet (store w) petId (App.id user) = false ->
  assertPetOwnership petId (App.id user) w
  = (Thrown (ActionError NOT_FOUND "Pet not found."), sent (store w) w).
Proof.
  intros H. unfold assertPetOwnership, bind, select. cbn [rows tblPets].
  rewrite filter_none; [reflexivity|].
  intros x Hx. apply (existsb_false_In _ _ _ H) in Hx.
  unfold Sql.and, Sql.eq. cbn. now rewrite andb_true_r.
Qed.

Lemma assertPetOwnership_found (petId : string) (w : World) :
  owned Pet (store w) petId (App.id user) = true ->
  exists pet,
    assertPetOwnership petId (App.id user) w = (Returned pet, sent (store w) w)
    /\ Pets.id pet = petId /\ Pets.userId pet = App.id user.
Proof.
  intros H. unfold assertPetOwnership, bind, select. cbn [rows tblPets].
  destruct (filter_some _ _ H) as (r & rest & Hf & Hr).
  apply andb_true_iff in Hr as [Hi Hu].
  apply String.eqb_eq in Hi, Hu.
  exists r. split; [|now split].
  erewrite filter_ext; [rewrite Hf; reflexivity|].
  intros a. unfold Sql.and, Sql.eq. cbn. now rewrite andb_true_r.
Qed.

Lemma assertRoutineOwnership_missing (routineId : string) (w : World) :
  owned CareRoutine (store w) routineId (App.id user) = false ->
  assertRoutineOwnership routineId (App.id user) w
  = (Thrown (ActionError NOT_FOUND "Care routine not found."),
     sent (store w) w).
Proof.
  intros H. unfold assertRoutineOwnership, bind, select.
  cbn [rows tblPetCareRoutines].
  rewrite filter_none; [reflexivity|].
  intros x Hx. apply (existsb_false_In _ _ _ H) in Hx.
  unfold Sql.and, Sql.eq. cbn. now rewrite andb_true_r.
Qed.

Lemma assertRoutineOwnership_found (routineId : string) (w : World) :
  owned CareRoutine (store w) routineId (App.id user) = true ->
  exists routine rest,
    filter (fun r => String.eqb (PetCareRoutines.id r) routineId
                     && String.eqb (PetCareRoutines.userId r) (App.id user))
           (petCareRoutines (store w)) = routine :: rest
    /\ assertRoutineOwnership routineId (App.id user) w
       = (Returned routine, sent (store w) w)
    /\ PetCareRoutines.id routine = routineId
    /\ PetCareRoutines.userId routine = App.id user.
Proof.
  intros H. unfold assertRoutineOwnership, bind, select.
  cbn [rows tblPetCareRoutines].
  destruct (filter_some _ _ H) as (r & rest & Hf & Hr).
  apply andb_true_iff in Hr as [Hi Hu].
  apply String.eqb_eq in Hi, Hu.
  exists r, rest. split; [exact Hf|]. split; [|now split].
  erewrite filter_ext; [rewrite Hf; reflexivity|].
  intros a. unfold Sql.and, Sql.eq. cbn. now rewrite andb_true_r.
Qed.

End Guards.

Lemma fails_respond {A} (wrap : A -> Response) (m : Action A) (w : World)
    (code : ErrorCode) :
  fails m w code -> fails (respond wrap m) w code.
Proof.
  unfold fails, respond, bind, ret.
  destruct (m w) as [[a|e] w']; simpl; intros [H1 H2]; [discriminate|].
  now split.
Qed.

Section NotFound.

Variable host : Host.
Variable context : ActionAPIContext.
Variable user : App.User.
Hypothesis signed_in : caller context = Some user.

Ltac enter :=
  unfold fails, bind; rewrite (@requireUser_signed_in _ _ signed_in).

Ltac pet_missing :=
  rewrite (@assertPetOwnership_missing user) by assumption;
  simpl; now split.

Ltac routine_missing :=
  rewrite (@assertRoutineOwnership_missing user) by assumption;
  simpl; now split.

Lemma select_missing_log (id : string) (w : World) :
  owned CareLog (store w) id (App.id user) = false ->
  filter (Sql.and [Sql.eq PetCareLogs.id id; Sql.eq PetCareLogs.userId (App.id user)])
         (petCareLogs (store w)) = [].
Proof.
  intros H. apply filter_none. intros x Hx.
  apply (existsb_false_In _ _ _ H) in Hx.
  unfold Sql.and, Sql.eq. cbn. now rewrite andb_true_r.
Qed.

Lemma select_missing_visit (id : string) (w : World) :
  owned VetVisit (store w) id (App.id user) = false ->
  filter (Sql.and [Sql.eq VetVisits.id id; Sql.eq VetVisits.userId (App.id user)])
         (vetVisits (store w)) = [].
Proof.
  intros H. apply filter_none. intros x Hx.
  apply (existsb_false_In _ _ _ H) in Hx.
  unfold Sql.and, Sql.eq. cbn. now rewrite andb_true_r.
Qed.

Lemma updatePet_not_owned input w :
  owned Pet (store w) (UpdatePetInput.id input) (App.id user) = false ->
  fails (updatePet host input context) w NOT_FOUND.
Proof. intros H. unfold updatePet. enter. pet_missing. Qed.

Lemma deletePet_not_owned input w :
  owned Pet (store w) (IdInput.id input) (App.id user) = false ->
  fails (deletePet input context) w NOT_FOUND.
Proof. intros H. unfold deletePet. enter. pet_missing. Qed.

Lemma createPetCareRoutine_not_owned input w :
  owned Pet (store w) (CreateRoutineInput.petId input) (App.id user) = false ->
  fails (createPetCareRoutine host input context) w NOT_FOUND.
Proof. intros H. unfold createPetCareRoutine. enter. pet_missing. Qed.

Lemma updatePetCareRoutine_not_owned input w :
  owned CareRoutine (store w) (UpdateRoutineInput.id input) (App.id user) = false ->
  fails (updatePetCareRoutine host input context) w NOT_FOUND.
Proof. intros H. unfold updatePetCareRoutine. enter. routine_missing. Qed.

Lemma updatePetCareRoutine_pet_not_owned input petId w :
  UpdateRoutineInput.petId input = Some petId ->
  owned Pet (store w) petId (App.id user) = false ->
  fails (updatePetCareRoutine host input context) w NOT_FOUND.
Proof.
  intros Hp H.
  destruct (owned CareRoutine (store w) (UpdateRoutineInput.id input) (App.id user)) eqn:Ho.
  - unfold updatePetCareRoutine. enter.
    destruct (@assertRoutineOwnership_found user _ _ Ho)
      as (r & rest & _ & -> & _).
    rewrite Hp. cbn [nullish]. pet_missing.
  - now apply updatePetCareRoutine_not_owned.
Qed.

Lemma archivePetCareRoutine_not_owned input w :
  owned CareRoutine (store w) (IdInput.id input) (App.id user) = false ->
  fails (archivePetCareRoutine host input context) w NOT_FOUND.
Proof. intros H. unfold archivePetCareRoutine. enter. routine_missing. Qed.

Lemma createPetCareLog_not_owned input w :
  owned Pet (store w) (CreateLogInput.petId input) (App.id user) = false ->
  fails (createPetCareLog host input context) w NOT_FOUND.
Proof. intros H. unfold createPetCareLog. enter. pet_missing. Qed.

Lemma createPetCareLog_routine_not_owned input routineId w :
  CreateLogInput.routineId input = Some routineId ->
  truthy routineId = true ->
  owned CareRoutine (store w) routineId (App.id user) = false ->
  fails (createPetCareLog host input context) w NOT_FOUND.
Proof.
  intros Hr Ht H.
  destruct (owned Pet (store w) (CreateLogInput.petId input) (App.id user)) eqn:Ho.
  - unfold createPetCareLog. enter.
    destruct (@assertPetOwnership_found user _ _ Ho) as (p & -> & _).
    rewrite Hr, Ht. unfold bind. routine_missing.
  - now apply createPetCareLog_not_owned.
Qed.

Lemma listPetCareLogs_not_owned input w :
  owned Pet (store w) (PetIdInput.petId input) (App.id user) = false ->
  fails (listPetCareLogs input context) w NOT_FOUND.
Proof. intros H. unfold listPetCareLogs. enter. pet_missing. Qed.

Lemma deletePetCareLog_not_owned input w :
  owned CareLog (store w) (IdInput.id input) (App.id user) = false ->
  fails (deletePetCareLog input context) w NOT_FOUND.
Proof.
  intros H. unfold deletePetCareLog. enter. unfold select.
  cbn [rows tblPetCareLogs]. rewrite select_missing_log by assumption.
  simpl. now split.
Qed.

Lemma createVetVisit_not_owned input w :
  owned Pet (store w) (CreateVisitInput.petId input) (App.id user) = false ->
  fails (createVetVisit host input context) w NOT_FOUND.
Proof. intros H. unfold createVetVisit. enter. pet_missing. Qed.

Lemma updateVetVisit_not_owned input w :
  owned VetVisit (store w) (UpdateVisitInput.id input) (App.id user) = false ->
  fails (updateVetVisit host input context) w NOT_FOUND.
Proof.
  intros H. unfold updateVetVisit. enter. unfold select.
  cbn [rows tblVetVisits]. rewrite select_missing_visit by assumption.
  simpl. now split.
Qed.

Lemma updateVetVisit_pet_not_owned input petId w :
  UpdateVisitInput.petId input = Some petId ->
  owned Pet (store w) petId (App.id user) = false ->
  fails (updateVetVisit host input context) w NOT_FOUND.
Proof.
  intros Hp H. unfold updateVetVisit. enter. unfold select.
  cbn [rows tblVetVisits].
  destruct (filter _ (vetVisits (store w))) as [|v rest]; [simpl; now split|].
  rewrite Hp. cbn [nullish]. unfold bind. pet_missing.
Qed.

Lemma deleteVetVisit_not_owned input w :
  owned VetVisit (store w) (IdInput.id input) (App.id user) = false ->
  fails (deleteVetVisit input context) w NOT_FOUND.
Proof.
  intros H. unfold deleteVetVisit. enter. unfold select.
  cbn [rows tblVetVisits]. rewrite select_missing_visit by assumption.
  simpl. now split.
Qed.

Lemma listVetVisits_not_owned input w :
  owned Pet (store w) (PetIdInput.petId input) (App.id user) = false ->
  fails (listVetVisits input context) w NOT_FOUND.
Proof. intros H. unfold listVetVisits. enter. pet_missing. Qed.

End NotFound.

(** ** Ownership and identity *)

(** C1. For every request of a signed-in caller and every id it names
    (see [targets]: the row to update, delete or archive, of any of the
    four kinds, and the pet or routine a handler attaches to): when no
    stored row of that kind has this id together with the caller's
    [userId], that is the id is unknown or the row is someone else's, the
    request fails with NOT_FOUND and every table is left as it was. *)
Theorem foreign_or_missing_target_is_NOT_FOUND
    (host : Host) (request : Request) (context : ActionAPIContext)
    (user : App.User) (w : World) (e : Entity) (id : string) :
  caller context = Some user ->
  In (e, id) (targets request) ->
  owned e (store w) id (App.id user) = false ->
  fails (server host request context) w NOT_FOUND.
Proof.
  intros Hu Hin Hno.
  destruct request; cbn [targets] in Hin; cbn [server]; apply fails_respond;
    try contradiction.
  - destruct Hin as [[= <- <-]|[]]. now apply updatePet_not_owned with user.
  - destruct Hin as [[= <- <-]|[]]. now apply deletePet_not_owned with user.
  - destruct Hin as [[= <- <-]|[]].
    now apply createPetCareRoutine_not_owned with user.
  - destruct Hin as [[= <- <-]|Hin].
    + now apply updatePetCareRoutine_not_owned with user.
    + destruct (UpdateRoutineInput.petId input) as [p|] eqn:Hp; [|contradiction].
      destruct Hin as [[= <- <-]|[]].
      now apply updatePetCareRoutine_pet_not_owned with user p.
  - destruct Hin as [[= <- <-]|[]].
    now apply archivePetCareRoutine_not_owned with user.
  - destruct Hin as [[= <- <-]|Hin].
    + now apply createPetCareLog_not_owned with user.
    + destruct (CreateLogInput.routineId input) as [r|] eqn:Hr; [|contradiction].
      destruct (truthy r) eqn:Ht; [|contradiction].
      destruct Hin as [[= <- <-]|[]].
      now apply createPetCareLog_routine_not_owned with user r.
  - destruct Hin as [[= <- <-]|[]]. now apply listPetCareLogs_not_owned with user.
  - destruct Hin as [[= <- <-]|[]]. now apply deletePetCareLog_not_owned with user.
  - destruct Hin as [[= <- <-]|[]]. now apply createVetVisit_not_owned with user.
  - destruct Hin as [[= <- <-]|Hin].
    + now apply updateVetVisit_not_owned with user.
    + destruct (UpdateVisitInput.petId input) as [p|] eqn:Hp; [|contradiction].
      destruct Hin as [[= <- <-]|[]].
      now apply updateVetVisit_pet_not_owned with user p.
  - destruct Hin as [[= <- <-]|[]]. now apply deleteVetVisit_not_owned with user.
  - destruct Hin as [[= <- <-]|[]]. now apply listVetVisits_not_owned with user.
Qed.

(** C6. Whatever the request, when the context resolves no caller the
    handler throws UNAUTHORIZED at once: the world it leaves is the world
    it found, tables and statement count alike, so the store was never
    reached. *)
Theorem unresolved_caller_is_UNAUTHORIZED
    (host : Host) (request : Request) (context : ActionAPIContext) (w : World) :
  caller context = None ->
  server host request context w
  = (Thrown (ActionError UNAUTHORIZED
               "You must be signed in to perform this action."), w).
Proof.
  intros H.
  destruct request; cbn [server]; unfold respond, bind;
    [ unfold createPet | unfold updatePet | unfold deletePet | unfold listPets
    | unfold createPetCareRoutine | unfold updatePetCareRoutine
    | unfold archivePetCareRoutine | unfold listPetCareRoutines
    | unfold createPetCareLog | unfold listPetCareLogs
    | unfold deletePetCareLog | unfold createVetVisit | unfold updateVetVisit
    | unfold deleteVetVisit | unfold listVetVisits ];
    unfold bind, requireUser; rewrite H; reflexivity.
Qed.

(** ** Care routines: listing and archiving *)

Lemma SqlEq_text_true (a b : string) : sql_eqb a b = true <-> a = b.
Proof. apply String.eqb_eq. Qed.

Lemma SqlEq_boolean_true (a b : bool) : sql_eqb a b = true <-> a = b.
Proof. apply Bool.eqb_true_iff. Qed.

(** The condition [listPetCareRoutines] hands to the store, read row by row. *)
Lemma listPetCareRoutines_where
    (input : option ListRoutinesInput.t) (context : ActionAPIContext)
    (user : App.User) (w : World) :
  caller context = Some user ->
  exists whereClause,
    listPetCareRoutines input context w
    = (Returned {| items := filter whereClause (petCareRoutines (store w));
                   total := length (filter whereClause (petCareRoutines (store w))) |},
       sent (store w) w)
    /\ forall r,
         whereClause r = true <->
         (PetCareRoutines.userId r = App.id user
          /\ (forall i p, input = Some i -> ListRoutinesInput.petId i = Some p ->
                truthy p = true -> PetCareRoutines.petId r = p)
          /\ ((input = None
               \/ exists i, input = Some i
                            /\ ListRoutinesInput.includeInactive i = false) ->
              PetCareRoutines.isActive r = true)).
Proof.
  intros Hu. unfold listPetCareRoutines, bind.
  rewrite (@requireUser_signed_in _ _ Hu). unfold select, ret.
  cbn [rows tblPetCareRoutines].
  eexists. split; [reflexivity|]. intros r.
  destruct input as [[pid inc]|]; cbn [ListRoutinesInput.petId
    ListRoutinesInput.includeInactive].
  - destruct pid as [p|]; [destruct (truthy p) eqn:Ht|]; destruct inc;
      cbn [negb app]; unfold Sql.and, Sql.eq; cbn [forallb];
      rewrite ?andb_true_iff, ?SqlEq_text_true, ?SqlEq_boolean_true;
      (split;
       [ intros H; split; [tauto|]; split;
         [ intros i q [= <-]; cbn; intros E Hq; try discriminate;
           injection E as <-; (tauto || congruence)
         | intros [[=]|(i & [= <-] & Hi)]; cbn in Hi; try discriminate; tauto ]
       | intros (H1 & H2 & H3);
         try (pose proof (H2 _ _ Logic.eq_refl Logic.eq_refl Ht) as Hp);
         try (pose proof (H3 (or_intror (ex_intro _ _
                (conj Logic.eq_refl Logic.eq_refl)))) as Ha);
         tauto ]).
  - cbn [negb app]. unfold Sql.and, Sql.eq. cbn [forallb].
    rewrite ?andb_true_iff, ?SqlEq_text_true, ?SqlEq_boolean_true.
    split.
    + intros (H1 & H2 & _). split; [exact H1|]. split; [|intros _; exact H2].
      intros i p [=].
    + intros (H1 & _ & H3). split; [exact H1|]. split; [|reflexivity].
      apply H3. now left.
Qed.


Lemma Sql_and_id_userId {R} (idc uidc : R -> string) (id uid : string) (r : R) :
  Sql.and [Sql.eq idc id; Sql.eq uidc uid] r
  = String.eqb (idc r) id && String.eqb (uidc r) uid.
Proof. unfold Sql.and, Sql.eq. cbn. now rewrite andb_true_r. Qed.

Lemma owned_routine_In (d : Db) (r : PetCareRoutines.row) :
  In r (petCareRoutines d) ->
  owned CareRoutine d (PetCareRoutines.id r) (PetCareRoutines.userId r) = true.
Proof.
  intros H. cbn. apply existsb_exists. exists r. split; [exact H|].
  now rewrite !String.eqb_refl.
Qed.

(** One run of [archivePetCareRoutine] on a routine of the caller. *)
Lemma archivePetCareRoutine_run
    (host : Host) (input : IdInput.t) (context : ActionAPIContext)
    (user : App.User) (w : World) (r : PetCareRoutines.row) :
  caller context = Some user ->
  In r (petCareRoutines (store w)) ->
  PetCareRoutines.id r = IdInput.id input ->
  PetCareRoutines.userId r = App.id user ->
  fst (archivePetCareRoutine host input context w) = Returned tt
  /\ clockReads (snd (archivePetCareRoutine host input context w))
     = S (clockReads w)
  /\ store (snd (archivePetCareRoutine host input context w))
     = put tblPetCareRoutines
         (map (fun x => if is_routine (IdInput.id input) (App.id user) x
                        then archived (DateMs (clock host (clockReads w))) x
                        else x)
              (petCareRoutines (store w)))
         (store w).
Proof.
  intros Hu Hin Hid Huid.
  pose proof (owned_routine_In _ _ Hin) as Ho. rewrite Hid, Huid in Ho.
  unfold archivePetCareRoutine, bind.
  rewrite (@requireUser_signed_in _ _ Hu).
  destruct (@assertRoutineOwnership_found user _ _ Ho) as (r0 & rest & _ & -> & _).
  unfold newDate, update. cbn. rewrite andb_false_r. cbn.
  split; [reflexivity|]. split; [reflexivity|].
  f_equal. apply map_ext. intros a.
  unfold Sql.eq, is_routine. rewrite andb_true_r. reflexivity.
Qed.

(** C5. For a routine of the caller, [archivePetCareRoutine] succeeds and
    rewrites the routines table row by row: the targeted row becomes its
    [archived] copy ([isActive = false]), every other row stays, and no row
    is removed, so the routine is still stored. Archiving again, the
    routine being archived already, succeeds as well and leaves it stored
    with [isActive = false]. *)
Theorem archivePetCareRoutine_idempotent
    (host : Host) (input : IdInput.t) (context : ActionAPIContext)
    (user : App.User) (w : World) (r : PetCareRoutines.row) :
  caller context = Some user ->
  In r (petCareRoutines (store w)) ->
  PetCareRoutines.id r = IdInput.id input ->
  PetCareRoutines.userId r = App.id user ->
  let once := archivePetCareRoutine host input context w in
  let twice := archivePetCareRoutine host input context (snd once) in
  let now1 := DateMs (clock host (clockReads w)) in
  let now2 := DateMs (clock host (S (clockReads w))) in
  fst once = Returned tt
  /\ petCareRoutines (store (snd once))
     = map (fun x => if is_routine (IdInput.id input) (App.id user) x
                     then archived now1 x else x)
           (petCareRoutines (store w))
  /\ In (archived now1 r) (petCareRoutines (store (snd once)))
  /\ PetCareRoutines.isActive (archived now1 r) = false
  /\ fst twice = Returned tt
  /\ In (archived now2 r) (petCareRoutines (store (snd twice)))
  /\ length (petCareRoutines (store (snd twice)))
     = length (petCareRoutines (store w)).
Proof.
  intros Hu Hin Hid Huid once twice now1 now2.
  destruct (archivePetCareRoutine_run host input context w r Hu Hin Hid Huid)
    as (Hr1 & Hc1 & Hs1).
  assert (Hrows1 : petCareRoutines (store (snd once))
                   = map (fun x => if is_routine (IdInput.id input) (App.id user) x
                                   then archived now1 x else x)
                         (petCareRoutines (store w))).
  { subst once. rewrite Hs1. reflexivity. }
  assert (Hin1 : In (archived now1 r) (petCareRoutines (store (snd once)))).
  { rewrite Hrows1. apply in_map_iff. exists r. split; [|exact Hin].
    unfold is_routine. rewrite Hid, Huid, !String.eqb_refl. reflexivity. }
  destruct (archivePetCareRoutine_run host input context (snd once)
              (archived now1 r) Hu Hin1 Hid Huid) as (Hr2 & _ & Hs2).
  assert (Hrows2 : petCareRoutines (store (snd twice))
                   = map (fun x => if is_routine (IdInput.id input) (App.id user) x
                                   then archived now2 x else x)
                         (petCareRoutines (store (snd once)))).
  { subst twice. rewrite Hs2. subst once now2. rewrite Hc1. reflexivity. }
  repeat split; try assumption.
  - rewrite Hrows2. apply in_map_iff. exists (archived now1 r).
    split; [|exact Hin1].
    unfold is_routine. cbn. rewrite Hid, Huid, !String.eqb_refl. reflexivity.
  - rewrite Hrows2, Hrows1, !length_map. reflexivity.
Qed.

(** ** What a run keeps of the store *)

Section Keeps.

Variable R : Db -> Db -> Prop.
Hypothesis R_refl : forall d, R d d.
Hypothesis R_trans : forall a b c, R a b -> R b c -> R a c.

Lemma keeps_ret {A} (a : A) : keeps R (ret a).
Proof. intros w. apply R_refl. Qed.

Lemma keeps_throw {A} (e : Exception) : keeps R (@throw A e).
Proof. intros w. apply R_refl. Qed.

Lemma keeps_bind {A B} (m : Action A) (k : A -> Action B) :
  keeps R m -> (forall a, keeps R (k a)) -> keeps R (bind m k).
Proof.
  intros Hm Hk w. unfold bind. specialize (Hm w).
  destruct (m w) as [[a|e] w'] eqn:E; cbn in *.
  - eapply R_trans; [exact Hm|]. apply Hk.
  - exact Hm.
Qed.

Lemma keeps_newDate (host : Host) : keeps R (newDate host).
Proof. intros w. apply R_refl. Qed.

Lemma keeps_cryptoRandomUUID (host : Host) : keeps R (cryptoRandomUUID host).
Proof. intros w. apply R_refl. Qed.

Lemma keeps_select {X} (T : Table X) (c : X -> bool) : keeps R (select T c).
Proof. intros w. apply R_refl. Qed.

Lemma keeps_requireUser (context : ActionAPIContext) :
  keeps R (requireUser context).
Proof.
  unfold requireUser. destruct (caller context);
    [apply keeps_ret | apply keeps_throw].
Qed.

Lemma keeps_columnDefaultNow (host : Host) (value : option Date) :
  keeps R (columnDefaultNow host value).
Proof. destruct value; [apply keeps_ret | apply keeps_newDate]. Qed.

Lemma keeps_assertPetOwnership (petId userId : string) :
  keeps R (assertPetOwnership petId userId).
Proof.
  unfold assertPetOwnership. apply keeps_bind; [apply keeps_select|].
  intros [|p rest]; [apply keeps_throw | apply keeps_ret].
Qed.

Lemma keeps_assertRoutineOwnership (routineId userId : string) :
  keeps R (assertRoutineOwnership routineId userId).
Proof.
  unfold assertRoutineOwnership. apply keeps_bind; [apply keeps_select|].
  intros [|p rest]; [apply keeps_throw | apply keeps_ret].
Qed.

Lemma keeps_respond {A} (wrap : A -> Response) (m : Action A) :
  keeps R m -> keeps R (respond wrap m).
Proof.
  intros H. unfold respond. apply keeps_bind; [exact H|].
  intros a. apply keeps_ret.
Qed.

(** Statements on a table [T] whose content [R] does not look at. *)
Section OtherTable.

Variable X : Type.
Variable T : Table X.
Hypothesis R_put : forall l d, R d (put T l d).

Lemma keeps_insert (r : X) : keeps R (insert T r).
Proof.
  intros w. unfold insert. destruct (existsb _ _); [apply R_refl|].
  destruct (negb _); cbn; [apply R_refl | apply R_put].
Qed.

Lemma keeps_update (host : Host) (empty rekeyed : bool) (change : X -> X)
    (c : X -> bool) :
  keeps R (update host T empty rekeyed change c).
Proof.
  intros w. unfold update. destruct (_ && _); [apply R_refl|].
  destruct (_ && _); cbn; [apply R_refl | apply R_put].
Qed.

Lemma keeps_delete (c : X -> bool) : keeps R (delete T c).
Proof.
  intros w. unfold delete. destruct (existsb _ _); cbn;
    [apply R_refl | apply R_put].
Qed.

End OtherTable.

End Keeps.

(** ** Care logs are only ever appended or deleted *)

Lemma same_logs_refl (d : Db) : same_logs d d.
Proof. reflexivity. Qed.

Lemma same_logs_trans (a b c : Db) : same_logs a b -> same_logs b c -> same_logs a c.
Proof. unfold same_logs. congruence. Qed.

Lemma logs_appended_refl (d : Db) : logs_appended d d.
Proof. exists []. now rewrite app_nil_r. Qed.

Lemma logs_appended_trans (a b c : Db) :
  logs_appended a b -> logs_appended b c -> logs_appended a c.
Proof.
  intros [x Hx] [y Hy]. exists (x ++ y)%list. now rewrite Hy, Hx, app_assoc.
Qed.

(** One step through a handler whose statements leave the logs alone. *)
Ltac keeps_logs_step :=
  first
    [ apply keeps_bind; [exact same_logs_trans | | intros ?]
    | apply keeps_ret; exact same_logs_refl
    | apply keeps_throw; exact same_logs_refl
    | apply keeps_requireUser; exact same_logs_refl
    | apply keeps_assertPetOwnership; [exact same_logs_refl | exact same_logs_trans]
    | apply keeps_assertRoutineOwnership;
        [exact same_logs_refl | exact same_logs_trans]
    | apply keeps_newDate; exact same_logs_refl
    | apply keeps_cryptoRandomUUID; exact same_logs_refl
    | apply keeps_columnDefaultNow; exact same_logs_refl
    | apply keeps_select; exact same_logs_refl
    | apply keeps_insert; [exact same_logs_refl | reflexivity]
    | apply keeps_update; [exact same_logs_refl | reflexivity]
    | apply keeps_delete; reflexivity
    | match goal with
      | |- keeps _ (match ?x with _ => _ end) => destruct x
      | |- keeps _ (if ?x then _ else _) => destruct x
      end ].

Lemma createPet_same_logs host input context :
  keeps same_logs (createPet host input context).
Proof. unfold createPet. repeat keeps_logs_step. Qed.

Lemma updatePet_same_logs host input context :
  keeps same_logs (updatePet host input context).
Proof. unfold updatePet. repeat keeps_logs_step. Qed.

Lemma deletePet_same_logs input context :
  keeps same_logs (deletePet input context).
Proof. unfold deletePet. repeat keeps_logs_step. Qed.

Lemma listPets_same_logs context : keeps same_logs (listPets context).
Proof. unfold listPets. repeat keeps_logs_step. Qed.

Lemma createPetCareRoutine_same_logs host input context :
  keeps same_logs (createPetCareRoutine host input context).
Proof. unfold createPetCareRoutine. repeat keeps_logs_step. Qed.

Lemma updatePetCareRoutine_same_logs host input context :
  keeps same_logs (updatePetCareRoutine host input context).
Proof. unfold updatePetCareRoutine. repeat keeps_logs_step. Qed.

Lemma archivePetCareRoutine_same_logs host input context :
  keeps same_logs (archivePetCareRoutine host input context).
Proof. unfold archivePetCareRoutine. repeat keeps_logs_step. Qed.

Lemma listPetCareRoutines_same_logs input context :
  keeps same_logs (listPetCareRoutines input context).
Proof. unfold listPetCareRoutines. repeat keeps_logs_step. Qed.

Lemma listPetCareLogs_same_logs input context :
  keeps same_logs (listPetCareLogs input context).
Proof. unfold listPetCareLogs. repeat keeps_logs_step. Qed.

Lemma createVetVisit_same_logs host input context :
  keeps same_logs (createVetVisit host input context).
Proof. unfold createVetVisit. repeat keeps_logs_step. Qed.

Lemma updateVetVisit_same_logs host input context :
  keeps same_logs (updateVetVisit host input context).
Proof. unfold updateVetVisit. repeat keeps_logs_step. Qed.

Lemma deleteVetVisit_same_logs input context :
  keeps same_logs (deleteVetVisit input context).
Proof. unfold deleteVetVisit. repeat keeps_logs_step. Qed.

Lemma listVetVisits_same_logs input context :
  keeps same_logs (listVetVisits input context).
Proof. unfold listVetVisits. repeat keeps_logs_step. Qed.

Lemma insert_log_appended (r : PetCareLogs.row) :
  keeps logs_appended (insert tblPetCareLogs r).
Proof.
  intros w. unfold insert. destruct (existsb _ _); [apply logs_appended_refl|].
  destruct (negb _); cbn.
  - apply logs_appended_refl.
  - now exists [r].
Qed.

Ltac keeps_appended_step :=
  first
    [ apply keeps_bind; [exact logs_appended_trans | | intros ?]
    | apply keeps_ret; exact logs_appended_refl
    | apply keeps_throw; exact logs_appended_refl
    | apply keeps_requireUser; exact logs_appended_refl
    | apply keeps_assertPetOwnership;
        [exact logs_appended_refl | exact logs_appended_trans]
    | apply keeps_assertRoutineOwnership;
        [exact logs_appended_refl | exact logs_appended_trans]
    | apply keeps_newDate; exact logs_appended_refl
    | apply keeps_cryptoRandomUUID; exact logs_appended_refl
    | apply keeps_columnDefaultNow; exact logs_appended_refl
    | apply keeps_select; exact logs_appended_refl
    | apply insert_log_appended
    | match goal with
      | |- keeps _ (match ?x with _ => _ end) => destruct x
      | |- keeps _ (if ?x then _ else _) => destruct x
      end ].

Lemma createPetCareLog_appends host input context :
  keeps logs_appended (createPetCareLog host input context).
Proof. unfold createPetCareLog. repeat keeps_appended_step. Qed.

Lemma filter_all {A} (l : list A) : filter (fun _ => true) l = l.
Proof. induction l as [|a l IH]; cbn; [reflexivity | now rewrite IH]. Qed.

Lemma deletePetCareLog_removes_target input context (w : World) :
  exists keep,
    petCareLogs (store (snd (deletePetCareLog input context w)))
    = filter keep (petCareLogs (store w))
    /\ (forall r, PetCareLogs.id r <> IdInput.id input -> keep r = true)
    /\ (forall user r,
          caller context = Some user ->
          fst (deletePetCareLog input context w) = Returned tt ->
          PetCareLogs.id r = IdInput.id input ->
          PetCareLogs.userId r = App.id user ->
          keep r = false).
Proof.
  unfold deletePetCareLog, bind, requireUser.
  destruct (caller context) as [user|]; unfold ret, throw, select;
    cbn [fst snd store sent rows tblPetCareLogs].
  - destruct (filter _ (petCareLogs (store w))) as [|l rest];
      [|rewrite delete_logs_run];
      cbn [fst snd store sent put tblPetCareLogs petCareLogs].
    + exists (fun _ => true).
      split; [now rewrite filter_all|]. split; [reflexivity|].
      intros u r _ [=].
    + eexists. split; [reflexivity|]. split.
      * intros r Hr. cbn.
        unfold Sql.eq at 1. unfold sql_eqb, SqlEq_text.
        destruct (String.eqb_spec (PetCareLogs.id r) (IdInput.id input));
          [contradiction | reflexivity].
      * intros u r [= <-] _ Hi Hu. cbn. unfold Sql.eq, sql_eqb, SqlEq_text.
        now rewrite Hi, Hu, !String.eqb_refl.
  - exists (fun _ => true).
    split; [now rewrite filter_all|]. split; [reflexivity|].
    intros u r [=].
Qed.

Lemma existsb_after_delete {X} (c c' : X -> bool) (l : list X) :
  (forall r, c' r = c r) ->
  existsb c (filter (fun r => negb (c' r)) l) = false.
Proof.
  intros H. apply existsb_none. intros x Hx.
  apply filter_In in Hx as [_ Hx]. rewrite H in Hx.
  now destruct (c x).
Qed.

Lemma filter_where_two {X} (a b : X -> string) (x y : string) (l : list X) :
  filter (fun r => negb (Sql.and [Sql.eq a x; Sql.eq b y] r)) l
  = filter (fun r => negb (String.eqb (a r) x && String.eqb (b r) y)) l.
Proof. apply filter_ext. intros r. now rewrite Sql_and_id_userId. Qed.

Lemma select_found_log (id uid : string) (w : World) :
  owned CareLog (store w) id uid = true ->
  exists log rest,
    filter (Sql.and [Sql.eq PetCareLogs.id id; Sql.eq PetCareLogs.userId uid])
           (petCareLogs (store w)) = log :: rest.
Proof.
  intros H. destruct (filter_some _ _ H) as (r & rest & Hf & _).
  exists r, rest. rewrite <- Hf. apply filter_ext. intros a.
  apply Sql_and_id_userId.
Qed.

(** One run of [deletePetCareLog] on a log of the caller, in full: the
    lookup finds it, the delete is sent and drops its rows. *)
Lemma deletePetCareLog_run (input : IdInput.t) (context : ActionAPIContext)
    (user : App.User) (w : World) :
  caller context = Some user ->
  owned CareLog (store w) (IdInput.id input) (App.id user) = true ->
  deletePetCareLog input context w
  = (Returned tt,
     sent (put tblPetCareLogs
             (filter (fun r => negb (is_log (IdInput.id input) (App.id user) r))
                     (petCareLogs (store w))) (store w))
          (sent (store w) w)).
Proof.
  intros Hu Hlog. unfold deletePetCareLog, bind.
  rewrite (@requireUser_signed_in _ _ Hu).
  unfold select. cbn [rows tblPetCareLogs].
  destruct (select_found_log _ _ w Hlog) as (l & rest & ->).
  rewrite delete_logs_run. cbn [store sent].
  now rewrite filter_where_two.
Qed.

(** C7. Whatever the request and the caller, the care logs already stored
    are never rewritten. [deletePetCareLog] leaves a sublist of them: rows
    are dropped, none is changed, every row with another id stays, and
    when it succeeds the caller's row with the targeted id is gone. It
    does succeed on a log of the caller: the response is [Success], the
    logs left are exactly those with another id or another owner, and the
    log is no longer found. [createPetCareLog] leaves the old rows in
    place and at most appends. Every other operation of the catalogue
    leaves the care logs exactly as they were: none of them updates a care
    log. *)
Theorem care_logs_are_immutable
    (host : Host) (request : Request) (context : ActionAPIContext) (w : World) :
  let logs := petCareLogs (store w) in
  let logs' := petCareLogs (store (snd (server host request context w))) in
  match request with
  | DeletePetCareLog input =>
      (exists keep,
         logs' = filter keep logs
         /\ (forall r, PetCareLogs.id r <> IdInput.id input -> keep r = true)
         /\ (forall user r,
               caller context = Some user ->
               fst (server host request context w) = Returned Success ->
               PetCareLogs.id r = IdInput.id input ->
               PetCareLogs.userId r = App.id user ->
               keep r = false))
      /\ (forall user,
            caller context = Some user ->
            owned CareLog (store w) (IdInput.id input) (App.id user) = true ->
            fst (server host request context w) = Returned Success
            /\ logs'
               = filter (fun r => negb (is_log (IdInput.id input) (App.id user) r))
                        logs
            /\ owned CareLog (store (snd (server host request context w)))
                 (IdInput.id input) (App.id user) = false)
  | CreatePetCareLog _ => exists added, logs' = (logs ++ added)%list
  | _ => logs' = logs
  end.
Proof.
  intros logs logs'. subst logs logs'.
  destruct request; cbn [server].
  - apply (keeps_respond same_logs_refl same_logs_trans), createPet_same_logs.
  - apply (keeps_respond same_logs_refl same_logs_trans), updatePet_same_logs.
  - apply (keeps_respond same_logs_refl same_logs_trans), deletePet_same_logs.
  - apply (keeps_respond same_logs_refl same_logs_trans), listPets_same_logs.
  - apply (keeps_respond same_logs_refl same_logs_trans),
      createPetCareRoutine_same_logs.
  - apply (keeps_respond same_logs_refl same_logs_trans),
      updatePetCareRoutine_same_logs.
  - apply (keeps_respond same_logs_refl same_logs_trans),
      archivePetCareRoutine_same_logs.
  - apply (keeps_respond same_logs_refl same_logs_trans),
      listPetCareRoutines_same_logs.
  - apply (keeps_respond logs_appended_refl logs_appended_trans),
      createPetCareLog_appends.
  - apply (keeps_respond same_logs_refl same_logs_trans),
      listPetCareLogs_same_logs.
  - split.
    + destruct (deletePetCareLog_removes_target input context w)
        as (keep & H1 & H2 & H3).
      exists keep. split; [|split; [exact H2|]].
      * rewrite <- H1. unfold respond, bind.
        destruct (deletePetCareLog input context w) as [[a|e] w']; reflexivity.
      * intros user r Hu Hok. apply (H3 user r Hu).
        revert Hok. unfold respond, bind.
        destruct (deletePetCareLog input context w) as [[[]|e] w']; cbn;
          [reflexivity | discriminate].
    + intros user Hu Hlog. unfold respond, bind.
      rewrite (@deletePetCareLog_run input context user w Hu Hlog).
      cbn [fst snd ret store sent put tblPetCareLogs petCareLogs owned].
      split; [reflexivity|]. split; [reflexivity|].
      apply existsb_after_delete. reflexivity.
  - apply (keeps_respond same_logs_refl same_logs_trans), createVetVisit_same_logs.
  - apply (keeps_respond same_logs_refl same_logs_trans), updateVetVisit_same_logs.
  - apply (keeps_respond same_logs_refl same_logs_trans), deleteVetVisit_same_logs.
  - apply (keeps_respond same_logs_refl same_logs_trans), listVetVisits_same_logs.
Qed.

(** ** The update handlers, statement by statement *)

Lemma where_is_pet (id uid : string) (l : list Pets.row) :
  filter (Sql.and [Sql.eq Pets.id id; Sql.eq Pets.userId uid]) l
  = filter (is_pet id uid) l.
Proof. apply filter_ext. intros r. apply Sql_and_id_userId. Qed.

Lemma where_is_routine (id uid : string) (l : list PetCareRoutines.row) :
  filter (Sql.and [Sql.eq PetCareRoutines.id id; Sql.eq PetCareRoutines.userId uid]) l
  = filter (is_routine id uid) l.
Proof. apply filter_ext. intros r. apply Sql_and_id_userId. Qed.

Lemma where_is_visit (id uid : string) (l : list VetVisits.row) :
  filter (Sql.and [Sql.eq VetVisits.id id; Sql.eq VetVisits.userId uid]) l
  = filter (is_visit id uid) l.
Proof. apply filter_ext. intros r. apply Sql_and_id_userId. Qed.

Lemma map_where {X} (c c' : X -> bool) (f : X -> X) (l : list X) :
  (forall r, c r = c' r) ->
  map (fun r => if c r then f r else r) l
  = map (fun r => if c' r then f r else r) l.
Proof. intros H. apply map_ext. intros r. now rewrite H. Qed.

Lemma Pets_no_values_updatedAt (u : Pets.partial) :
  Pets.set_updatedAt u <> None -> Pets.no_values u = false.
Proof.
  destruct u as [a b c d e f g h [t|]]; cbn; [intros _|congruence].
  unfold Pets.no_values; cbn.
  destruct a, b, c, d, e, f, g, h; reflexivity.
Qed.

Lemma PetCareRoutines_no_values_updatedAt (u : PetCareRoutines.partial) :
  PetCareRoutines.set_updatedAt u <> None -> PetCareRoutines.no_values u = false.
Proof.
  destruct u as [a b c d e f g [t|]]; cbn; [intros _|congruence].
  unfold PetCareRoutines.no_values; cbn.
  destruct a, b, c, d, e, f, g; reflexivity.
Qed.

(** The pet guard, as a case on [owned]. *)
Lemma assertPetOwnership_cases (petId uid : string) (w : World) :
  (owned Pet (store w) petId uid = true
   /\ exists pet, assertPetOwnership petId uid w = (Returned pet, sent (store w) w))
  \/ (owned Pet (store w) petId uid = false
      /\ assertPetOwnership petId uid w
         = (Thrown (ActionError NOT_FOUND "Pet not found."), sent (store w) w)).
Proof.
  destruct (owned Pet (store w) petId uid) eqn:Ho.
  - left. split; [reflexivity|].
    destruct (@assertPetOwnership_found {| App.id := uid |} petId w Ho)
      as (p & Hp & _).
    now exists p.
  - right. split; [reflexivity|].
    exact (@assertPetOwnership_missing {| App.id := uid |} petId w Ho).
Qed.

Lemma updatePet_store (host : Host) (input : UpdatePetInput.t)
    (context : ActionAPIContext) (w : World) :
  store (snd (updatePet host input context w))
  = match caller context with
    | Some user =>
        updatePet_effect host input (App.id user)
          (DateMs (clock host (clockReads w))) (store w)
    | None => store w
    end.
Proof.
  unfold updatePet, bind, requireUser.
  destruct (caller context) as [user|]; [|reflexivity].
  unfold ret, updatePet_effect.
  destruct (assertPetOwnership_cases (UpdatePetInput.id input) (App.id user) w)
    as [[Ho [p Hp]]|[Ho Hp]]; rewrite Hp, Ho; [|reflexivity].
  unfold newDate, update. cbn [fst snd store sent clockReads Pets.no_values
    Pets.set_name Pets.set_species Pets.set_breed Pets.set_gender
    Pets.set_dateOfBirth Pets.set_color Pets.set_weightKg Pets.set_notes
    Pets.set_updatedAt].
  rewrite Pets_no_values_updatedAt by discriminate.
  rewrite andb_false_r. cbn [andb snd store sent rows tblPets].
  f_equal. apply map_where. intros r. apply Sql_and_id_userId.
Qed.

Lemma updatePetCareRoutine_store (host : Host) (input : UpdateRoutineInput.t)
    (context : ActionAPIContext) (w : World) :
  store (snd (updatePetCareRoutine host input context w))
  = match caller context with
    | Some user =>
        updatePetCareRoutine_effect host input (App.id user)
          (DateMs (clock host (clockReads w))) (store w)
    | None => store w
    end.
Proof.
  unfold updatePetCareRoutine, bind, requireUser.
  destruct (caller context) as [user|]; [|reflexivity].
  unfold ret, updatePetCareRoutine_effect, assertRoutineOwnership, bind, select.
  cbn [rows tblPetCareRoutines]. rewrite where_is_routine.
  destruct (filter _ (petCareRoutines (store w))) as [|r0 rest]; [reflexivity|].
  unfold ret.
  destruct (assertPetOwnership_cases
              (nullish (UpdateRoutineInput.petId input) (PetCareRoutines.petId r0))
              (App.id user) (sent (store w) w))
    as [[Ho [p Hp]]|[Ho Hp]]; rewrite Hp; cbn [store sent] in Ho; rewrite Ho;
    [|reflexivity].
  unfold newDate.
  rewrite PetCareRoutines_no_values_updatedAt by discriminate.
  rewrite update_run.
  - cbn [snd store sent rows tblPetCareRoutines clockReads].
    f_equal. apply map_where. intros r. apply Sql_and_id_userId.
  - cbn [PetCareRoutines.sets_reference PetCareRoutines.set_petId].
    intros Hre r _ _. cbn [references_hold tblPetCareRoutines store sent].
    destruct (UpdateRoutineInput.petId input) as [q|]; [|discriminate Hre].
    exact (owned_pet_stored _ _ _ Ho).
Qed.

Lemma updateVetVisit_store (host : Host) (input : UpdateVisitInput.t)
    (context : ActionAPIContext) (w : World) :
  store (snd (updateVetVisit host input context w))
  = match caller context with
    | Some user => updateVetVisit_effect host input (App.id user) (store w)
    | None => store w
    end.
Proof.
  unfold updateVetVisit, bind, requireUser.
  destruct (caller context) as [user|]; [|reflexivity].
  unfold ret, updateVetVisit_effect, select.
  cbn [rows tblVetVisits]. rewrite where_is_visit.
  destruct (filter _ (vetVisits (store w))) as [|v0 rest]; [reflexivity|].
  unfold bind.
  destruct (assertPetOwnership_cases
              (nullish (UpdateVisitInput.petId input) (VetVisits.petId v0))
              (App.id user) (sent (store w) w))
    as [[Ho [p Hp]]|[Ho Hp]]; rewrite Hp; cbn [store sent] in Ho; rewrite Ho;
    [|reflexivity].
  unfold update. fold (visitUpdates host input).
  destruct (rejects_empty_set host && VetVisits.no_values (visitUpdates host input));
    [reflexivity|].
  rewrite update_rekey_passes.
  - cbn [snd store sent rows tblVetVisits].
    f_equal. apply map_where. intros r. apply Sql_and_id_userId.
  - unfold visitUpdates at 1.
    cbn [VetVisits.sets_reference VetVisits.set_petId].
    intros Hre r _ _.
    cbn [references_hold tblVetVisits store sent VetVisits.apply
         VetVisits.petId visitUpdates VetVisits.set_petId].
    destruct (UpdateVisitInput.petId input) as [q|]; [|discriminate Hre].
    exact (owned_pet_stored _ _ _ Ho).
Qed.

(** ** Partial updates: what they keep, and running them twice *)

Lemma updatePet_effect_frame host input uid now d :
  updatePet_frame input d (updatePet_effect host input uid now d).
Proof.
  unfold updatePet_effect.
  destruct (owned Pet d (UpdatePetInput.id input) uid);
    unfold updatePet_frame, column_kept; cbn [rows put tblPets pets
      petCareRoutines petCareLogs vetVisits];
    repeat split; try reflexivity; intros;
    rewrite map_map; apply map_ext; intros r;
    destruct (is_pet _ _ r); try reflexivity;
    cbn; try rewrite H; reflexivity.
Qed.

Lemma updatePetCareRoutine_effect_frame host input uid now d :
  updatePetCareRoutine_frame input d
    (updatePetCareRoutine_effect host input uid now d).
Proof.
  unfold updatePetCareRoutine_effect.
  destruct (filter _ (petCareRoutines d)) as [|r0 rest];
    [|destruct (owned Pet d _ uid)];
    unfold updatePetCareRoutine_frame, column_kept;
    cbn [rows put tblPetCareRoutines pets petCareRoutines petCareLogs vetVisits];
    repeat split; try reflexivity; intros;
    rewrite map_map; apply map_ext; intros r;
    destruct (is_routine _ _ r); try reflexivity;
    cbn; try rewrite H; reflexivity.
Qed.

Lemma updateVetVisit_effect_frame host input uid d :
  updateVetVisit_frame input d (updateVetVisit_effect host input uid d).
Proof.
  unfold updateVetVisit_effect.
  destruct (filter _ (vetVisits d)) as [|v0 rest];
    [|destruct (owned Pet d _ uid); [destruct (_ && _)|]];
    unfold updateVetVisit_frame, column_kept;
    cbn [rows put tblVetVisits pets petCareRoutines petCareLogs vetVisits];
    repeat split; try reflexivity; intros;
    rewrite map_map; apply map_ext; intros r;
    destruct (is_visit _ _ r); try reflexivity;
    cbn; try rewrite H; reflexivity.
Qed.

Lemma existsb_map_preserved {X} (c : X -> bool) (f : X -> X) (l : list X) :
  (forall r, c (f r) = c r) -> existsb c (map f l) = existsb c l.
Proof.
  intros H. induction l as [|a l IH]; cbn; [reflexivity|].
  now rewrite H, IH.
Qed.

Lemma filter_map_preserved {X} (c : X -> bool) (f : X -> X) (l : list X) :
  (forall r, c (f r) = c r) -> filter c (map f l) = map f (filter c l).
Proof.
  intros H. induction l as [|a l IH]; cbn; [reflexivity|].
  rewrite H. destruct (c a); cbn; now rewrite IH.
Qed.

Lemma assign_twice {A} (v : option A) (old : A) :
  assign v (assign v old) = assign v old.
Proof. now destruct v. Qed.

Lemma assign_opt_twice {A} (v old : option A) :
  assign_opt v (assign_opt v old) = assign_opt v old.
Proof. now destruct v. Qed.

Lemma updatePet_effect_twice host input uid now1 now2 d :
  forget_updatedAt
    (updatePet_effect host input uid now2 (updatePet_effect host input uid now1 d))
  = forget_updatedAt (updatePet_effect host input uid now1 d).
Proof.
  unfold updatePet_effect at 2 3.
  destruct (owned Pet d (UpdatePetInput.id input) uid) eqn:Ho.
  - unfold updatePet_effect.
    set (c := is_pet (UpdatePetInput.id input) uid).
    set (f1 := fun r => if c r then Pets.apply (petUpdates host input now1) r else r).
    assert (Hc : forall r, c (f1 r) = c r).
    { intros r. unfold f1. destruct (c r) eqn:E; [|exact E]. exact E. }
    replace (owned Pet (put tblPets (map f1 (pets d)) d) (UpdatePetInput.id input) uid)
      with true
      by (symmetry; cbn; fold (is_pet (UpdatePetInput.id input) uid); fold c;
          rewrite existsb_map_preserved by exact Hc; exact Ho).
    unfold forget_updatedAt. cbn [put tblPets pets petCareRoutines petCareLogs
      vetVisits]. f_equal.
    rewrite !map_map. apply map_ext. intros r. unfold f1.
    destruct (c r) eqn:E; [|rewrite E; reflexivity].
    replace (c (Pets.apply (petUpdates host input now1) r)) with true
      by (symmetry; exact E).
    unfold Pets_forget_updatedAt, Pets.apply. cbn.
    now rewrite !assign_twice, !assign_opt_twice.
  - unfold updatePet_effect. now rewrite Ho.
Qed.

Lemma filter_head_holds {X} (c : X -> bool) (l : list X) (r : X) (rest : list X) :
  filter c l = r :: rest -> c r = true.
Proof.
  intros H. assert (Hin : In r (filter c l)) by (rewrite H; now left).
  now apply filter_In in Hin.
Qed.

Lemma nullish_assign {A} (v : option A) (old : A) :
  nullish v (assign v old) = nullish v old.
Proof. now destruct v. Qed.

Lemma updatePetCareRoutine_effect_twice host input uid now1 now2 d :
  forget_updatedAt
    (updatePetCareRoutine_effect host input uid now2
       (updatePetCareRoutine_effect host input uid now1 d))
  = forget_updatedAt (updatePetCareRoutine_effect host input uid now1 d).
Proof.
  unfold updatePetCareRoutine_effect at 2 3.
  set (c := is_routine (UpdateRoutineInput.id input) uid).
  destruct (filter c (petCareRoutines d)) as [|r0 rest] eqn:Hf.
  - unfold updatePetCareRoutine_effect. fold c. now rewrite Hf.
  - destruct (owned Pet d _ uid) eqn:Ho.
    + unfold updatePetCareRoutine_effect. fold c.
      set (f1 := fun r => if c r
                          then PetCareRoutines.apply (routineUpdates host input now1) r
                          else r).
      assert (Hc : forall r, c (f1 r) = c r).
      { intros r. unfold f1. destruct (c r) eqn:E; exact E. }
      cbn [put tblPetCareRoutines petCareRoutines].
      rewrite (filter_map_preserved _ _ _ Hc), Hf. cbn [map].
      replace (f1 r0) with (PetCareRoutines.apply (routineUpdates host input now1) r0)
        by (unfold f1; now rewrite (filter_head_holds _ _ Hf)).
      cbn [PetCareRoutines.apply PetCareRoutines.petId routineUpdates
           PetCareRoutines.set_petId].
      rewrite nullish_assign.
      replace (owned Pet _ _ uid) with true by (symmetry; exact Ho).
      unfold forget_updatedAt. cbn [pets petCareRoutines petCareLogs vetVisits].
      f_equal. rewrite !map_map. apply map_ext. intros r. unfold f1.
      destruct (c r) eqn:E; [|rewrite E; reflexivity].
      replace (c (PetCareRoutines.apply (routineUpdates host input now1) r))
        with true by (symmetry; exact E).
      unfold PetCareRoutines_forget_updatedAt, PetCareRoutines.apply. cbn.
      now rewrite !assign_twice, !assign_opt_twice.
    + unfold updatePetCareRoutine_effect. fold c. now rewrite Hf, Ho.
Qed.

Lemma updateVetVisit_effect_twice host input uid d :
  updateVetVisit_effect host input uid (updateVetVisit_effect host input uid d)
  = updateVetVisit_effect host input uid d.
Proof.
  unfold updateVetVisit_effect at 2 3.
  set (c := is_visit (UpdateVisitInput.id input) uid).
  destruct (filter c (vetVisits d)) as [|v0 rest] eqn:Hf.
  - unfold updateVetVisit_effect. fold c. now rewrite Hf.
  - destruct (owned Pet d _ uid) eqn:Ho.
    + destruct (rejects_empty_set host
                && VetVisits.no_values (visitUpdates host input)) eqn:He.
      * unfold updateVetVisit_effect. fold c. now rewrite Hf, Ho, He.
      * unfold updateVetVisit_effect. fold c.
        set (f := fun r => if c r
                           then VetVisits.apply (visitUpdates host input) r
                           else r).
        assert (Hc : forall r, c (f r) = c r).
        { intros r. unfold f. destruct (c r) eqn:E; exact E. }
        cbn [put tblVetVisits vetVisits].
        rewrite (filter_map_preserved _ _ _ Hc), Hf. cbn [map].
        replace (f v0) with (VetVisits.apply (visitUpdates host input) v0)
          by (unfold f; now rewrite (filter_head_holds _ _ Hf)).
        cbn [VetVisits.apply VetVisits.petId visitUpdates VetVisits.set_petId].
        rewrite nullish_assign.
        replace (owned Pet _ _ uid) with true by (symmetry; exact Ho).
        rewrite He. cbn [pets petCareRoutines petCareLogs]. f_equal.
        rewrite map_map. apply map_ext. intros r. unfold f.
        destruct (c r) eqn:E; [|rewrite E; reflexivity].
        replace (c (VetVisits.apply (visitUpdates host input) r))
          with true by (symmetry; exact E).
        unfold VetVisits.apply. cbn.
        now rewrite !assign_twice, !assign_opt_twice.
    + unfold updateVetVisit_effect. fold c. now rewrite Hf, Ho.
Qed.

Lemma updatePet_frame_refl input d : updatePet_frame input d d.
Proof. unfold updatePet_frame, column_kept. repeat split; reflexivity. Qed.

Lemma updatePetCareRoutine_frame_refl input d : updatePetCareRoutine_frame input d d.
Proof. unfold updatePetCareRoutine_frame, column_kept. repeat split; reflexivity. Qed.

Lemma updateVetVisit_frame_refl input d : updateVetVisit_frame input d d.
Proof. unfold updateVetVisit_frame, column_kept. repeat split; reflexivity. Qed.

(** C3, as the code has it. Whatever the caller and the store, each of
    [updatePet], [updatePetCareRoutine] and [updateVetVisit] leaves the
    column of every field absent from its input as it was, row by row (and
    the keys, the owners, [createdAt] and the other tables). Running the
    same update a second time leaves, for [updateVetVisit], exactly the
    store the first run left; for [updatePet] and [updatePetCareRoutine]
    it leaves that store up to [updatedAt], which every run sets to the
    time it reads. *)
Theorem partial_update_keeps_absent_fields_and_reruns
    (host : Host) (context : ActionAPIContext) (w : World) :
  (forall input,
     let once := snd (updatePet host input context w) in
     let twice := snd (updatePet host input context once) in
     updatePet_frame input (store w) (store once)
     /\ forget_updatedAt (store twice) = forget_updatedAt (store once))
  /\ (forall input,
        let once := snd (updatePetCareRoutine host input context w) in
        let twice := snd (updatePetCareRoutine host input context once) in
        updatePetCareRoutine_frame input (store w) (store once)
        /\ forget_updatedAt (store twice) = forget_updatedAt (store once))
  /\ (forall input,
        let once := snd (updateVetVisit host input context w) in
        let twice := snd (updateVetVisit host input context once) in
        updateVetVisit_frame input (store w) (store once)
        /\ store twice = store once).
Proof.
  split; [|split]; intros input once twice; subst once twice.
  - rewrite !updatePet_store. destruct (caller context) as [user|].
    + split; [apply updatePet_effect_frame | apply updatePet_effect_twice].
    + split; [apply updatePet_frame_refl | reflexivity].
  - rewrite !updatePetCareRoutine_store. destruct (caller context) as [user|].
    + split; [apply updatePetCareRoutine_effect_frame
             | apply updatePetCareRoutine_effect_twice].
    + split; [apply updatePetCareRoutine_frame_refl | reflexivity].
  - rewrite !updateVetVisit_store. destruct (caller context) as [user|].
    + split; [apply updateVetVisit_effect_frame
             | apply updateVetVisit_effect_twice].
    + split; [apply updateVetVisit_frame_refl | reflexivity].
Qed.

(** C3 as the claim words it fails: Alice renames her pet twice; the
    second run reads a later clock, so the store it leaves differs from the
    store after the first run in Bruno's [updatedAt]. *)
Lemma updatePet_rerun_changes_the_store :
  ~ (forall (host : Host) (input : UpdatePetInput.t) (context : ActionAPIContext)
            (user : App.User) (w : World),
       caller context = Some user ->
       owned Pet (store w) (UpdatePetInput.id input) (App.id user) = true ->
       let once := snd (updatePet host input context w) in
       let twice := snd (updatePet host input context once) in
       store twice = store once).
Proof.
  intros H.
  specialize (H sampleHost renameBruno alice {| App.id := "alice" |} sampleWorld
                Logic.eq_refl Logic.eq_refl).
  vm_compute in H. discriminate H.
Qed.

(** ** A log's routine must belong to the log's pet *)

(** Under a primary key the WHERE clause on [id] and [userId] selects the
    one row that carries them. *)
Lemma unique_keys_select {X} (idc uidc : X -> string) (l : list X) (r : X) :
  NoDup (map idc l) -> In r l ->
  filter (fun x => String.eqb (idc x) (idc r) && String.eqb (uidc x) (uidc r)) l
  = [r].
Proof.
  induction l as [|a l IH]; intros Hnd Hin; [contradiction|].
  cbn [map] in Hnd. apply NoDup_cons_iff in Hnd as [Hfresh Hnd].
  cbn [filter]. destruct Hin as [->|Hin].
  - rewrite !String.eqb_refl. cbn. f_equal.
    apply filter_none. intros x Hx.
    destruct (String.eqb_spec (idc x) (idc r)) as [E|]; [|reflexivity].
    exfalso. apply Hfresh. rewrite <- E. now apply in_map.
  - destruct (String.eqb_spec (idc a) (idc r)) as [E|].
    + exfalso. apply Hfresh. rewrite E. now apply in_map.
    + cbn. now apply IH.
Qed.

(** C2, as the code has it. A signed-in caller logs care for a pet of
    theirs and names a routine ([routineId] supplied and non-empty) that is
    theirs too but is stored under another pet: [createPetCareLog] fails
    with FORBIDDEN, and no table changes, so no care log is inserted. *)
Theorem routine_of_another_pet_is_FORBIDDEN
    (host : Host) (input : CreateLogInput.t) (context : ActionAPIContext)
    (user : App.User) (w : World) (routineId : string)
    (routine : PetCareRoutines.row) :
  caller context = Some user ->
  owned Pet (store w) (CreateLogInput.petId input) (App.id user) = true ->
  CreateLogInput.routineId input = Some routineId ->
  truthy routineId = true ->
  unique_keys tblPetCareRoutines (store w) ->
  In routine (petCareRoutines (store w)) ->
  PetCareRoutines.id routine = routineId ->
  PetCareRoutines.userId routine = App.id user ->
  PetCareRoutines.petId routine <> CreateLogInput.petId input ->
  fails (createPetCareLog host input context) w FORBIDDEN.
Proof.
  intros Hu Hpet Hrid Ht Hkeys Hin Hid Huid Hneq.
  unfold fails, createPetCareLog, bind.
  rewrite (@requireUser_signed_in _ _ Hu).
  destruct (@assertPetOwnership_found user _ _ Hpet) as (p & -> & _).
  rewrite Hrid, Ht. unfold assertRoutineOwnership, bind, select.
  cbn [rows tblPetCareRoutines store sent].
  rewrite where_is_routine. unfold is_routine. rewrite <- Hid, <- Huid.
  rewrite (@unique_keys_select _ PetCareRoutines.id PetCareRoutines.userId
             (petCareRoutines (store w)) routine Hkeys Hin).
  unfold ret.
  destruct (String.eqb_spec (PetCareRoutines.petId routine)
                            (CreateLogInput.petId input)) as [E|_];
    [contradiction|].
  cbn. now split.
Qed.

(** C2 as the claim words it fails: it asks nothing of the pet. Alice
    names Bob's pet and her own routine, which is stored under her pet; the
    pet guard runs first and the request ends with NOT_FOUND. *)
Lemma routine_mismatch_on_foreign_pet_is_NOT_FOUND :
  ~ (forall (host : Host) (input : CreateLogInput.t) (context : ActionAPIContext)
            (user : App.User) (w : World) (routineId : string)
            (routine : PetCareRoutines.row),
       caller context = Some user ->
       CreateLogInput.routineId input = Some routineId ->
       In routine (petCareRoutines (store w)) ->
       PetCareRoutines.id routine = routineId ->
       PetCareRoutines.userId routine = App.id user ->
       PetCareRoutines.petId routine <> CreateLogInput.petId input ->
       fails (createPetCareLog host input context) w FORBIDDEN).
Proof.
  intros H.
  assert (Hin : In feeding (petCareRoutines (store sampleWorld))) by now left.
  assert (Hneq : PetCareRoutines.petId feeding <> CreateLogInput.petId logForMithra)
    by discriminate.
  destruct (H sampleHost logForMithra alice {| App.id := "alice" |} sampleWorld
              "routine-1" feeding Logic.eq_refl Logic.eq_refl Hin
              Logic.eq_refl Logic.eq_refl Hneq) as [Hcode _].
  vm_compute in Hcode. discriminate Hcode.
Qed.

(** ** Vet visits *)

Lemma VetVisits_apply_nothing host id (r : VetVisits.row) :
  VetVisits.apply (visitUpdates host (visitUntouched id)) r = r.
Proof. now destruct r. Qed.

Lemma map_where_id {X} (c : X -> bool) (f : X -> X) (l : list X) :
  (forall r, f r = r) -> map (fun r => if c r then f r else r) l = l.
Proof.
  intros H. induction l as [|a l IH]; cbn; [reflexivity|].
  rewrite IH, H. now destruct (c a).
Qed.

(** C8. [updateVetVisit] never writes [createdAt]: after any run, be it a
    success or a failure, the column reads as before, row by row. Given no
    field to update it leaves every table as it was, whereas [updatePet]
    and [updatePetCareRoutine] given no field still move [updatedAt]. *)
Theorem updateVetVisit_keeps_createdAt
    (host : Host) (context : ActionAPIContext) (w : World) :
  (forall input,
     column_kept tblVetVisits VetVisits.createdAt (store w)
       (store (snd (updateVetVisit host input context w))))
  /\ (forall id,
        store (snd (updateVetVisit host (visitUntouched id) context w)) = store w)
  /\ store (snd (updatePet sampleHost (petUntouched "pet-1") alice sampleWorld))
     <> store sampleWorld
  /\ store (snd (updatePetCareRoutine sampleHost (routineUntouched "routine-1")
                   alice sampleWorld))
     <> store sampleWorld.
Proof.
  split; [|split; [|split]].
  - intros input. rewrite updateVetVisit_store.
    destruct (caller context) as [user|]; [|reflexivity].
    apply updateVetVisit_effect_frame.
  - intros id. rewrite updateVetVisit_store.
    destruct (caller context) as [user|]; [|reflexivity].
    unfold updateVetVisit_effect.
    destruct (filter _ (vetVisits (store w))) as [|v0 rest]; [reflexivity|].
    destruct (owned Pet (store w) _ (App.id user)); [|reflexivity].
    destruct (_ && _); [reflexivity|].
    rewrite map_where_id by apply VetVisits_apply_nothing.
    now destruct (store w).
  - vm_compute. discriminate.
  - vm_compute. discriminate.
Qed.

(** C9. A signed-in caller records a visit for a pet of theirs, the
    generated id being free. The visit is returned and appended to the
    visits. Without [visitDate] in the input its [visitDate] is the clock
    reading the handler takes while it builds the row, and [createdAt] is
    the very next reading of the same clock: they are as far apart as two
    consecutive readings are, so within any tolerance that bounds that
    step. With a [visitDate] (a Date, or a non-empty string such as an
    ISO-8601 one) the stored [visitDate] is that value, normalised by
    [parseDateInput]. *)
Theorem createVetVisit_visitDate
    (host : Host) (input : CreateVisitInput.t) (context : ActionAPIContext)
    (user : App.User) (w : World) :
  caller context = Some user ->
  owned Pet (store w) (CreateVisitInput.petId input) (App.id user) = true ->
  key_taken tblVetVisits (store w) (randomUUID host (uuidCalls w)) = false ->
  exists visit,
    fst (createVetVisit host input context w) = Returned visit
    /\ vetVisits (store (snd (createVetVisit host input context w)))
       = (vetVisits (store w) ++ [visit])%list
    /\ match CreateVisitInput.visitDate input with
       | None =>
           VetVisits.visitDate visit = DateMs (clock host (clockReads w))
           /\ VetVisits.createdAt visit = DateMs (clock host (S (clockReads w)))
           /\ forall tolerance : Z,
                (0 <= clock host (S (clockReads w)) - clock host (clockReads w)
                 <= tolerance)%Z ->
                exists visited created,
                  VetVisits.visitDate visit = DateMs visited
                  /\ VetVisits.createdAt visit = DateMs created
                  /\ (0 <= created - visited <= tolerance)%Z
       | Some v =>
           truthy_date v = true ->
           parseDateInput host (Some v) = Some (VetVisits.visitDate visit)
           /\ VetVisits.visitDate visit
              = match v with
                | DateObj d => d
                | DateStr s => Date_of_string host s
                end
       end.
Proof.
  intros Hu Hpet Hfree. unfold key_taken in Hfree. cbn in Hfree.
  pose proof (owned_pet_stored _ _ _ Hpet) as Hstored.
  unfold createVetVisit, bind.
  rewrite (@requireUser_signed_in _ _ Hu).
  destruct (@assertPetOwnership_found user _ _ Hpet) as (p & -> & _).
  unfold cryptoRandomUUID.
  destruct (CreateVisitInput.visitDate input) as [v|];
    [destruct (truthy_date v) eqn:Ht|];
    unfold bind, ret, newDate, columnDefaultNow, parseDateInput, insert;
    try rewrite Ht; cbn; rewrite Hfree; cbn; rewrite Hstored; cbn;
    eexists; (split; [reflexivity|]); (split; [reflexivity|]).
  - intros _. now split.
  - discriminate.
  - split; [reflexivity|]. split; [reflexivity|].
    intros tolerance Hstep. now eexists _, _.
Qed.

(** ** Updates look the current pet up *)

(** C10. The caller owns a routine (a visit) whose stored [petId] names no
    pet of theirs any more, as after a deletion that does not cascade.
    An update of that routine (that visit) that carries no [petId] still
    looks the stored pet up: it fails with NOT_FOUND and changes no table. *)
Theorem update_without_petId_checks_the_stored_pet
    (host : Host) (context : ActionAPIContext) (user : App.User) (w : World) :
  caller context = Some user ->
  (forall input routine,
     UpdateRoutineInput.petId input = None ->
     unique_keys tblPetCareRoutines (store w) ->
     In routine (petCareRoutines (store w)) ->
     PetCareRoutines.id routine = UpdateRoutineInput.id input ->
     PetCareRoutines.userId routine = App.id user ->
     owned Pet (store w) (PetCareRoutines.petId routine) (App.id user) = false ->
     fails (updatePetCareRoutine host input context) w NOT_FOUND)
  /\ (forall input visit,
        UpdateVisitInput.petId input = None ->
        unique_keys tblVetVisits (store w) ->
        In visit (vetVisits (store w)) ->
        VetVisits.id visit = UpdateVisitInput.id input ->
        VetVisits.userId visit = App.id user ->
        owned Pet (store w) (VetVisits.petId visit) (App.id user) = false ->
        fails (updateVetVisit host input context) w NOT_FOUND).
Proof.
  intros Hu. split.
  - intros input routine Hnone Hkeys Hin Hid Huid Hgone.
    unfold fails, updatePetCareRoutine, bind.
    rewrite (@requireUser_signed_in _ _ Hu).
    unfold assertRoutineOwnership, bind, select.
    cbn [rows tblPetCareRoutines]. rewrite where_is_routine.
    unfold is_routine. rewrite <- Hid, <- Huid.
    rewrite (@unique_keys_select _ PetCareRoutines.id PetCareRoutines.userId
               (petCareRoutines (store w)) routine Hkeys Hin).
    unfold ret. rewrite Hnone. cbn [nullish].
    rewrite Huid.
    rewrite (@assertPetOwnership_missing user) by exact Hgone.
    cbn. now split.
  - intros input visit Hnone Hkeys Hin Hid Huid Hgone.
    unfold fails, updateVetVisit, bind.
    rewrite (@requireUser_signed_in _ _ Hu).
    unfold select. cbn [rows tblVetVisits]. rewrite where_is_visit.
    unfold is_visit. rewrite <- Hid, <- Huid.
    rewrite (@unique_keys_select _ VetVisits.id VetVisits.userId
               (vetVisits (store w)) visit Hkeys Hin).
    rewrite Hnone. cbn [nullish]. unfold bind.
    rewrite Huid.
    rewrite (@assertPetOwnership_missing user) by exact Hgone.
    cbn. now split.
Qed.

(** ** The handlers at work on the sample installation *)

(** [deletePet] does not cascade, and the store does not let a pet go
    that is still named: Bruno has routines, a log and a visit, so the
    delete is refused and everything stays. *)
Example deletePet_with_dependents_is_refused :
  fst (deletePet {| IdInput.id := "pet-1" |} alice sampleWorld)
  = Thrown (StorageError "FOREIGN KEY constraint failed")
  /\ store (snd (deletePet {| IdInput.id := "pet-1" |} alice sampleWorld))
     = store sampleWorld.
Proof. split; reflexivity. Qed.

Lemma sampleDb_routine_keys : unique_keys tblPetCareRoutines sampleDb.
Proof.
  unfold unique_keys. cbn.
  repeat (apply NoDup_cons; [cbn; intuition discriminate|]). apply NoDup_nil.
Defined.

Lemma sampleDb_visit_keys : unique_keys tblVetVisits sampleDb.
Proof.
  unfold unique_keys. cbn.
  repeat (apply NoDup_cons; [cbn; intuition discriminate|]). apply NoDup_nil.
Defined.

(** C1 at work: Bob tries to rename Alice's pet. *)
Lemma foreign_or_missing_target_is_NOT_FOUND_witness :
  caller bob = Some {| App.id := "bob" |}
  /\ In (Pet, "pet-1") (targets (UpdatePet renameBruno))
  /\ owned Pet (store sampleWorld) "pet-1" "bob" = false
  /\ fails (server sampleHost (UpdatePet renameBruno) bob) sampleWorld NOT_FOUND.
Proof.
  split; [reflexivity|]. split; [now left|]. split; [reflexivity|].
  apply (@foreign_or_missing_target_is_NOT_FOUND sampleHost
           (UpdatePet renameBruno) bob {| App.id := "bob" |} sampleWorld
           Pet "pet-1");
    [reflexivity | now left | reflexivity].
Defined.

(** C2 at work: Alice logs care for Coco under Bruno's routine. *)
Lemma routine_of_another_pet_is_FORBIDDEN_witness :
  owned Pet (store sampleWorld) "pet-3" "alice" = true
  /\ In feeding (petCareRoutines (store sampleWorld))
  /\ PetCareRoutines.petId feeding <> CreateLogInput.petId logForCoco
  /\ fails (createPetCareLog sampleHost logForCoco alice) sampleWorld FORBIDDEN.
Proof.
  split; [reflexivity|]. split; [now left|]. split; [discriminate|].
  apply (@routine_of_another_pet_is_FORBIDDEN sampleHost logForCoco alice
           {| App.id := "alice" |} sampleWorld "routine-1" feeding);
    [ reflexivity | reflexivity | reflexivity | reflexivity
    | exact sampleDb_routine_keys | now left | reflexivity | reflexivity
    | discriminate ].
Defined.


(** C5 at work: Alice archives the walk she had archived before. *)
Lemma archivePetCareRoutine_idempotent_witness :
  In walking (petCareRoutines (store sampleWorld))
  /\ PetCareRoutines.isActive walking = false
  /\ fst (archivePetCareRoutine sampleHost {| IdInput.id := "routine-2" |}
            alice sampleWorld) = Returned tt
  /\ In (archived (DateMs 1700000000000) walking)
        (petCareRoutines
           (store (snd (archivePetCareRoutine sampleHost
                          {| IdInput.id := "routine-2" |} alice sampleWorld)))).
Proof.
  split; [right; now left|]. split; [reflexivity|].
  destruct (@archivePetCareRoutine_idempotent sampleHost
              {| IdInput.id := "routine-2" |} alice {| App.id := "alice" |}
              sampleWorld walking Logic.eq_refl (or_intror (or_introl Logic.eq_refl))
              Logic.eq_refl Logic.eq_refl)
    as (Hok & _ & Hin & _).
  split; [exact Hok | exact Hin].
Defined.

(** C6 at work: nobody is signed in. *)
Lemma unresolved_caller_is_UNAUTHORIZED_witness :
  caller anonymous = None
  /\ server sampleHost ListPets anonymous sampleWorld
     = (Thrown (ActionError UNAUTHORIZED
                  "You must be signed in to perform this action."),
        sampleWorld).
Proof.
  split; [reflexivity|].
  exact (@unresolved_caller_is_UNAUTHORIZED sampleHost ListPets anonymous
           sampleWorld Logic.eq_refl).
Defined.

(** C9 at work: a visit for Bruno, today. *)
Lemma createVetVisit_visitDate_witness :
  key_taken tblVetVisits (store sampleWorld) (randomUUID sampleHost 0) = false
  /\ exists visit,
       fst (createVetVisit sampleHost visitToday alice sampleWorld) = Returned visit
       /\ VetVisits.visitDate visit = DateMs 1700000000000
       /\ VetVisits.createdAt visit = DateMs 1700000001000.
Proof.
  split; [reflexivity|].
  destruct (@createVetVisit_visitDate sampleHost visitToday alice
              {| App.id := "alice" |} sampleWorld
              Logic.eq_refl Logic.eq_refl Logic.eq_refl)
    as (visit & Hrun & _ & Hdate & Hcreated & _).
  exists visit. split; [exact Hrun|]. split; [exact Hdate | exact Hcreated].
Defined.

(** C7 at work: Alice deletes the feeding log, the only one stored. *)
Lemma care_logs_are_immutable_witness :
  owned CareLog (store sampleWorld) "log-1" "alice" = true
  /\ fst (server sampleHost (DeletePetCareLog {| IdInput.id := "log-1" |}) alice
            sampleWorld)
     = Returned Success
  /\ petCareLogs
       (store (snd (server sampleHost
                      (DeletePetCareLog {| IdInput.id := "log-1" |}) alice
                      sampleWorld)))
     = []
  /\ owned CareLog
       (store (snd (server sampleHost
                      (DeletePetCareLog {| IdInput.id := "log-1" |}) alice
                      sampleWorld)))
       "log-1" "alice" = false.
Proof.
  split; [reflexivity|].
  destruct (proj2 (care_logs_are_immutable sampleHost
                     (DeletePetCareLog {| IdInput.id := "log-1" |}) alice
                     sampleWorld)
              {| App.id := "alice" |} Logic.eq_refl Logic.eq_refl)
    as (Hok & Hlogs & Hgone).
  split; [exact Hok|]. split; [exact Hlogs | exact Hgone].
Defined.

(** C10 at work: Bruno is gone; Alice edits his routine and his visit. *)
Lemma update_without_petId_checks_the_stored_pet_witness :
  owned Pet (store orphanedWorld) "pet-1" "alice" = false
  /\ fails (updatePetCareRoutine sampleHost (routineUntouched "routine-1") alice)
           orphanedWorld NOT_FOUND
  /\ fails (updateVetVisit sampleHost (visitUntouched "visit-1") alice)
           orphanedWorld NOT_FOUND.
Proof.
  split; [reflexivity|].
  destruct (@update_without_petId_checks_the_stored_pet sampleHost alice
              {| App.id := "alice" |} orphanedWorld Logic.eq_refl)
    as [Hroutine Hvisit].
  split.
  - apply (Hroutine (routineUntouched "routine-1") feeding);
      [ reflexivity | exact sampleDb_routine_keys | now left
      | reflexivity | reflexivity | reflexivity ].
  - apply (Hvisit (visitUntouched "visit-1") checkup);
      [ reflexivity | exact sampleDb_visit_keys | now left
      | reflexivity | reflexivity | reflexivity ].
Defined.

(** The scenario of the specification runs to the end and lists no log;
    the pet and the routine it created are stored. *)
Example scenario_lists_no_log :
  fst (scenario emptyWorld) = Returned {| items := []; total := 0 |}
  /\ map Pets.name (pets (store (snd (scenario emptyWorld)))) = ["Bruno"]
  /\ map PetCareRoutines.name (petCareRoutines (store (snd (scenario emptyWorld))))
     = ["Morning feeding"]
  /\ petCareLogs (store (snd (scenario emptyWorld))) = [].
Proof. vm_compute. repeat split. Qed.

(** ** The primary keys hold in every store the handlers leave *)

Lemma NoDup_map_snoc {X} (k : X -> string) (l : list X) (r : X) :
  NoDup (map k l) ->
  existsb (fun x => String.eqb (k x) (k r)) l = false ->
  NoDup (map k (l ++ [r])).
Proof.
  intros Hnd Hfree. rewrite map_app. cbn.
  apply NoDup_app; [exact Hnd | apply NoDup_cons; [intros [] | apply NoDup_nil] |].
  intros a Ha [<-|[]]. apply in_map_iff in Ha as (x & Hx & Hin).
  apply (existsb_false_In _ _ _ Hfree) in Hin.
  rewrite Hx, String.eqb_refl in Hin. discriminate.
Qed.

Lemma NoDup_map_filter {X} (k : X -> string) (c : X -> bool) (l : list X) :
  NoDup (map k l) -> NoDup (map k (filter c l)).
Proof.
  induction l as [|a l IH]; cbn; [trivial|].
  intros Hnd. apply NoDup_cons_iff in Hnd as [Hfresh Hnd].
  destruct (c a); cbn; [|now apply IH].
  apply NoDup_cons; [|now apply IH].
  intros Hin. apply Hfresh. apply in_map_iff in Hin as (x & Hx & Hin).
  apply filter_In in Hin as [Hin _]. rewrite <- Hx. now apply in_map.
Qed.

Lemma map_key_where {X} (k : X -> string) (c : X -> bool) (f : X -> X)
    (l : list X) :
  (forall r, k (f r) = k r) ->
  map k (map (fun r => if c r then f r else r) l) = map k l.
Proof.
  intros H. rewrite map_map. apply map_ext. intros r.
  destruct (c r); [apply H | reflexivity].
Qed.

Lemma keys_stay_unique_refl (d : Db) : keys_stay_unique d d.
Proof. intros H. exact H. Qed.

Lemma keys_stay_unique_trans (a b c : Db) :
  keys_stay_unique a b -> keys_stay_unique b c -> keys_stay_unique a c.
Proof. unfold keys_stay_unique. auto. Qed.

Ltac keys_of_insert :=
  intros w (Hp & Hr & Hl & Hv); unfold insert;
  match goal with |- context [existsb ?c ?l] => destruct (existsb c l) eqn:Hfree end;
  cbn; [now repeat split|];
  try match goal with
      | |- context [if negb ?b then _ else _] =>
          destruct b; cbn; [|now repeat split]
      end;
  unfold keys_unique, unique_keys; cbn; repeat split; try assumption;
  now apply NoDup_map_snoc.

Lemma insert_pet_keys r : keeps keys_stay_unique (insert tblPets r).
Proof. keys_of_insert. Qed.

Lemma insert_routine_keys r : keeps keys_stay_unique (insert tblPetCareRoutines r).
Proof. keys_of_insert. Qed.

Lemma insert_log_keys r : keeps keys_stay_unique (insert tblPetCareLogs r).
Proof. keys_of_insert. Qed.

Lemma insert_visit_keys r : keeps keys_stay_unique (insert tblVetVisits r).
Proof. keys_of_insert. Qed.

Ltac keys_of_update :=
  intros w (Hp & Hr & Hl & Hv); unfold update;
  repeat match goal with |- context [if ?b then _ else _] => destruct b end;
  cbn; try (now repeat split);
  unfold keys_unique, unique_keys; cbn; repeat split; try assumption;
  rewrite map_key_where; [assumption | reflexivity].

Lemma update_pet_keys host empty rekeyed u c :
  keeps keys_stay_unique (update host tblPets empty rekeyed (Pets.apply u) c).
Proof. keys_of_update. Qed.

Lemma update_routine_keys host empty rekeyed u c :
  keeps keys_stay_unique
    (update host tblPetCareRoutines empty rekeyed (PetCareRoutines.apply u) c).
Proof. keys_of_update. Qed.

Lemma update_visit_keys host empty rekeyed u c :
  keeps keys_stay_unique
    (update host tblVetVisits empty rekeyed (VetVisits.apply u) c).
Proof. keys_of_update. Qed.

Ltac keys_of_delete :=
  intros w (Hp & Hr & Hl & Hv); unfold delete;
  match goal with |- context [if ?b then _ else _] => destruct b end;
  cbn; try (now repeat split);
  unfold keys_unique, unique_keys; cbn; repeat split; try assumption;
  now apply NoDup_map_filter.

Lemma delete_pet_keys c : keeps keys_stay_unique (delete tblPets c).
Proof. keys_of_delete. Qed.

Lemma delete_log_keys c : keeps keys_stay_unique (delete tblPetCareLogs c).
Proof. keys_of_delete. Qed.

Lemma delete_visit_keys c : keeps keys_stay_unique (delete tblVetVisits c).
Proof. keys_of_delete. Qed.

Ltac keeps_keys_step :=
  first
    [ apply keeps_bind; [exact keys_stay_unique_trans | | intros ?]
    | apply keeps_ret; exact keys_stay_unique_refl
    | apply keeps_throw; exact keys_stay_unique_refl
    | apply keeps_requireUser; exact keys_stay_unique_refl
    | apply keeps_newDate; exact keys_stay_unique_refl
    | apply keeps_cryptoRandomUUID; exact keys_stay_unique_refl
    | apply keeps_columnDefaultNow; exact keys_stay_unique_refl
    | apply keeps_select; exact keys_stay_unique_refl
    | apply insert_pet_keys | apply insert_routine_keys
    | apply insert_log_keys | apply insert_visit_keys
    | apply update_pet_keys | apply update_routine_keys
    | apply update_visit_keys
    | apply delete_pet_keys | apply delete_log_keys | apply delete_visit_keys
    | match goal with
      | |- keeps _ (match ?x with _ => _ end) => destruct x
      | |- keeps _ (if ?x then _ else _) => destruct x
      end ].

(** No request breaks a primary key: from a store whose ids are unique
    every handler leaves a store whose ids are unique. *)
Lemma server_keeps_keys_unique host request context :
  keeps keys_stay_unique (server host request context).
Proof.
  destruct request; cbn [server]; unfold respond;
    [ unfold createPet | unfold updatePet | unfold deletePet | unfold listPets
    | unfold createPetCareRoutine | unfold updatePetCareRoutine
    | unfold archivePetCareRoutine | unfold listPetCareRoutines
    | unfold createPetCareLog | unfold listPetCareLogs
    | unfold deletePetCareLog | unfold createVetVisit | unfold updateVetVisit
    | unfold deleteVetVisit | unfold listVetVisits ];
    unfold assertPetOwnership, assertRoutineOwnership;
    repeat keeps_keys_step.
Qed.

Lemma sampleDb_keys_unique : keys_unique sampleDb.
Proof.
  unfold keys_unique, unique_keys. cbn.
  repeat split;
    repeat (apply NoDup_cons; [cbn; intuition discriminate|]); apply NoDup_nil.
Qed.

(** ** Partial updates do write the fields they are given *)

Lemma owned_pet_In (d : Db) (r : Pets.row) :
  In r (pets d) -> owned Pet d (Pets.id r) (Pets.userId r) = true.
Proof.
  intros H. cbn. apply existsb_exists. exists r. split; [exact H|].
  now rewrite !String.eqb_refl.
Qed.

(** X15. On a pet of the caller [updatePet] succeeds and stores the pet
    with the SET clause applied; no pet is added or dropped. Each field
    present in the input holds the input's value afterwards: the name,
    species, breed, gender, colour, weight and notes as given, the date of
    birth as [parseDateInput] reads it (a date it reads as nothing leaves
    the stored one). [updatedAt] is the clock reading of the run; id,
    owner and [createdAt] stay. *)
Theorem updatePet_writes_present_fields
    (host : Host) (input : UpdatePetInput.t) (context : ActionAPIContext)
    (user : App.User) (w : World) (pet : Pets.row) :
  caller context = Some user ->
  In pet (pets (store w)) ->
  Pets.id pet = UpdatePetInput.id input ->
  Pets.userId pet = App.id user ->
  let stored :=
    Pets.apply (petUpdates host input (DateMs (clock host (clockReads w)))) pet in
  fst (updatePet host input context w) = Returned tt
  /\ In stored (pets (store (snd (updatePet host input context w))))
  /\ length (pets (store (snd (updatePet host input context w))))
     = length (pets (store w))
  /\ (forall v, UpdatePetInput.name input = Some v -> Pets.name stored = v)
  /\ (forall v, UpdatePetInput.species input = Some v ->
        Pets.species stored = Some v)
  /\ (forall v, UpdatePetInput.breed input = Some v ->
        Pets.breed stored = Some v)
  /\ (forall v, UpdatePetInput.gender input = Some v ->
        Pets.gender stored = Some v)
  /\ (forall v, UpdatePetInput.color input = Some v ->
        Pets.color stored = Some v)
  /\ (forall v, UpdatePetInput.weightKg input = Some v ->
        Pets.weightKg stored = Some v)
  /\ (forall v, UpdatePetInput.notes input = Some v ->
        Pets.notes stored = Some v)
  /\ (forall v, UpdatePetInput.dateOfBirth input = Some v ->
        Pets.dateOfBirth stored
        = match parseDateInput host (Some v) with
          | Some d => Some d
          | None => Pets.dateOfBirth pet
          end)
  /\ Pets.updatedAt stored = DateMs (clock host (clockReads w))
  /\ Pets.id stored = Pets.id pet
  /\ Pets.userId stored = Pets.userId pet
  /\ Pets.createdAt stored = Pets.createdAt pet.
Proof.
  intros Hu Hin Hid Huid stored.
  pose proof (owned_pet_In _ _ Hin) as Ho. rewrite Hid, Huid in Ho.
  split; [|split; [|split]].
  - unfold updatePet, bind. rewrite (@requireUser_signed_in _ _ Hu).
    destruct (@assertPetOwnership_found user _ _ Ho) as (p & -> & _).
    unfold newDate, update.
    rewrite Pets_no_values_updatedAt by discriminate.
    now rewrite andb_false_r.
  - rewrite updatePet_store, Hu. unfold updatePet_effect. rewrite Ho.
    cbn [put tblPets pets]. apply in_map_iff. exists pet. split; [|exact Hin].
    unfold is_pet. now rewrite Hid, Huid, !String.eqb_refl.
  - rewrite updatePet_store, Hu. unfold updatePet_effect. rewrite Ho.
    cbn [put tblPets pets]. apply length_map.
  - subst stored.
    cbn [Pets.apply petUpdates Pets.name Pets.species Pets.breed Pets.gender
         Pets.color Pets.weightKg Pets.notes Pets.dateOfBirth Pets.updatedAt
         Pets.id Pets.userId Pets.createdAt Pets.set_name Pets.set_species
         Pets.set_breed Pets.set_gender Pets.set_color Pets.set_weightKg
         Pets.set_notes Pets.set_dateOfBirth Pets.set_updatedAt assign].
    repeat split; try (intros v ->; reflexivity).
Qed.

(** The same for a visit of the caller whose pet is still theirs, when the
    input names a clinic: the row is stored with the new clinic. *)
Lemma updateVetVisit_writes_present_fields
    (host : Host) (input : UpdateVisitInput.t) (context : ActionAPIContext)
    (user : App.User) (w : World) (visit : VetVisits.row) (clinic : string) :
  caller context = Some user ->
  unique_keys tblVetVisits (store w) ->
  In visit (vetVisits (store w)) ->
  VetVisits.id visit = UpdateVisitInput.id input ->
  VetVisits.userId visit = App.id user ->
  owned Pet (store w)
    (nullish (UpdateVisitInput.petId input) (VetVisits.petId visit))
    (App.id user) = true ->
  UpdateVisitInput.clinicName input = Some clinic ->
  In (VetVisits.apply (visitUpdates host input) visit)
     (vetVisits (store (snd (updateVetVisit host input context w))))
  /\ VetVisits.clinicName (VetVisits.apply (visitUpdates host input) visit)
     = Some clinic.
Proof.
  intros Hu Hkeys Hin Hid Huid Hpet Hclinic. split.
  - rewrite updateVetVisit_store, Hu. unfold updateVetVisit_effect.
    unfold is_visit at 1. rewrite <- Hid, <- Huid.
    rewrite (@unique_keys_select _ VetVisits.id VetVisits.userId
               (vetVisits (store w)) visit Hkeys Hin).
    rewrite Huid, Hpet.
    replace (VetVisits.no_values (visitUpdates host input)) with false.
    + rewrite andb_false_r. cbn [put tblVetVisits vetVisits].
      apply in_map_iff. exists visit. split; [|exact Hin].
      unfold is_visit. now rewrite Huid, !String.eqb_refl.
    + unfold VetVisits.no_values, visitUpdates. cbn. rewrite Hclinic.
      destruct (UpdateVisitInput.petId input);
        destruct (parseDateInput host (UpdateVisitInput.visitDate input));
        reflexivity.
  - cbn. now rewrite Hclinic.
Qed.

(** ** Creating, listing and deleting: the remaining handlers *)

(** A key no row carries is owned by nobody. *)
Lemma free_key_not_owned {X} (k u : X -> string) (l : list X) (id uid : string) :
  existsb (fun x => String.eqb (k x) id) l = false ->
  existsb (fun x => String.eqb (k x) id && String.eqb (u x) uid) l = false.
Proof.
  intros H. apply existsb_none. intros x Hx.
  now rewrite (existsb_false_In _ _ _ H Hx).
Qed.

Lemma eqb_differs (a b : string) : a <> b -> String.eqb a b = false.
Proof. intros H. now apply String.eqb_neq. Qed.

(** X1. A signed-in caller creates a pet, the generated id being free:
    the pet is returned and appended to the pets, the other tables stay.
    It carries the caller as owner, the input's name, the parsed date of
    birth, and one clock reading as both [createdAt] and [updatedAt]. The
    ownership lookup then finds it for the caller and for nobody else. *)
Theorem createPet_stores_the_pet
    (host : Host) (input : CreatePetInput.t) (context : ActionAPIContext)
    (user : App.User) (w : World) :
  caller context = Some user ->
  key_taken tblPets (store w) (randomUUID host (uuidCalls w)) = false ->
  exists pet,
    fst (createPet host input context w) = Returned pet
    /\ store (snd (createPet host input context w))
       = put tblPets (pets (store w) ++ [pet])%list (store w)
    /\ Pets.id pet = randomUUID host (uuidCalls w)
    /\ Pets.userId pet = App.id user
    /\ Pets.name pet = CreatePetInput.name input
    /\ Pets.dateOfBirth pet = parseDateInput host (CreatePetInput.dateOfBirth input)
    /\ Pets.createdAt pet = DateMs (clock host (clockReads w))
    /\ Pets.updatedAt pet = Pets.createdAt pet
    /\ owned Pet (store (snd (createPet host input context w)))
         (Pets.id pet) (App.id user) = true
    /\ forall other, other <> App.id user ->
         owned Pet (store (snd (createPet host input context w)))
           (Pets.id pet) other = false.
Proof.
  intros Hu Hfree. unfold key_taken in Hfree. cbn [rows primaryKey tblPets] in Hfree.
  unfold createPet, bind. rewrite (@requireUser_signed_in _ _ Hu).
  unfold newDate, cryptoRandomUUID, insert, ret.
  cbn [fst snd store clockReads uuidCalls rows primaryKey references_hold
       tblPets Pets.id negb].
  rewrite Hfree. cbn [fst snd store sent].
  eexists. split; [reflexivity|]. split; [reflexivity|].
  cbn [Pets.id Pets.userId Pets.name Pets.dateOfBirth Pets.createdAt Pets.updatedAt].
  repeat (split; [reflexivity|]). split.
  - cbn [owned put tblPets pets]. rewrite existsb_app. cbn.
    rewrite !String.eqb_refl. cbn. apply orb_true_r.
  - intros other Hother. cbn [owned put tblPets pets]. rewrite existsb_app.
    rewrite (free_key_not_owned Pets.id Pets.userId _ _ other Hfree). cbn.
    rewrite (eqb_differs (not_eq_sym Hother)). now rewrite andb_false_r.
Qed.

Lemma In_where_two {X} (a b : X -> string) (x y : string) (l : list X) (r : X) :
  In r (filter (Sql.and [Sql.eq a x; Sql.eq b y]) l)
  <-> In r l /\ a r = x /\ b r = y.
Proof.
  rewrite filter_In, Sql_and_id_userId, andb_true_iff, !String.eqb_eq. tauto.
Qed.

(** X2. Whenever [listPets] returns for a signed-in caller, it has
    written nothing and its listing holds exactly the stored pets whose
    owner is the caller, no pet of anybody else and none left out, each as
    often as it is stored and in the order of the table; [total] counts
    them. *)
Theorem listPets_returns_the_callers_pets
    (context : ActionAPIContext) (user : App.User) (w : World)
    (data : Listing Pets.row) :
  caller context = Some user ->
  fst (listPets context w) = Returned data ->
  items data
  = filter (fun r => String.eqb (Pets.userId r) (App.id user)) (pets (store w))
  /\ (forall r, In r (items data) <->
                In r (pets (store w)) /\ Pets.userId r = App.id user)
  /\ total data = length (items data)
  /\ store (snd (listPets context w)) = store w.
Proof.
  intros Hu. unfold listPets, bind. rewrite (@requireUser_signed_in _ _ Hu).
  unfold select, ret. cbn [fst snd store sent rows tblPets].
  intros [= <-]. cbn [items total].
  split; [reflexivity|]. split; [|split; reflexivity].
  intros r. rewrite filter_In. unfold Sql.eq, sql_eqb, SqlEq_text.
  now rewrite String.eqb_eq.
Qed.

(** X3. For a signed-in caller and a pet of theirs, [listPetCareLogs]
    succeeds without writing and returns exactly the stored logs that
    carry this [petId] and the caller as owner; [total] counts them. *)
Theorem listPetCareLogs_returns_the_pets_logs
    (input : PetIdInput.t) (context : ActionAPIContext) (user : App.User)
    (w : World) :
  caller context = Some user ->
  owned Pet (store w) (PetIdInput.petId input) (App.id user) = true ->
  exists logs,
    fst (listPetCareLogs input context w)
    = Returned {| items := logs; total := length logs |}
    /\ store (snd (listPetCareLogs input context w)) = store w
    /\ forall r, In r logs <->
                 In r (petCareLogs (store w))
                 /\ PetCareLogs.petId r = PetIdInput.petId input
                 /\ PetCareLogs.userId r = App.id user.
Proof.
  intros Hu Hpet. unfold listPetCareLogs, bind.
  rewrite (@requireUser_signed_in _ _ Hu).
  destruct (@assertPetOwnership_found user _ _ Hpet) as (p & -> & _).
  unfold select, ret. cbn [fst snd store sent rows tblPetCareLogs].
  eexists. split; [reflexivity|]. split; [reflexivity|].
  intros r. apply In_where_two.
Qed.

(** X4. For a signed-in caller and a pet of theirs, [listVetVisits]
    succeeds without writing and returns exactly the stored visits that
    carry this [petId] and the caller as owner; [total] counts them. *)
Theorem listVetVisits_returns_the_pets_visits
    (input : PetIdInput.t) (context : ActionAPIContext) (user : App.User)
    (w : World) :
  caller context = Some user ->
  owned Pet (store w) (PetIdInput.petId input) (App.id user) = true ->
  exists visits,
    fst (listVetVisits input context w)
    = Returned {| items := visits; total := length visits |}
    /\ store (snd (listVetVisits input context w)) = store w
    /\ forall r, In r visits <->
                 In r (vetVisits (store w))
                 /\ VetVisits.petId r = PetIdInput.petId input
                 /\ VetVisits.userId r = App.id user.
Proof.
  intros Hu Hpet. unfold listVetVisits, bind.
  rewrite (@requireUser_signed_in _ _ Hu).
  destruct (@assertPetOwnership_found user _ _ Hpet) as (p & -> & _).
  unfold select, ret. cbn [fst snd store sent rows tblVetVisits].
  eexists. split; [reflexivity|]. split; [reflexivity|].
  intros r. apply In_where_two.
Qed.

Lemma existsb_and_const {X} (c f : X -> bool) (b : bool) (l : list X) :
  (forall r, c r = true -> f r = b) ->
  existsb (fun r => c r && f r) l = existsb c l && b.
Proof.
  intros H. induction l as [|a l IH]; cbn; [reflexivity|].
  rewrite IH. destruct (c a) eqn:Hc; cbn; [|reflexivity].
  rewrite (H a Hc). now destruct b, (existsb c l).
Qed.

(** The check the store makes before it deletes a pet of the caller: is
    the pet still named by a routine, a log or a visit? *)
Lemma delete_pet_referenced (d : Db) (id uid : string) :
  owned Pet d id uid = true ->
  existsb (fun r => Sql.and [Sql.eq Pets.id id; Sql.eq Pets.userId uid] r
                    && pet_in_use d (Pets.id r)) (pets d)
  = pet_in_use d id.
Proof.
  intros H. rewrite (@existsb_and_const _ _ _ (pet_in_use d id)).
  - replace (existsb (Sql.and [Sql.eq Pets.id id; Sql.eq Pets.userId uid]) (pets d))
      with true; [reflexivity|].
    symmetry. cbn in H. apply existsb_exists in H as (p & Hin & Hp).
    apply existsb_exists. exists p. split; [exact Hin|].
    now rewrite Sql_and_id_userId.
  - intros r Hr. rewrite Sql_and_id_userId in Hr.
    apply andb_true_iff in Hr as [Hr _]. apply String.eqb_eq in Hr.
    now rewrite Hr.
Qed.

(** One run of [deletePet] on a pet of the caller, in full: refused while
    the pet is named, a delete of its rows otherwise. *)
Lemma deletePet_run (input : IdInput.t) (context : ActionAPIContext)
    (user : App.User) (w : World) :
  caller context = Some user ->
  owned Pet (store w) (IdInput.id input) (App.id user) = true ->
  deletePet input context w
  = if pet_in_use (store w) (IdInput.id input)
    then (Thrown (StorageError "FOREIGN KEY constraint failed"),
          sent (store w) (sent (store w) w))
    else (Returned tt,
          sent (put tblPets
                  (filter (fun r => negb (is_pet (IdInput.id input)
                                            (App.id user) r))
                          (pets (store w))) (store w))
               (sent (store w) w)).
Proof.
  intros Hu Hpet. unfold deletePet, bind. rewrite (@requireUser_signed_in _ _ Hu).
  destruct (@assertPetOwnership_found user _ _ Hpet) as (p & -> & _).
  unfold delete. cbn [rows referenced tblPets store sent].
  rewrite (delete_pet_referenced _ _ _ Hpet).
  now rewrite filter_where_two.
Qed.

(** X5. A signed-in caller deletes a pet of theirs. While a routine, a
    log or a visit names the pet the store refuses: [deletePet] throws the
    foreign-key error and every table is as before, the pet included.
    Otherwise [deletePet] succeeds and drops from the pets exactly the
    rows with this id and this owner; routines, logs and visits are as
    before. Afterwards the lookup no longer finds the pet, so deleting it
    again fails with NOT_FOUND and writes nothing. *)
Theorem deletePet_removes_only_the_pet
    (input : IdInput.t) (context : ActionAPIContext) (user : App.User)
    (w : World) :
  caller context = Some user ->
  owned Pet (store w) (IdInput.id input) (App.id user) = true ->
  let w' := snd (deletePet input context w) in
  (pet_in_use (store w) (IdInput.id input) = true ->
     fst (deletePet input context w)
     = Thrown (StorageError "FOREIGN KEY constraint failed")
     /\ store w' = store w
     /\ owned Pet (store w') (IdInput.id input) (App.id user) = true)
  /\ (pet_in_use (store w) (IdInput.id input) = false ->
        fst (deletePet input context w) = Returned tt
        /\ pets (store w')
           = filter (fun r => negb (is_pet (IdInput.id input) (App.id user) r))
                    (pets (store w))
        /\ petCareRoutines (store w') = petCareRoutines (store w)
        /\ petCareLogs (store w') = petCareLogs (store w)
        /\ vetVisits (store w') = vetVisits (store w)
        /\ owned Pet (store w') (IdInput.id input) (App.id user) = false
        /\ fails (deletePet input context) w' NOT_FOUND).
Proof.
  intros Hu Hpet w'.
  pose proof (@deletePet_run input context user w Hu Hpet) as Hrun.
  split; intros Huse; rewrite Huse in Hrun.
  - subst w'. rewrite Hrun. cbn [fst snd store sent].
    split; [reflexivity|]. split; [reflexivity|]. exact Hpet.
  - assert (Hgone : owned Pet (store w') (IdInput.id input) (App.id user) = false).
    { subst w'. rewrite Hrun. cbn [snd store sent owned put tblPets pets].
      apply existsb_after_delete. reflexivity. }
    subst w'. split; [now rewrite Hrun|].
    repeat (split; [now rewrite Hrun|]). split; [exact Hgone|].
    exact (@deletePet_not_owned context user Hu input _ Hgone).
Qed.

Lemma select_found_visit (id uid : string) (w : World) :
  owned VetVisit (store w) id uid = true ->
  exists visit rest,
    filter (Sql.and [Sql.eq VetVisits.id id; Sql.eq VetVisits.userId uid])
           (vetVisits (store w)) = visit :: rest.
Proof.
  intros H. destruct (filter_some _ _ H) as (r & rest & Hf & _).
  exists r, rest. rewrite <- Hf. apply filter_ext. intros a.
  apply Sql_and_id_userId.
Qed.

(** X6. A signed-in caller deletes a care log of theirs:
    [deletePetCareLog] succeeds and drops from the logs exactly the rows
    with this id and this owner; pets, routines and visits are as before.
    Afterwards the log is not found: deleting it again fails with
    NOT_FOUND and writes nothing. *)
Theorem deletePetCareLog_removes_only_the_log
    (input : IdInput.t) (context : ActionAPIContext) (user : App.User)
    (w : World) :
  caller context = Some user ->
  owned CareLog (store w) (IdInput.id input) (App.id user) = true ->
  let w' := snd (deletePetCareLog input context w) in
  fst (deletePetCareLog input context w) = Returned tt
  /\ petCareLogs (store w')
     = filter (fun r => negb (is_log (IdInput.id input) (App.id user) r))
              (petCareLogs (store w))
  /\ pets (store w') = pets (store w)
  /\ petCareRoutines (store w') = petCareRoutines (store w)
  /\ vetVisits (store w') = vetVisits (store w)
  /\ owned CareLog (store w') (IdInput.id input) (App.id user) = false
  /\ fails (deletePetCareLog input context) w' NOT_FOUND.
Proof.
  intros Hu Hlog w'.
  pose proof (@deletePetCareLog_run input context user w Hu Hlog) as Hrun.
  assert (Hgone : owned CareLog (store w') (IdInput.id input) (App.id user) = false).
  { subst w'. rewrite Hrun.
    cbn [snd store sent owned put tblPetCareLogs petCareLogs].
    apply existsb_after_delete. reflexivity. }
  subst w'. split; [now rewrite Hrun|].
  repeat (split; [now rewrite Hrun|]). split; [exact Hgone|].
  exact (@deletePetCareLog_not_owned context user Hu input _ Hgone).
Qed.

(** X7. A signed-in caller deletes a vet visit of theirs:
    [deleteVetVisit] succeeds and drops from the visits exactly the rows
    with this id and this owner; pets, routines and logs are as before.
    Afterwards the visit is not found: deleting it again fails with
    NOT_FOUND and writes nothing. *)
Theorem deleteVetVisit_removes_only_the_visit
    (input : IdInput.t) (context : ActionAPIContext) (user : App.User)
    (w : World) :
  caller context = Some user ->
  owned VetVisit (store w) (IdInput.id input) (App.id user) = true ->
  let w' := snd (deleteVetVisit input context w) in
  fst (deleteVetVisit input context w) = Returned tt
  /\ vetVisits (store w')
     = filter (fun r => negb (is_visit (IdInput.id input) (App.id user) r))
              (vetVisits (store w))
  /\ pets (store w') = pets (store w)
  /\ petCareRoutines (store w') = petCareRoutines (store w)
  /\ petCareLogs (store w') = petCareLogs (store w)
  /\ owned VetVisit (store w') (IdInput.id input) (App.id user) = false
  /\ fails (deleteVetVisit input context) w' NOT_FOUND.
Proof.
  intros Hu Hvisit w'.
  assert (Hrun : deleteVetVisit input context w
                 = (Returned tt,
                    sent (put tblVetVisits
                            (filter (fun r => negb (is_visit (IdInput.id input)
                                                      (App.id user) r))
                                    (vetVisits (store w))) (store w))
                         (sent (store w) w))).
  { unfold deleteVetVisit, bind. rewrite (@requireUser_signed_in _ _ Hu).
    unfold select. cbn [rows tblVetVisits].
    destruct (select_found_visit _ _ w Hvisit) as (l & rest & ->).
    rewrite delete_visits_run. cbn [store sent].
    now rewrite filter_where_two. }
  assert (Hgone : owned VetVisit (store w') (IdInput.id input) (App.id user) = false).
  { subst w'. rewrite Hrun.
    cbn [snd store sent owned put tblVetVisits vetVisits].
    apply existsb_after_delete. reflexivity. }
  subst w'. split; [now rewrite Hrun|].
  repeat (split; [now rewrite Hrun|]). split; [exact Hgone|].
  exact (@deleteVetVisit_not_owned context user Hu input _ Hgone).
Qed.

(** X8. A signed-in caller creates a routine for a pet of theirs, the
    generated id being free: the routine is returned and appended to the
    routines, the other tables stay. It is active, carries the caller as
    owner and the input's pet and name, [daysOfWeek] serialised by
    [JSON.stringify] (nothing when absent), and one clock reading as both
    [createdAt] and [updatedAt]. A default [listPetCareRoutines] of the
    caller then returns it. *)
Theorem createPetCareRoutine_stores_an_active_routine
    (host : Host) (input : CreateRoutineInput.t) (context : ActionAPIContext)
    (user : App.User) (w : World) :
  caller context = Some user ->
  owned Pet (store w) (CreateRoutineInput.petId input) (App.id user) = true ->
  key_taken tblPetCareRoutines (store w) (randomUUID host (uuidCalls w)) = false ->
  let w' := snd (createPetCareRoutine host input context w) in
  exists routine,
    fst (createPetCareRoutine host input context w) = Returned routine
    /\ store w'
       = put tblPetCareRoutines (petCareRoutines (store w) ++ [routine])%list
           (store w)
    /\ PetCareRoutines.id routine = randomUUID host (uuidCalls w)
    /\ PetCareRoutines.petId routine = CreateRoutineInput.petId input
    /\ PetCareRoutines.userId routine = App.id user
    /\ PetCareRoutines.name routine = CreateRoutineInput.name input
    /\ PetCareRoutines.isActive routine = true
    /\ PetCareRoutines.daysOfWeekJson routine
       = option_map (JSON_stringify host) (CreateRoutineInput.daysOfWeek input)
    /\ PetCareRoutines.createdAt routine = DateMs (clock host (clockReads w))
    /\ PetCareRoutines.updatedAt routine = PetCareRoutines.createdAt routine
    /\ exists listed,
         fst (listPetCareRoutines None context w')
         = Returned {| items := listed; total := length listed |}
         /\ In routine listed.
Proof.
  intros Hu Hpet Hfree w'. unfold key_taken in Hfree.
  cbn [rows primaryKey tblPetCareRoutines] in Hfree.
  assert (Hrun : exists routine,
             createPetCareRoutine host input context w
             = (Returned routine,
                sent (put tblPetCareRoutines
                        (petCareRoutines (store w) ++ [routine])%list (store w))
                     {| store := store w; clockReads := S (clockReads w);
                        uuidCalls := S (uuidCalls w);
                        statements := S (statements w) |})
             /\ PetCareRoutines.id routine = randomUUID host (uuidCalls w)
             /\ PetCareRoutines.petId routine = CreateRoutineInput.petId input
             /\ PetCareRoutines.userId routine = App.id user
             /\ PetCareRoutines.name routine = CreateRoutineInput.name input
             /\ PetCareRoutines.isActive routine = true
             /\ PetCareRoutines.daysOfWeekJson routine
                = option_map (JSON_stringify host)
                    (CreateRoutineInput.daysOfWeek input)
             /\ PetCareRoutines.createdAt routine
                = DateMs (clock host (clockReads w))
             /\ PetCareRoutines.updatedAt routine
                = PetCareRoutines.createdAt routine).
  { unfold createPetCareRoutine, bind. rewrite (@requireUser_signed_in _ _ Hu).
    destruct (@assertPetOwnership_found user _ _ Hpet) as (p & -> & _).
    unfold newDate, cryptoRandomUUID, insert, ret.
    cbn [fst snd store sent clockReads uuidCalls statements rows primaryKey
         references_hold tblPetCareRoutines PetCareRoutines.id
         PetCareRoutines.petId].
    rewrite Hfree, (owned_pet_stored _ _ _ Hpet). cbn [negb].
    eexists. split; [reflexivity|].
    cbn. repeat split. }
  destruct Hrun as (routine & Hrun & Hid & Hp & Ho & Hn & Ha & Hd & Hc & Hup).
  exists routine. subst w'. rewrite Hrun. cbn [fst snd].
  repeat (split; [first [reflexivity | assumption]|]).
  destruct (@listPetCareRoutines_where None context user
              (sent (put tblPetCareRoutines
                       (petCareRoutines (store w) ++ [routine])%list (store w))
                    {| store := store w; clockReads := S (clockReads w);
                       uuidCalls := S (uuidCalls w);
                       statements := S (statements w) |}) Hu)
    as (wc & Hlist & Hwc).
  eexists. rewrite Hlist. split; [reflexivity|].
  apply filter_In. split.
  - cbn. apply in_or_app. right. now left.
  - apply Hwc. split; [exact Ho|]. split; [intros i q [=]|]. intros _. exact Ha.
Qed.

(** One successful run of [createPetCareLog], in full. *)
Lemma createPetCareLog_run
    (host : Host) (input : CreateLogInput.t) (context : ActionAPIContext)
    (user : App.User) (w : World) :
  caller context = Some user ->
  owned Pet (store w) (CreateLogInput.petId input) (App.id user) = true ->
  routine_fits input (App.id user) (store w) ->
  key_taken tblPetCareLogs (store w) (randomUUID host (uuidCalls w)) = false ->
  let w' := snd (createPetCareLog host input context w) in
  exists log,
    fst (createPetCareLog host input context w) = Returned log
    /\ store w'
       = put tblPetCareLogs (petCareLogs (store w) ++ [log])%list (store w)
    /\ statements w'
       = statements w
         + (if truthy_opt (CreateLogInput.routineId input) then 3 else 2)
    /\ PetCareLogs.id log = randomUUID host (uuidCalls w)
    /\ PetCareLogs.petId log = CreateLogInput.petId input
    /\ PetCareLogs.userId log = App.id user
    /\ PetCareLogs.routineId log = CreateLogInput.routineId input
    /\ PetCareLogs.status log
       = option_map LogStatus_text (CreateLogInput.status input)
    /\ match CreateLogInput.logDateTime input with
       | None =>
           PetCareLogs.logDateTime log = DateMs (clock host (clockReads w))
           /\ PetCareLogs.createdAt log = DateMs (clock host (S (clockReads w)))
       | Some v =>
           truthy_date v = true ->
           parseDateInput host (Some v) = Some (PetCareLogs.logDateTime log)
           /\ PetCareLogs.createdAt log = DateMs (clock host (clockReads w))
       end.
Proof.
  intros Hu Hpet Hfits Hfree w'. subst w'. unfold key_taken in Hfree.
  cbn [rows primaryKey tblPetCareLogs] in Hfree.
  pose proof (owned_pet_stored _ _ _ Hpet) as Hstored.
  unfold routine_fits in Hfits.
  assert (Href : match CreateLogInput.routineId input with
                 | Some rid => routine_stored (store w) rid
                 | None => true
                 end = true).
  { destruct (CreateLogInput.routineId input); [apply Hfits | reflexivity]. }
  unfold createPetCareLog, bind. rewrite (@requireUser_signed_in _ _ Hu).
  destruct (@assertPetOwnership_found user _ _ Hpet) as (p & -> & _).
  assert (Hblock :
    (match CreateLogInput.routineId input with
     | Some routineId =>
         if truthy routineId then
           bind (assertRoutineOwnership routineId (App.id user))
             (fun routine =>
                if negb (String.eqb (PetCareRoutines.petId routine)
                                    (CreateLogInput.petId input))
                then throw (ActionError FORBIDDEN
                              "Routine does not belong to this pet.")
                else ret tt)
         else ret tt
     | None => ret tt
     end) (sent (store w) w)
    = (Returned tt,
       {| store := store w; clockReads := clockReads w;
          uuidCalls := uuidCalls w;
          statements :=
            statements w
            + (if truthy_opt (CreateLogInput.routineId input) then 2 else 1) |})).
  { destruct (CreateLogInput.routineId input) as [rid|]; cbn [truthy_opt];
      [destruct (truthy rid) eqn:Ht|].
    - destruct (proj2 Hfits Logic.eq_refl)
        as (r & Hkeys & Hin & Hid & Huid & Hsame).
      unfold assertRoutineOwnership, bind, select.
      cbn [rows tblPetCareRoutines store sent].
      rewrite where_is_routine. unfold is_routine. rewrite <- Hid, <- Huid.
      rewrite (@unique_keys_select _ PetCareRoutines.id PetCareRoutines.userId
                 (petCareRoutines (store w)) r Hkeys Hin).
      unfold ret. rewrite Hsame, String.eqb_refl. cbn.
      replace (statements w + 2) with (S (S (statements w))) by lia.
      reflexivity.
    - unfold ret, sent. cbn.
      replace (statements w + 1) with (S (statements w)) by lia. reflexivity.
    - unfold ret, sent. cbn.
      replace (statements w + 1) with (S (statements w)) by lia. reflexivity. }
  unfold bind in Hblock. rewrite Hblock. clear Hblock.
  unfold cryptoRandomUUID.
  destruct (CreateLogInput.logDateTime input) as [v|];
    [destruct (truthy_date v) eqn:Ht|];
    unfold bind, ret, newDate, columnDefaultNow, parseDateInput, insert;
    try rewrite Ht; cbn; rewrite Hfree; cbn; rewrite Hstored, Href; cbn;
    eexists; (split; [reflexivity|]); (split; [reflexivity|]);
    (split; [destruct (truthy_opt (CreateLogInput.routineId input)); lia|]);
    repeat (split; [reflexivity|]).
  - reflexivity.
  - discriminate.
  - reflexivity.
Qed.

(** X9. A signed-in caller logs care for a pet of theirs, the generated
    id being free. When the routine named by the input fits
    ([routine_fits]: none is named, or one that is stored, and unless
    its id is the empty string it is the caller's and belongs to the
    pet), the log is returned and appended to the logs, the other tables
    stay. It carries the caller, the pet, the status as text and the
    input's [routineId] as given. A [routineId] that is absent or the
    empty string is not looked up (two statements reach the store, three
    otherwise). Without [logDateTime] the log's time is the clock reading
    taken while the row is built and [createdAt] the next one; with a
    truthy [logDateTime] it is the parsed input. An empty [routineId]
    under which no routine is stored passes the handler's checks and is
    refused by the store: the insert throws the foreign-key error and
    every table is as before. *)
Theorem createPetCareLog_stores_the_log
    (host : Host) (input : CreateLogInput.t) (context : ActionAPIContext)
    (user : App.User) (w : World) :
  caller context = Some user ->
  owned Pet (store w) (CreateLogInput.petId input) (App.id user) = true ->
  key_taken tblPetCareLogs (store w) (randomUUID host (uuidCalls w)) = false ->
  let w' := snd (createPetCareLog host input context w) in
  (routine_fits input (App.id user) (store w) ->
   exists log,
     fst (createPetCareLog host input context w) = Returned log
     /\ store w'
        = put tblPetCareLogs (petCareLogs (store w) ++ [log])%list (store w)
     /\ statements w'
        = statements w
          + (if truthy_opt (CreateLogInput.routineId input) then 3 else 2)
     /\ PetCareLogs.id log = randomUUID host (uuidCalls w)
     /\ PetCareLogs.petId log = CreateLogInput.petId input
     /\ PetCareLogs.userId log = App.id user
     /\ PetCareLogs.routineId log = CreateLogInput.routineId input
     /\ PetCareLogs.status log
        = option_map LogStatus_text (CreateLogInput.status input)
     /\ match CreateLogInput.logDateTime input with
        | None =>
            PetCareLogs.logDateTime log = DateMs (clock host (clockReads w))
            /\ PetCareLogs.createdAt log = DateMs (clock host (S (clockReads w)))
        | Some v =>
            truthy_date v = true ->
            parseDateInput host (Some v) = Some (PetCareLogs.logDateTime log)
            /\ PetCareLogs.createdAt log = DateMs (clock host (clockReads w))
        end)
  /\ (forall rid,
        CreateLogInput.routineId input = Some rid ->
        truthy rid = false ->
        routine_stored (store w) rid = false ->
        fst (createPetCareLog host input context w)
        = Thrown (StorageError "FOREIGN KEY constraint failed")
        /\ store w' = store w
        /\ statements w' = statements w + 2).
Proof.
  intros Hu Hpet Hfree w'. split.
  - intros Hfits.
    destruct (@createPetCareLog_run host input context user w Hu Hpet Hfits Hfree)
      as (log & Hrun & Hrest).
    exists log. split; [exact Hrun|]. exact Hrest.
  - intros rid Hrid Hfalsy Hmissing. subst w'.
    unfold key_taken in Hfree. cbn [rows primaryKey tblPetCareLogs] in Hfree.
    unfold createPetCareLog, bind. rewrite (@requireUser_signed_in _ _ Hu).
    destruct (@assertPetOwnership_found user _ _ Hpet) as (p & -> & _).
    rewrite Hrid, Hfalsy. unfold cryptoRandomUUID.
    destruct (CreateLogInput.logDateTime input) as [v|];
      [destruct (truthy_date v) eqn:Ht|];
      unfold bind, ret, newDate, columnDefaultNow, parseDateInput, insert;
      try rewrite Ht; cbn; rewrite Hfree; cbn;
      rewrite Hmissing, andb_false_r; cbn;
      (split; [reflexivity|]); (split; [reflexivity|]); lia.
Qed.

Lemma filter_keeps_all {X} (c : X -> bool) (l : list X) :
  (forall x, In x l -> c x = true) -> filter c l = l.
Proof.
  intros H. induction l as [|a l IH]; cbn; [reflexivity|].
  rewrite (H a (or_introl Logic.eq_refl)). f_equal. apply IH.
  intros x Hx. apply H. now right.
Qed.

Lemma createPetCareLog_returned
    (host : Host) (input : CreateLogInput.t) (context : ActionAPIContext)
    (w : World) :
  match createPetCareLog host input context w with
  | (Returned log, w') =>
      exists user,
        caller context = Some user
        /\ store w'
           = put tblPetCareLogs (petCareLogs (store w) ++ [log])%list (store w)
        /\ key_taken tblPetCareLogs (store w) (PetCareLogs.id log) = false
        /\ PetCareLogs.userId log = App.id user
  | (Thrown _, _) => True
  end.
Proof.
  unfold createPetCareLog, bind, requireUser, key_taken.
  destruct (caller context) as [user|]; [|exact I].
  unfold ret at 1. cbn [fst snd].
  unfold assertPetOwnership, bind, select.
  cbn [fst snd rows tblPets store sent].
  destruct (filter _ (pets (store w))) as [|p ps]; [exact I|].
  unfold ret at 1. cbn [fst snd].
  destruct (CreateLogInput.routineId input) as [rid|];
    [destruct (truthy rid);
       [unfold assertRoutineOwnership, bind, select;
        cbn [fst snd rows tblPetCareRoutines store sent];
        destruct (filter _ (petCareRoutines (store w))) as [|r rs];
          [exact I|];
        unfold ret at 1; cbn [fst snd];
        destruct (negb _); [exact I|] | ] | ];
    (destruct (CreateLogInput.logDateTime input) as [v|];
       [destruct (truthy_date v) eqn:Ht|]);
    unfold cryptoRandomUUID, newDate, columnDefaultNow, parseDateInput, ret,
      throw, insert;
    try rewrite Ht;
    cbn [fst snd store sent clockReads uuidCalls statements rows primaryKey
         references_hold tblPetCareLogs PetCareLogs.id PetCareLogs.petId
         PetCareLogs.routineId negb];
    (destruct (existsb _ (petCareLogs (store w))) eqn:Hfree; [exact I|]);
    try (destruct (negb _); [exact I|]);
    exists user; cbn [store sent PetCareLogs.id PetCareLogs.userId];
    repeat split; try reflexivity; exact Hfree.
Qed.

(** X10. Create, then delete: whenever [createPetCareLog] succeeds,
    [deletePetCareLog] on the id it returned succeeds too and leaves every
    table exactly as it was before the log was created. *)
Theorem createPetCareLog_then_delete_restores_the_store
    (host : Host) (input : CreateLogInput.t) (context : ActionAPIContext)
    (w : World) (log : PetCareLogs.row) :
  fst (createPetCareLog host input context w) = Returned log ->
  fst (deletePetCareLog {| IdInput.id := PetCareLogs.id log |} context
         (snd (createPetCareLog host input context w)))
  = Returned tt
  /\ store (snd (deletePetCareLog {| IdInput.id := PetCareLogs.id log |} context
                   (snd (createPetCareLog host input context w))))
     = store w.
Proof.
  intros Hrun.
  pose proof (createPetCareLog_returned host input context w) as Hret.
  destruct (createPetCareLog host input context w) as [[log'|e] w1];
    cbn [fst snd] in *; [|discriminate].
  injection Hrun as ->.
  destruct Hret as (user & Hu & Hstore & Hfree & Huid).
  unfold key_taken in Hfree. cbn [rows primaryKey tblPetCareLogs] in Hfree.
  unfold deletePetCareLog, bind. rewrite (@requireUser_signed_in _ _ Hu).
  unfold select. cbn [rows tblPetCareLogs IdInput.id]. rewrite Hstore.
  cbn [put tblPetCareLogs petCareLogs]. rewrite filter_app.
  rewrite (filter_none _ (petCareLogs (store w))).
  - cbn [filter app]. rewrite Sql_and_id_userId, Huid, !String.eqb_refl.
    cbn [andb]. rewrite delete_logs_run.
    cbn [fst snd store sent rows tblPetCareLogs put
      petCareLogs pets petCareRoutines vetVisits].
    split; [reflexivity|].
    rewrite filter_app. cbn [filter].
    rewrite Sql_and_id_userId, Huid, !String.eqb_refl. cbn [andb negb].
    rewrite app_nil_r, filter_keeps_all; [now destruct (store w)|].
    intros x Hx. rewrite Sql_and_id_userId.
    rewrite (existsb_false_In _ _ _ Hfree Hx). reflexivity.
  - intros x Hx. rewrite Sql_and_id_userId.
    rewrite (existsb_false_In _ _ _ Hfree Hx). reflexivity.
Qed.

(** ** No request writes another owner's rows *)

Lemma same_rows_of_refl (uid : string) (d : Db) : same_rows_of uid d d.
Proof. reflexivity. Qed.

Lemma same_rows_of_trans (uid : string) (a b c : Db) :
  same_rows_of uid a b -> same_rows_of uid b c -> same_rows_of uid a c.
Proof. unfold same_rows_of. congruence. Qed.

Lemma keeps_bind_requireUser (R : Db -> Db -> Prop) {B}
    (context : ActionAPIContext) (k : App.User -> Action B) :
  (forall d, R d d) ->
  (forall user, caller context = Some user -> keeps R (k user)) ->
  keeps R (bind (requireUser context) k).
Proof.
  intros Hrefl Hk w. unfold bind, requireUser.
  destruct (caller context) as [user|] eqn:Hu; cbn.
  - now apply Hk.
  - apply Hrefl.
Qed.

Lemma filter_where_foreign {X} (p c : X -> bool) (f : X -> X) (l : list X) :
  (forall r, c r = true -> p r = false /\ p (f r) = false) ->
  filter p (map (fun r => if c r then f r else r) l) = filter p l.
Proof.
  intros H. induction l as [|a l IH]; cbn; [reflexivity|].
  rewrite IH. destruct (c a) eqn:Ca; [|reflexivity].
  destruct (H a Ca) as [-> ->]. reflexivity.
Qed.

Lemma filter_delete_foreign {X} (p c : X -> bool) (l : list X) :
  (forall r, c r = true -> p r = false) ->
  filter p (filter (fun r => negb (c r)) l) = filter p l.
Proof.
  intros H. induction l as [|a l IH]; cbn; [reflexivity|].
  destruct (c a) eqn:Ca; cbn; rewrite IH; [|reflexivity].
  now rewrite (H a Ca).
Qed.

Lemma where_owner {X} (a b : X -> string) (x uid other : string) (r : X) :
  uid <> other ->
  Sql.and [Sql.eq a x; Sql.eq b uid] r = true ->
  String.eqb (b r) other = false.
Proof.
  intros Hne H. rewrite Sql_and_id_userId in H.
  apply andb_true_iff in H as [_ H]. apply String.eqb_eq in H.
  apply eqb_differs. congruence.
Qed.

Ltac others_of_insert :=
  intros Hown Hne w; unfold insert;
  match goal with |- context [existsb ?c ?l] => destruct (existsb c l) end;
  cbn; [reflexivity|];
  try match goal with
      | |- context [if negb ?b then _ else _] =>
          destruct b; cbn; [|reflexivity]
      end;
  unfold same_rows_of, rows_of; cbn; f_equal;
  rewrite filter_app; cbn; rewrite Hown, (eqb_differs Hne);
  apply app_nil_r.

Lemma insert_pet_others r uid other :
  Pets.userId r = uid -> uid <> other ->
  keeps (same_rows_of other) (insert tblPets r).
Proof. others_of_insert. Qed.

Lemma insert_routine_others r uid other :
  PetCareRoutines.userId r = uid -> uid <> other ->
  keeps (same_rows_of other) (insert tblPetCareRoutines r).
Proof. others_of_insert. Qed.

Lemma insert_log_others r uid other :
  PetCareLogs.userId r = uid -> uid <> other ->
  keeps (same_rows_of other) (insert tblPetCareLogs r).
Proof. others_of_insert. Qed.

Lemma insert_visit_others r uid other :
  VetVisits.userId r = uid -> uid <> other ->
  keeps (same_rows_of other) (insert tblVetVisits r).
Proof. others_of_insert. Qed.

Ltac others_of_update :=
  intros Hne w; unfold update;
  repeat match goal with |- context [if ?b then _ else _] => destruct b end;
  cbn; try reflexivity;
  unfold same_rows_of, rows_of; cbn; f_equal;
  apply filter_where_foreign; intros r Hr;
  split; exact (where_owner _ _ _ r Hne Hr).

Lemma update_pet_others host empty rekeyed u id uid other :
  uid <> other ->
  keeps (same_rows_of other)
    (update host tblPets empty rekeyed (Pets.apply u)
       (Sql.and [Sql.eq Pets.id id; Sql.eq Pets.userId uid])).
Proof. others_of_update. Qed.

Lemma update_routine_others host empty rekeyed u id uid other :
  uid <> other ->
  keeps (same_rows_of other)
    (update host tblPetCareRoutines empty rekeyed (PetCareRoutines.apply u)
       (Sql.and [Sql.eq PetCareRoutines.id id; Sql.eq PetCareRoutines.userId uid])).
Proof. others_of_update. Qed.

Lemma update_visit_others host empty rekeyed u id uid other :
  uid <> other ->
  keeps (same_rows_of other)
    (update host tblVetVisits empty rekeyed (VetVisits.apply u)
       (Sql.and [Sql.eq VetVisits.id id; Sql.eq VetVisits.userId uid])).
Proof. others_of_update. Qed.

Ltac others_of_delete :=
  intros Hne w; unfold delete;
  match goal with |- context [if ?b then _ else _] => destruct b end;
  cbn; try reflexivity;
  unfold same_rows_of, rows_of; cbn; f_equal;
  apply filter_delete_foreign; intros r Hr;
  exact (where_owner _ _ _ r Hne Hr).

Lemma delete_pet_others id uid other :
  uid <> other ->
  keeps (same_rows_of other)
    (delete tblPets (Sql.and [Sql.eq Pets.id id; Sql.eq Pets.userId uid])).
Proof. others_of_delete. Qed.

Lemma delete_log_others id uid other :
  uid <> other ->
  keeps (same_rows_of other)
    (delete tblPetCareLogs
       (Sql.and [Sql.eq PetCareLogs.id id; Sql.eq PetCareLogs.userId uid])).
Proof. others_of_delete. Qed.

Lemma delete_visit_others id uid other :
  uid <> other ->
  keeps (same_rows_of other)
    (delete tblVetVisits
       (Sql.and [Sql.eq VetVisits.id id; Sql.eq VetVisits.userId uid])).
Proof. others_of_delete. Qed.

Ltac others_step other Hne :=
  first
    [ apply keeps_bind; [exact (@same_rows_of_trans other) | | intros ?]
    | apply keeps_ret; exact (same_rows_of_refl other)
    | apply keeps_throw; exact (same_rows_of_refl other)
    | apply keeps_newDate; exact (same_rows_of_refl other)
    | apply keeps_cryptoRandomUUID; exact (same_rows_of_refl other)
    | apply keeps_columnDefaultNow; exact (same_rows_of_refl other)
    | apply keeps_select; exact (same_rows_of_refl other)
    | eapply insert_pet_others; [reflexivity | exact Hne]
    | eapply insert_routine_others; [reflexivity | exact Hne]
    | eapply insert_log_others; [reflexivity | exact Hne]
    | eapply insert_visit_others; [reflexivity | exact Hne]
    | apply update_pet_others; exact Hne
    | apply update_routine_others; exact Hne
    | apply update_visit_others; exact Hne
    | apply delete_pet_others; exact Hne
    | apply delete_log_others; exact Hne
    | apply delete_visit_others; exact Hne
    | match goal with
      | |- keeps _ (match ?x with _ => _ end) => destruct x
      | |- keeps _ (if ?x then _ else _) => destruct x
      end ].

Ltac others_of_handler other Hothers :=
  apply keeps_bind_requireUser; [exact (same_rows_of_refl other)|];
  let user := fresh "user" in
  let Hu := fresh "Hu" in
  let Hne := fresh "Hne" in
  intros user Hu; pose proof (Hothers user Hu) as Hne;
  unfold assertPetOwnership, assertRoutineOwnership;
  repeat others_step other Hne.

(** X11. Whatever the request, it leaves the rows of every other owner
    alone: for an owner [other] that is not the caller (and for every
    owner when nobody is signed in), the rows of [other] in the four
    tables are the same before and after, in content and in order. Every
    insert carries the caller as owner, and every update and delete
    selects on the caller's [userId]. *)
Theorem requests_leave_other_owners_rows
    (host : Host) (request : Request) (context : ActionAPIContext)
    (w : World) (other : string) :
  (forall user, caller context = Some user -> App.id user <> other) ->
  rows_of other (store (snd (server host request context w)))
  = rows_of other (store w).
Proof.
  intros Hothers.
  revert w. change (keeps (same_rows_of other) (server host request context)).
  destruct request; cbn [server]; unfold respond;
    (apply keeps_bind;
     [ exact (@same_rows_of_trans other)
     | | intros ?; apply keeps_ret; exact (same_rows_of_refl other) ]);
    [ unfold createPet | unfold updatePet | unfold deletePet | unfold listPets
    | unfold createPetCareRoutine | unfold updatePetCareRoutine
    | unfold archivePetCareRoutine | unfold listPetCareRoutines
    | unfold createPetCareLog | unfold listPetCareLogs
    | unfold deletePetCareLog | unfold createVetVisit | unfold updateVetVisit
    | unfold deleteVetVisit | unfold listVetVisits ];
    others_of_handler other Hothers.
Qed.

(** ** A request that throws has written nothing *)

Lemma reads_ret {A} (a : A) : reads (ret a).
Proof. intros w. reflexivity. Qed.

Lemma reads_throw {A} (e : Exception) : reads (@throw A e).
Proof. intros w. reflexivity. Qed.

Lemma reads_bind {A B} (m : Action A) (k : A -> Action B) :
  reads m -> (forall a, reads (k a)) -> reads (bind m k).
Proof.
  intros Hm Hk w. unfold bind. specialize (Hm w).
  destruct (m w) as [[a|e] w1]; cbn in *; [|exact Hm].
  now rewrite Hk.
Qed.

Lemma reads_newDate host : reads (newDate host).
Proof. intros w. reflexivity. Qed.

Lemma reads_cryptoRandomUUID host : reads (cryptoRandomUUID host).
Proof. intros w. reflexivity. Qed.

Lemma reads_select {X} (T : Table X) (c : X -> bool) : reads (select T c).
Proof. intros w. reflexivity. Qed.

Lemma reads_requireUser context : reads (requireUser context).
Proof.
  unfold requireUser. destruct (caller context);
    [apply reads_ret | apply reads_throw].
Qed.

Lemma reads_columnDefaultNow host value : reads (columnDefaultNow host value).
Proof. destruct value; [apply reads_ret | apply reads_newDate]. Qed.

Ltac reads_step :=
  first
    [ apply reads_bind; [|intros ?]
    | apply reads_ret | apply reads_throw | apply reads_newDate
    | apply reads_cryptoRandomUUID | apply reads_select
    | apply reads_requireUser | apply reads_columnDefaultNow
    | match goal with
      | |- reads (match ?x with _ => _ end) => destruct x
      | |- reads (if ?x then _ else _) => destruct x
      end ].

Lemma reads_assertPetOwnership petId userId :
  reads (assertPetOwnership petId userId).
Proof. unfold assertPetOwnership. repeat reads_step. Qed.

Lemma reads_assertRoutineOwnership routineId userId :
  reads (assertRoutineOwnership routineId userId).
Proof. unfold assertRoutineOwnership. repeat reads_step. Qed.

Lemma atomic_of_reads {A} (m : Action A) : reads m -> atomic m.
Proof. intros H w e _. apply H. Qed.

Lemma atomic_bind {A B} (m : Action A) (k : A -> Action B) :
  reads m -> (forall a, atomic (k a)) -> atomic (bind m k).
Proof.
  intros Hm Hk w e. unfold bind. specialize (Hm w).
  destruct (m w) as [[a|e1] w1]; cbn in *.
  - intros He. rewrite (Hk a w1 e He). exact Hm.
  - intros _. exact Hm.
Qed.

Lemma atomic_then_ret {A B} (m : Action A) (f : A -> B) :
  atomic m -> atomic (bind m (fun a => ret (f a))).
Proof.
  intros Hm w e. unfold bind, ret. specialize (Hm w).
  destruct (m w) as [[a|e1] w1]; cbn in *; [discriminate|].
  intros [= <-]. now apply (Hm e1).
Qed.

Lemma atomic_insert {X} (T : Table X) (r : X) : atomic (insert T r).
Proof.
  intros w e. unfold insert. destruct (existsb _ _); cbn; [reflexivity|].
  destruct (negb _); cbn; [reflexivity | discriminate].
Qed.

Lemma atomic_update {X} host (T : Table X) empty rekeyed change c :
  atomic (update host T empty rekeyed change c).
Proof.
  intros w e. unfold update.
  destruct (rejects_empty_set host && empty); cbn; [reflexivity|].
  destruct (rekeyed && _); cbn; [reflexivity | discriminate].
Qed.

Lemma atomic_delete {X} (T : Table X) c : atomic (delete T c).
Proof.
  intros w e. unfold delete. destruct (existsb _ _); cbn;
    [reflexivity | discriminate].
Qed.

Ltac atomic_step :=
  first
    [ apply atomic_insert | apply atomic_update | apply atomic_delete
    | apply atomic_then_ret; solve [apply atomic_insert]
    | apply atomic_bind;
        [ solve [ apply reads_requireUser | apply reads_assertPetOwnership
                | apply reads_assertRoutineOwnership | repeat reads_step ]
        | intros ? ]
    | apply atomic_of_reads; solve [repeat reads_step]
    | match goal with
      | |- atomic (match ?x with _ => _ end) => destruct x
      | |- atomic (if ?x then _ else _) => destruct x
      end ].

(** X12. A request that throws has written nothing: whatever the
    request and the caller, if the handler ends with an exception (an
    UNAUTHORIZED, NOT_FOUND or FORBIDDEN error, or one the storage driver
    raised), every table is as it was when the request came in. Each
    handler's guards only read, and its one write is its last statement. *)
Theorem a_request_that_throws_writes_nothing
    (host : Host) (request : Request) (context : ActionAPIContext)
    (w : World) (e : Exception) :
  fst (server host request context w) = Thrown e ->
  store (snd (server host request context w)) = store w.
Proof.
  revert w e. change (atomic (server host request context)).
  destruct request; cbn [server]; unfold respond; apply atomic_then_ret;
    [ unfold createPet | unfold updatePet | unfold deletePet | unfold listPets
    | unfold createPetCareRoutine | unfold updatePetCareRoutine
    | unfold archivePetCareRoutine | unfold listPetCareRoutines
    | unfold createPetCareLog | unfold listPetCareLogs
    | unfold deletePetCareLog | unfold createVetVisit | unfold updateVetVisit
    | unfold deleteVetVisit | unfold listVetVisits ];
    repeat atomic_step.
Qed.

(** ** Sequences of requests *)

Lemma serve_all_invariant (I : Db -> Prop) host :
  (forall request context w,
     I (store w) -> I (store (snd (server host request context w)))) ->
  forall requests w, I (store w) -> I (store (serve_all host requests w)).
Proof.
  intros Hstep requests. unfold serve_all.
  induction requests as [|[request context] rest IH]; intros w Hw; cbn;
    [exact Hw|].
  apply IH. now apply Hstep.
Qed.

(** X13. The primary keys hold in every store the handlers can reach:
    from a store in which no two rows of a table share an id, any
    sequence of requests by any callers leaves such a store again.
    Inserts use a fresh id or are refused, updates never set [id], deletes
    only drop rows. *)
Theorem primary_keys_survive_any_requests
    (host : Host) (requests : list (Request * ActionAPIContext)) (w : World) :
  keys_unique (store w) ->
  keys_unique (store (serve_all host requests w)).
Proof.
  revert w. apply serve_all_invariant.
  intros request context w Hw.
  now apply (server_keeps_keys_unique host request context w).
Qed.

(** ** A response carries the caller's rows only *)

Lemma returns_always {A} (P : A -> Prop) (m : Action A) :
  (forall a, P a) -> returns P m.
Proof. intros H w a _. apply H. Qed.

Lemma returns_ret {A} (P : A -> Prop) (a : A) : P a -> returns P (ret a).
Proof. intros H w a' [= <-]. exact H. Qed.

Lemma returns_throw {A} (P : A -> Prop) (e : Exception) : returns P (throw e).
Proof. intros w a [=]. Qed.

Lemma returns_bind {A B} (P : B -> Prop) (m : Action A) (k : A -> Action B) :
  (forall a, returns P (k a)) -> returns P (bind m k).
Proof.
  intros Hk w b. unfold bind.
  destruct (m w) as [[a|e] w1]; cbn; [apply Hk | discriminate].
Qed.

Lemma returns_bind_requireUser {B} (P : B -> Prop) context
    (k : App.User -> Action B) :
  (forall user, caller context = Some user -> returns P (k user)) ->
  returns P (bind (requireUser context) k).
Proof.
  intros Hk w b. unfold bind, requireUser.
  destruct (caller context) as [user|]; cbn; [now apply Hk | discriminate].
Qed.

Lemma returns_bind_select {X B} (P : B -> Prop) (T : Table X) (c : X -> bool)
    (k : list X -> Action B) :
  (forall l, (forall r, In r l -> c r = true) -> returns P (k l)) ->
  returns P (bind (select T c) k).
Proof.
  intros Hk w b. unfold bind, select. cbn. apply Hk.
  intros r Hr. now apply filter_In in Hr.
Qed.

Lemma returns_respond {A} (P : Response -> Prop) (wrap : A -> Response)
    (m : Action A) :
  returns (fun a => P (wrap a)) m -> returns P (respond wrap m).
Proof.
  intros H w r. unfold respond, bind, ret. specialize (H w).
  destruct (m w) as [[a|e] w1]; cbn in *; [|discriminate].
  intros [= <-]. now apply H.
Qed.

Lemma selected_owner {X} (a b : X -> string) (x uid : string) (l : list X) :
  (forall r, In r l -> Sql.and [Sql.eq a x; Sql.eq b uid] r = true) ->
  Forall (fun owner => owner = uid) (map b l).
Proof.
  intros H. apply Forall_forall. intros owner Hin.
  apply in_map_iff in Hin as (r & <- & Hr). specialize (H r Hr).
  rewrite Sql_and_id_userId in H. apply andb_true_iff in H as [_ H].
  now apply String.eqb_eq.
Qed.

Ltac returns_step :=
  first
    [ apply returns_throw
    | apply returns_bind_select; intros ? ?
    | apply returns_bind; intros ?
    | match goal with
      | |- returns _ (match ?x with _ => _ end) => destruct x
      | |- returns _ (if ?x then _ else _) => destruct x
      end ].

(** X14. Whatever a signed-in caller requests, the response carries rows
    of the caller only: the row a create handler returns has the caller
    as owner, and every item of a listing does, also for
    [listPetCareRoutines], which looks no pet up. No row of another owner
    is ever returned. *)
Theorem responses_carry_the_callers_rows_only
    (host : Host) (request : Request) (context : ActionAPIContext)
    (user : App.User) (w : World) (response : Response) :
  caller context = Some user ->
  fst (server host request context w) = Returned response ->
  Forall (fun owner => owner = App.id user) (response_owners response).
Proof.
  intros Hu. revert w response.
  change (returns (all_of (App.id user)) (server host request context)).
  destruct request; cbn [server]; apply returns_respond;
    try (apply returns_always; intros ?; constructor; fail).
  - unfold createPet. apply returns_bind_requireUser. intros u Hu'.
    assert (u = user) as -> by congruence.
    repeat returns_step. apply returns_ret. now repeat constructor.
  - unfold listPets. apply returns_bind_requireUser. intros u Hu'.
    assert (u = user) as -> by congruence.
    apply returns_bind_select. intros l Hl. apply returns_ret.
    unfold all_of. cbn. apply Forall_forall. intros owner Hin.
    apply in_map_iff in Hin as (r & <- & Hr).
    now apply String.eqb_eq, (Hl r Hr).
  - unfold createPetCareRoutine. apply returns_bind_requireUser. intros u Hu'.
    assert (u = user) as -> by congruence.
    unfold assertPetOwnership.
    repeat returns_step; apply returns_ret; now repeat constructor.
  - intros w' data Hrun.
    destruct (@listPetCareRoutines_where input context user w' Hu)
      as (wc & Hlist & Hwc).
    rewrite Hlist in Hrun. cbn in Hrun. injection Hrun as <-.
    unfold all_of. cbn. apply Forall_forall. intros owner Hin.
    apply in_map_iff in Hin as (r & <- & Hr).
    apply filter_In in Hr as [_ Hr]. now apply Hwc in Hr.
  - unfold createPetCareLog. apply returns_bind_requireUser. intros u Hu'.
    assert (u = user) as -> by congruence.
    unfold assertPetOwnership, assertRoutineOwnership.
    repeat returns_step; apply returns_ret; now repeat constructor.
  - unfold listPetCareLogs. apply returns_bind_requireUser. intros u Hu'.
    assert (u = user) as -> by congruence.
    unfold assertPetOwnership.
    apply returns_bind. intros _.
    apply returns_bind_select. intros l Hl. apply returns_ret.
    unfold all_of. cbn. exact (selected_owner _ _ _ _ l Hl).
  - unfold createVetVisit. apply returns_bind_requireUser. intros u Hu'.
    assert (u = user) as -> by congruence.
    unfold assertPetOwnership.
    repeat returns_step; apply returns_ret; now repeat constructor.
  - unfold listVetVisits. apply returns_bind_requireUser. intros u Hu'.
    assert (u = user) as -> by congruence.
    unfold assertPetOwnership.
    apply returns_bind. intros _.
    apply returns_bind_select. intros l Hl. apply returns_ret.
    unfold all_of. cbn. exact (selected_owner _ _ _ _ l Hl).
Qed.

(** ** Updating a routine: moving it, and bringing it back *)

(** X17. For a routine of the caller whose target pet (the input's
    [petId], else the stored one) is the caller's too,
    [updatePetCareRoutine] succeeds and stores the routine with the SET
    clause applied. So a [petId] in the input moves the routine to that
    pet, and an [isActive] in the input is written as given: with
    [isActive: true] an archived routine is active again. *)
Theorem updatePetCareRoutine_writes_present_fields
    (host : Host) (input : UpdateRoutineInput.t) (context : ActionAPIContext)
    (user : App.User) (w : World) (routine : PetCareRoutines.row) :
  caller context = Some user ->
  unique_keys tblPetCareRoutines (store w) ->
  In routine (petCareRoutines (store w)) ->
  PetCareRoutines.id routine = UpdateRoutineInput.id input ->
  PetCareRoutines.userId routine = App.id user ->
  owned Pet (store w)
    (nullish (UpdateRoutineInput.petId input) (PetCareRoutines.petId routine))
    (App.id user) = true ->
  let stored :=
    PetCareRoutines.apply
      (routineUpdates host input (DateMs (clock host (clockReads w)))) routine in
  fst (updatePetCareRoutine host input context w) = Returned tt
  /\ In stored
        (petCareRoutines (store (snd (updatePetCareRoutine host input context w))))
  /\ length (petCareRoutines
               (store (snd (updatePetCareRoutine host input context w))))
     = length (petCareRoutines (store w))
  /\ (forall petId, UpdateRoutineInput.petId input = Some petId ->
        PetCareRoutines.petId stored = petId)
  /\ (forall active, UpdateRoutineInput.isActive input = Some active ->
        PetCareRoutines.isActive stored = active)
  /\ PetCareRoutines.updatedAt stored = DateMs (clock host (clockReads w)).
Proof.
  intros Hu Hkeys Hin Hid Huid Hpet stored.
  assert (Hsel : filter (is_routine (UpdateRoutineInput.id input) (App.id user))
                        (petCareRoutines (store w)) = [routine]).
  { unfold is_routine. rewrite <- Hid, <- Huid.
    exact (@unique_keys_select _ PetCareRoutines.id PetCareRoutines.userId
             (petCareRoutines (store w)) routine Hkeys Hin). }
  split; [|split; [|split]].
  - unfold updatePetCareRoutine, bind. rewrite (@requireUser_signed_in _ _ Hu).
    unfold assertRoutineOwnership, bind, select.
    cbn [rows tblPetCareRoutines]. rewrite where_is_routine, Hsel. unfold ret.
    destruct (@assertPetOwnership_found user _ (sent (store w) w) Hpet)
      as (p & -> & _).
    unfold newDate.
    rewrite PetCareRoutines_no_values_updatedAt by discriminate.
    rewrite update_run; [reflexivity|].
    cbn [PetCareRoutines.sets_reference PetCareRoutines.set_petId].
    intros Hre r _ _. cbn [references_hold tblPetCareRoutines store sent].
    destruct (UpdateRoutineInput.petId input) as [q|]; [|discriminate Hre].
    exact (owned_pet_stored _ _ _ Hpet).
  - rewrite updatePetCareRoutine_store, Hu. unfold updatePetCareRoutine_effect.
    rewrite Hsel, Hpet. cbn [put tblPetCareRoutines petCareRoutines].
    apply in_map_iff. exists routine. split; [|exact Hin].
    unfold is_routine. now rewrite Hid, Huid, !String.eqb_refl.
  - rewrite updatePetCareRoutine_store, Hu. unfold updatePetCareRoutine_effect.
    rewrite Hsel, Hpet. cbn [put tblPetCareRoutines petCareRoutines].
    apply length_map.
  - subst stored. cbn. split; [|split; [|reflexivity]].
    + intros petId ->. reflexivity.
    + intros active ->. reflexivity.
Qed.

(** ** How often a request reaches the store *)

Lemma within_ret {A} n (a : A) : within n (ret a).
Proof. intros w. cbn. lia. Qed.

Lemma within_throw {A} n (e : Exception) : within n (@throw A e).
Proof. intros w. cbn. lia. Qed.

Lemma within_newDate n host : within n (newDate host).
Proof. intros w. cbn. lia. Qed.

Lemma within_cryptoRandomUUID n host : within n (cryptoRandomUUID host).
Proof. intros w. cbn. lia. Qed.

Lemma within_requireUser n context : within n (requireUser context).
Proof.
  unfold requireUser. destruct (caller context);
    [apply within_ret | apply within_throw].
Qed.

Lemma within_columnDefaultNow n host value :
  within n (columnDefaultNow host value).
Proof. destruct value; [apply within_ret | apply within_newDate]. Qed.

Lemma within_select {X} n (T : Table X) c : within (S n) (select T c).
Proof. intros w. cbn. lia. Qed.

Lemma within_insert {X} n (T : Table X) r : within (S n) (insert T r).
Proof.
  intros w. unfold insert. destruct (existsb _ _); cbn; [lia|].
  destruct (negb _); cbn; lia.
Qed.

Lemma within_update {X} n host (T : Table X) empty rekeyed change c :
  within (S n) (update host T empty rekeyed change c).
Proof.
  intros w. unfold update.
  destruct (rejects_empty_set host && empty); cbn; [lia|].
  destruct (rekeyed && _); cbn; lia.
Qed.

Lemma within_delete {X} n (T : Table X) c : within (S n) (delete T c).
Proof. intros w. unfold delete. destruct (existsb _ _); cbn; lia. Qed.

(** A step that sends nothing, then the rest. *)
Lemma within_bind_free {A B} n (m : Action A) (k : A -> Action B) :
  within 0 m -> (forall a, within n (k a)) -> within n (bind m k).
Proof.
  intros Hm Hk w. unfold bind. specialize (Hm w).
  destruct (m w) as [[a|e] w1]; cbn in *; [|lia].
  specialize (Hk a w1). lia.
Qed.

(** A step that sends at most one statement, then the rest. *)
Lemma within_bind_one {A B} n (m : Action A) (k : A -> Action B) :
  within 1 m -> (forall a, within n (k a)) -> within (S n) (bind m k).
Proof.
  intros Hm Hk w. unfold bind. specialize (Hm w).
  destruct (m w) as [[a|e] w1]; cbn in *; [|lia].
  specialize (Hk a w1). lia.
Qed.

Lemma within_respond {A} n (wrap : A -> Response) (m : Action A) :
  within n m -> within n (respond wrap m).
Proof.
  intros Hm w. unfold respond, bind, ret. specialize (Hm w).
  destruct (m w) as [[a|e] w1]; cbn in *; lia.
Qed.

Ltac within_leaf :=
  first
    [ apply within_ret | apply within_throw | apply within_newDate
    | apply within_cryptoRandomUUID | apply within_requireUser
    | apply within_columnDefaultNow | apply within_select
    | apply within_insert | apply within_update | apply within_delete ].

Ltac within_tac :=
  repeat first
    [ within_leaf
    | apply within_bind_free; [solve [within_tac] | intros ?]
    | apply within_bind_one; [solve [within_tac] | intros ?]
    | match goal with
      | |- within _ (match ?x with _ => _ end) => destruct x
      | |- within _ (if ?x then _ else _) => destruct x
      end ].

(** X18. No request reaches the store more than three times: whatever
    the request and the caller, the handler sends at most three
    statements (at most two ownership lookups and the one read or write
    the request is about). *)
Theorem a_request_sends_at_most_three_statements
    (host : Host) (request : Request) (context : ActionAPIContext) (w : World) :
  statements (snd (server host request context w)) <= statements w + 3.
Proof.
  revert w. change (within 3 (server host request context)).
  destruct request; cbn [server]; apply within_respond;
    [ unfold createPet | unfold updatePet | unfold deletePet | unfold listPets
    | unfold createPetCareRoutine | unfold updatePetCareRoutine
    | unfold archivePetCareRoutine | unfold listPetCareRoutines
    | unfold createPetCareLog | unfold listPetCareLogs
    | unfold deletePetCareLog | unfold createVetVisit | unfold updateVetVisit
    | unfold deleteVetVisit | unfold listVetVisits ];
    unfold assertPetOwnership, assertRoutineOwnership;
    within_tac.
Qed.

(** ** What is left of a deleted pet *)

Lemma not_named {X} (k : X -> string) (id : string) (l : list X) :
  existsb (fun x => String.eqb (k x) id) l = false ->
  forall x, In x l -> k x <> id.
Proof.
  intros H x Hx. apply String.eqb_neq.
  exact (existsb_false_In _ _ _ H Hx).
Qed.

(** X19. [deletePet] leaves no row hanging. When it succeeds for a
    signed-in caller, the pet was the caller's and no routine, log or
    visit named it (the store refuses the delete otherwise); routines,
    logs and visits are as before. The pet can no longer be reached:
    listing its logs or visits, and creating a routine, a log or a visit
    for it, all fail with NOT_FOUND. *)
Theorem a_deleted_pet_had_no_dependents
    (host : Host) (input : IdInput.t) (context : ActionAPIContext)
    (user : App.User) (w : World) :
  caller context = Some user ->
  fst (deletePet input context w) = Returned tt ->
  let w' := snd (deletePet input context w) in
  let pet := {| PetIdInput.petId := IdInput.id input |} in
  owned Pet (store w) (IdInput.id input) (App.id user) = true
  /\ (forall r, In r (petCareRoutines (store w)) ->
        PetCareRoutines.petId r <> IdInput.id input)
  /\ (forall l, In l (petCareLogs (store w)) ->
        PetCareLogs.petId l <> IdInput.id input)
  /\ (forall v, In v (vetVisits (store w)) ->
        VetVisits.petId v <> IdInput.id input)
  /\ petCareRoutines (store w') = petCareRoutines (store w)
  /\ petCareLogs (store w') = petCareLogs (store w)
  /\ vetVisits (store w') = vetVisits (store w)
  /\ owned Pet (store w') (IdInput.id input) (App.id user) = false
  /\ fails (listPetCareLogs pet context) w' NOT_FOUND
  /\ fails (listVetVisits pet context) w' NOT_FOUND
  /\ (forall routine, CreateRoutineInput.petId routine = IdInput.id input ->
        fails (createPetCareRoutine host routine context) w' NOT_FOUND)
  /\ (forall log, CreateLogInput.petId log = IdInput.id input ->
        fails (createPetCareLog host log context) w' NOT_FOUND)
  /\ (forall visit, CreateVisitInput.petId visit = IdInput.id input ->
        fails (createVetVisit host visit context) w' NOT_FOUND).
Proof.
  intros Hu Hok w' pet.
  assert (Hpet : owned Pet (store w) (IdInput.id input) (App.id user) = true).
  { destruct (owned Pet (store w) (IdInput.id input) (App.id user)) eqn:Ho;
      [reflexivity|].
    destruct (@deletePet_not_owned context user Hu input w Ho) as [Hcode _].
    rewrite Hok in Hcode. discriminate Hcode. }
  pose proof (@deletePet_run input context user w Hu Hpet) as Hrun.
  destruct (pet_in_use (store w) (IdInput.id input)) eqn:Huse;
    [rewrite Hrun in Hok; discriminate Hok|].
  unfold pet_in_use in Huse.
  apply orb_false_iff in Huse as [Huse Hv].
  apply orb_false_iff in Huse as [Hr Hl].
  assert (Hgone : owned Pet (store w') (IdInput.id input) (App.id user) = false).
  { subst w'. rewrite Hrun. cbn [snd store sent owned put tblPets pets].
    apply existsb_after_delete. reflexivity. }
  split; [exact Hpet|].
  split; [exact (@not_named _ _ _ _ Hr)|].
  split; [exact (@not_named _ _ _ _ Hl)|].
  split; [exact (@not_named _ _ _ _ Hv)|].
  split; [subst w'; now rewrite Hrun|].
  split; [subst w'; now rewrite Hrun|].
  split; [subst w'; now rewrite Hrun|].
  split; [exact Hgone|].
  split; [exact (@listPetCareLogs_not_owned context user Hu pet w' Hgone)|].
  split; [exact (@listVetVisits_not_owned context user Hu pet w' Hgone)|].
  split.
  { intros routine Hp. apply (@createPetCareRoutine_not_owned host context user Hu).
    now rewrite Hp. }
  split.
  { intros log Hp. apply (@createPetCareLog_not_owned host context user Hu).
    now rewrite Hp. }
  intros visit Hp. apply (@createVetVisit_not_owned host context user Hu).
  now rewrite Hp.
Qed.

(** ** Updating a visit, and listing routines exactly *)

(** X16. For a visit of the caller whose target pet (the input's
    [petId], else the stored one) is the caller's too, and an input that
    sets at least one field, [updateVetVisit] succeeds and stores the
    visit with the SET clause applied; no visit is added or dropped. A
    [petId] in the input moves the visit to that pet; id, owner and
    [createdAt] stay. *)
Theorem updateVetVisit_stores_the_update
    (host : Host) (input : UpdateVisitInput.t) (context : ActionAPIContext)
    (user : App.User) (w : World) (visit : VetVisits.row) :
  caller context = Some user ->
  unique_keys tblVetVisits (store w) ->
  In visit (vetVisits (store w)) ->
  VetVisits.id visit = UpdateVisitInput.id input ->
  VetVisits.userId visit = App.id user ->
  owned Pet (store w)
    (nullish (UpdateVisitInput.petId input) (VetVisits.petId visit))
    (App.id user) = true ->
  VetVisits.no_values (visitUpdates host input) = false ->
  let stored := VetVisits.apply (visitUpdates host input) visit in
  fst (updateVetVisit host input context w) = Returned tt
  /\ In stored (vetVisits (store (snd (updateVetVisit host input context w))))
  /\ length (vetVisits (store (snd (updateVetVisit host input context w))))
     = length (vetVisits (store w))
  /\ (forall petId, UpdateVisitInput.petId input = Some petId ->
        VetVisits.petId stored = petId)
  /\ VetVisits.id stored = VetVisits.id visit
  /\ VetVisits.userId stored = VetVisits.userId visit
  /\ VetVisits.createdAt stored = VetVisits.createdAt visit.
Proof.
  intros Hu Hkeys Hin Hid Huid Hpet Hset stored.
  assert (Hsel : filter (is_visit (UpdateVisitInput.id input) (App.id user))
                        (vetVisits (store w)) = [visit]).
  { unfold is_visit. rewrite <- Hid, <- Huid.
    exact (@unique_keys_select _ VetVisits.id VetVisits.userId
             (vetVisits (store w)) visit Hkeys Hin). }
  split; [|split; [|split]].
  - unfold updateVetVisit, bind. rewrite (@requireUser_signed_in _ _ Hu).
    unfold select. cbn [rows tblVetVisits]. rewrite where_is_visit, Hsel.
    unfold bind.
    destruct (@assertPetOwnership_found user _ (sent (store w) w) Hpet)
      as (p & -> & _).
    unfold update. fold (visitUpdates host input).
    rewrite Hset, andb_false_r, update_rekey_passes; [reflexivity|].
    unfold visitUpdates at 1.
    cbn [VetVisits.sets_reference VetVisits.set_petId].
    intros Hre r _ _.
    cbn [references_hold tblVetVisits store sent VetVisits.apply
         VetVisits.petId visitUpdates VetVisits.set_petId].
    destruct (UpdateVisitInput.petId input) as [q|]; [|discriminate Hre].
    exact (owned_pet_stored _ _ _ Hpet).
  - rewrite updateVetVisit_store, Hu. unfold updateVetVisit_effect.
    rewrite Hsel, Hpet, Hset, andb_false_r. cbn [put tblVetVisits vetVisits].
    apply in_map_iff. exists visit. split; [|exact Hin].
    unfold is_visit. now rewrite Hid, Huid, !String.eqb_refl.
  - rewrite updateVetVisit_store, Hu. unfold updateVetVisit_effect.
    rewrite Hsel, Hpet, Hset, andb_false_r. cbn [put tblVetVisits vetVisits].
    apply length_map.
  - subst stored. cbn. split; [|now repeat split].
    intros petId ->. reflexivity.
Qed.

(** X20. For a signed-in caller [listPetCareRoutines] always succeeds
    and only reads; it looks no pet up, so a [petId] the caller does not
    own is no error. It returns exactly the
    stored routines of the caller that carry the [petId] of the input,
    when that is a non-empty string, and that are active, unless
    [includeInactive] is set. An empty [petId] filters nothing: the
    listing is the one without [petId]. *)
Theorem listPetCareRoutines_returns_exactly
    (input : ListRoutinesInput.t) (context : ActionAPIContext)
    (user : App.User) (w : World) :
  caller context = Some user ->
  exists routines,
    fst (listPetCareRoutines (Some input) context w)
    = Returned {| items := routines; total := length routines |}
    /\ store (snd (listPetCareRoutines (Some input) context w)) = store w
    /\ (forall r,
          In r routines <->
          In r (petCareRoutines (store w))
          /\ PetCareRoutines.userId r = App.id user
          /\ (forall p, ListRoutinesInput.petId input = Some p ->
                truthy p = true -> PetCareRoutines.petId r = p)
          /\ (ListRoutinesInput.includeInactive input = false ->
              PetCareRoutines.isActive r = true))
    /\ (ListRoutinesInput.petId input = Some EmptyString ->
        fst (listPetCareRoutines
               (Some {| ListRoutinesInput.petId := None;
                        ListRoutinesInput.includeInactive :=
                          ListRoutinesInput.includeInactive input |})
               context w)
        = Returned {| items := routines; total := length routines |}).
Proof.
  intros Hu.
  destruct (@listPetCareRoutines_where (Some input) context user w Hu)
    as (wc & Hrun & Hwc).
  exists (filter wc (petCareRoutines (store w))). rewrite Hrun.
  split; [reflexivity|]. split; [reflexivity|].
  assert (Hiff : forall r,
            In r (filter wc (petCareRoutines (store w))) <->
            In r (petCareRoutines (store w))
            /\ PetCareRoutines.userId r = App.id user
            /\ (forall p, ListRoutinesInput.petId input = Some p ->
                  truthy p = true -> PetCareRoutines.petId r = p)
            /\ (ListRoutinesInput.includeInactive input = false ->
                PetCareRoutines.isActive r = true)).
  { intros r. rewrite filter_In, Hwc. split.
    - intros (Hin & Ho & Hp & Ha). split; [exact Hin|]. split; [exact Ho|]. split.
      + intros p Hsome Ht. exact (Hp input p Logic.eq_refl Hsome Ht).
      + intros Hoff. apply Ha. right. now exists input.
    - intros (Hin & Ho & Hp & Ha). split; [exact Hin|]. split; [exact Ho|]. split.
      + intros i p [= <-]. apply Hp.
      + intros [[=]|(i & [= <-] & Hoff)]. now apply Ha. }
  split; [exact Hiff|].
  intros Hempty. destruct input as [pid inc]. cbn in Hempty. subst pid.
  unfold listPetCareRoutines, bind. rewrite (@requireUser_signed_in _ _ Hu).
  revert Hrun. unfold listPetCareRoutines, bind.
  rewrite (@requireUser_signed_in _ _ Hu). cbn. intros [= <-]. reflexivity.
Qed.

(** ** The remaining handlers at work on the sample installation *)

(** X1 at work: Alice registers Kiwi, born on the first of May. *)
Lemma createPet_stores_the_pet_witness :
  key_taken tblPets (store sampleWorld) (randomUUID sampleHost 0) = false
  /\ exists pet,
       fst (createPet sampleHost registerKiwi alice sampleWorld) = Returned pet
       /\ Pets.userId pet = "alice"
       /\ Pets.dateOfBirth pet = Some (DateMs 1714554000000).
Proof.
  split; [reflexivity|].
  destruct (@createPet_stores_the_pet sampleHost registerKiwi alice
              {| App.id := "alice" |} sampleWorld Logic.eq_refl Logic.eq_refl)
    as (pet & Hrun & _ & _ & Hown & _ & Hborn & _).
  exists pet. split; [exact Hrun|]. split; [exact Hown|].
  rewrite Hborn. reflexivity.
Defined.

(** X2 at work: Alice lists her pets; Bruno and Coco are there, Mithra
    is not. *)
Lemma listPets_returns_the_callers_pets_witness :
  caller alice = Some {| App.id := "alice" |}
  /\ fst (listPets alice sampleWorld)
     = Returned {| items := [bruno; coco]; total := 2 |}
  /\ ~ In mithra [bruno; coco]
  /\ store (snd (listPets alice sampleWorld)) = store sampleWorld.
Proof.
  split; [reflexivity|]. split; [reflexivity|].
  destruct (@listPets_returns_the_callers_pets alice {| App.id := "alice" |}
              sampleWorld {| items := [bruno; coco]; total := 2 |}
              Logic.eq_refl Logic.eq_refl) as (_ & Hiff & _ & Hstore).
  split; [|exact Hstore].
  intros H. apply Hiff in H as [_ H]. discriminate H.
Defined.

(** X3 at work: Alice lists Bruno's logs. *)
Lemma listPetCareLogs_returns_the_pets_logs_witness :
  owned Pet (store sampleWorld) "pet-1" "alice" = true
  /\ exists logs,
       fst (listPetCareLogs {| PetIdInput.petId := "pet-1" |} alice sampleWorld)
       = Returned {| items := logs; total := length logs |}
       /\ In fed logs.
Proof.
  split; [reflexivity|].
  destruct (@listPetCareLogs_returns_the_pets_logs
              {| PetIdInput.petId := "pet-1" |} alice {| App.id := "alice" |}
              sampleWorld Logic.eq_refl Logic.eq_refl) as (l & Hrun & _ & Hiff).
  exists l. split; [exact Hrun|].
  apply Hiff. split; [now left|]. split; reflexivity.
Defined.

(** X4 at work: Alice lists Bruno's visits. *)
Lemma listVetVisits_returns_the_pets_visits_witness :
  owned Pet (store sampleWorld) "pet-1" "alice" = true
  /\ exists visits,
       fst (listVetVisits {| PetIdInput.petId := "pet-1" |} alice sampleWorld)
       = Returned {| items := visits; total := length visits |}
       /\ In checkup visits.
Proof.
  split; [reflexivity|].
  destruct (@listVetVisits_returns_the_pets_visits
              {| PetIdInput.petId := "pet-1" |} alice {| App.id := "alice" |}
              sampleWorld Logic.eq_refl Logic.eq_refl) as (l & Hrun & _ & Hiff).
  exists l. split; [exact Hrun|].
  apply Hiff. split; [now left|]. split; reflexivity.
Defined.

(** X5 at work: nothing names Coco, so Alice can delete her; Bruno has
    routines, a log and a visit, so he stays. *)
Lemma deletePet_removes_only_the_pet_witness :
  (owned Pet (store sampleWorld) "pet-3" "alice" = true
   /\ pet_in_use (store sampleWorld) "pet-3" = false
   /\ fst (deletePet {| IdInput.id := "pet-3" |} alice sampleWorld) = Returned tt
   /\ pets (store (snd (deletePet {| IdInput.id := "pet-3" |} alice sampleWorld)))
      = [bruno; mithra]
   /\ fails (deletePet {| IdInput.id := "pet-3" |} alice)
            (snd (deletePet {| IdInput.id := "pet-3" |} alice sampleWorld))
            NOT_FOUND)
  /\ (owned Pet (store sampleWorld) "pet-1" "alice" = true
      /\ pet_in_use (store sampleWorld) "pet-1" = true
      /\ fst (deletePet {| IdInput.id := "pet-1" |} alice sampleWorld)
         = Thrown (StorageError "FOREIGN KEY constraint failed")
      /\ store (snd (deletePet {| IdInput.id := "pet-1" |} alice sampleWorld))
         = store sampleWorld).
Proof.
  split.
  - split; [reflexivity|]. split; [reflexivity|].
    destruct (proj2 (@deletePet_removes_only_the_pet {| IdInput.id := "pet-3" |}
                       alice {| App.id := "alice" |} sampleWorld
                       Logic.eq_refl Logic.eq_refl) Logic.eq_refl)
      as (Hok & Hpets & _ & _ & _ & _ & Hagain).
    split; [exact Hok|]. split; [exact Hpets | exact Hagain].
  - split; [reflexivity|]. split; [reflexivity|].
    destruct (proj1 (@deletePet_removes_only_the_pet {| IdInput.id := "pet-1" |}
                       alice {| App.id := "alice" |} sampleWorld
                       Logic.eq_refl Logic.eq_refl) Logic.eq_refl)
      as (Hrefused & Hsame & _).
    split; [exact Hrefused | exact Hsame].
Defined.

(** X6 at work: Alice deletes the feeding log. *)
Lemma deletePetCareLog_removes_only_the_log_witness :
  owned CareLog (store sampleWorld) "log-1" "alice" = true
  /\ fst (deletePetCareLog {| IdInput.id := "log-1" |} alice sampleWorld)
     = Returned tt
  /\ owned CareLog
       (store (snd (deletePetCareLog {| IdInput.id := "log-1" |} alice sampleWorld)))
       "log-1" "alice" = false.
Proof.
  split; [reflexivity|].
  destruct (@deletePetCareLog_removes_only_the_log {| IdInput.id := "log-1" |}
              alice {| App.id := "alice" |} sampleWorld
              Logic.eq_refl Logic.eq_refl)
    as (Hok & _ & _ & _ & _ & Hgone & _).
  split; [exact Hok | exact Hgone].
Defined.

(** X7 at work: Alice deletes the check-up. *)
Lemma deleteVetVisit_removes_only_the_visit_witness :
  owned VetVisit (store sampleWorld) "visit-1" "alice" = true
  /\ fst (deleteVetVisit {| IdInput.id := "visit-1" |} alice sampleWorld)
     = Returned tt
  /\ owned VetVisit
       (store (snd (deleteVetVisit {| IdInput.id := "visit-1" |} alice sampleWorld)))
       "visit-1" "alice" = false.
Proof.
  split; [reflexivity|].
  destruct (@deleteVetVisit_removes_only_the_visit {| IdInput.id := "visit-1" |}
              alice {| App.id := "alice" |} sampleWorld
              Logic.eq_refl Logic.eq_refl)
    as (Hok & _ & _ & _ & _ & Hgone & _).
  split; [exact Hok | exact Hgone].
Defined.

(** X8 at work: Alice gives Coco seeds on Mondays and Thursdays. *)
Lemma createPetCareRoutine_stores_an_active_routine_witness :
  owned Pet (store sampleWorld) "pet-3" "alice" = true
  /\ key_taken tblPetCareRoutines (store sampleWorld) (randomUUID sampleHost 0)
     = false
  /\ exists routine,
       fst (createPetCareRoutine sampleHost seedsForCoco alice sampleWorld)
       = Returned routine
       /\ PetCareRoutines.isActive routine = true
       /\ PetCareRoutines.daysOfWeekJson routine
          = Some (JSON_stringify sampleHost ["mon"; "thu"]).
Proof.
  split; [reflexivity|]. split; [reflexivity|].
  destruct (@createPetCareRoutine_stores_an_active_routine sampleHost seedsForCoco
              alice {| App.id := "alice" |} sampleWorld
              Logic.eq_refl Logic.eq_refl Logic.eq_refl)
    as (routine & Hrun & _ & _ & _ & _ & _ & Hactive & Hdays & _).
  exists routine. split; [exact Hrun|]. split; [exact Hactive | exact Hdays].
Defined.

Lemma logFeeding_fits : routine_fits logFeeding "alice" (store sampleWorld).
Proof.
  split; [reflexivity|].
  intros _. exists feeding.
  split; [exact sampleDb_routine_keys|]. split; [now left|].
  repeat split.
Defined.

(** X9 at work: Alice logs the feeding under its routine, after three
    statements. A log with an empty [routineId] passes the handler after
    two, and the store refuses it: no routine has the empty id. *)
Lemma createPetCareLog_stores_the_log_witness :
  owned Pet (store sampleWorld) "pet-1" "alice" = true
  /\ key_taken tblPetCareLogs (store sampleWorld) (randomUUID sampleHost 0) = false
  /\ (exists log,
        fst (createPetCareLog sampleHost logFeeding alice sampleWorld)
        = Returned log
        /\ PetCareLogs.routineId log = Some "routine-1"
        /\ statements
             (snd (createPetCareLog sampleHost logFeeding alice sampleWorld))
           = 3)
  /\ fst (createPetCareLog sampleHost logWithEmptyRoutine alice sampleWorld)
     = Thrown (StorageError "FOREIGN KEY constraint failed")
  /\ store (snd (createPetCareLog sampleHost logWithEmptyRoutine alice sampleWorld))
     = store sampleWorld
  /\ statements
       (snd (createPetCareLog sampleHost logWithEmptyRoutine alice sampleWorld))
     = 2.
Proof.
  split; [reflexivity|]. split; [reflexivity|]. split.
  - destruct (proj1 (@createPetCareLog_stores_the_log sampleHost logFeeding alice
                       {| App.id := "alice" |} sampleWorld Logic.eq_refl
                       Logic.eq_refl Logic.eq_refl) logFeeding_fits)
      as (log & Hrun & _ & Hsent & _ & _ & _ & Hroutine & _).
    exists log. split; [exact Hrun|]. split; [exact Hroutine | exact Hsent].
  - exact (proj2 (@createPetCareLog_stores_the_log sampleHost logWithEmptyRoutine
                    alice {| App.id := "alice" |} sampleWorld Logic.eq_refl
                    Logic.eq_refl Logic.eq_refl)
             EmptyString Logic.eq_refl Logic.eq_refl Logic.eq_refl).
Defined.

(** X10 at work: Alice logs the feeding and deletes the log again. *)
Lemma createPetCareLog_then_delete_restores_the_store_witness :
  exists log,
    fst (createPetCareLog sampleHost logFeeding alice sampleWorld) = Returned log
    /\ fst (deletePetCareLog {| IdInput.id := PetCareLogs.id log |} alice
              (snd (createPetCareLog sampleHost logFeeding alice sampleWorld)))
       = Returned tt
    /\ store (snd (deletePetCareLog {| IdInput.id := PetCareLogs.id log |} alice
                     (snd (createPetCareLog sampleHost logFeeding alice
                             sampleWorld))))
       = store sampleWorld.
Proof.
  eexists. split; [reflexivity|].
  exact (@createPetCareLog_then_delete_restores_the_store sampleHost logFeeding
           alice sampleWorld _ Logic.eq_refl).
Defined.

(** X11 at work: Alice renames Bruno; Bob's rows are what they were. *)
Lemma requests_leave_other_owners_rows_witness :
  store (snd (server sampleHost (UpdatePet renameBruno) alice sampleWorld))
  <> store sampleWorld
  /\ rows_of "bob"
       (store (snd (server sampleHost (UpdatePet renameBruno) alice sampleWorld)))
     = rows_of "bob" (store sampleWorld).
Proof.
  split; [vm_compute; discriminate|].
  apply (@requests_leave_other_owners_rows sampleHost (UpdatePet renameBruno)
           alice sampleWorld "bob").
  intros user [= <-]. discriminate.
Defined.

(** X12 at work: Bob's attempt on Bruno throws and writes nothing. *)
Lemma a_request_that_throws_writes_nothing_witness :
  fst (server sampleHost (UpdatePet renameBruno) bob sampleWorld)
  = Thrown (ActionError NOT_FOUND "Pet not found.")
  /\ store (snd (server sampleHost (UpdatePet renameBruno) bob sampleWorld))
     = store sampleWorld.
Proof.
  split; [reflexivity|].
  exact (@a_request_that_throws_writes_nothing sampleHost (UpdatePet renameBruno)
           bob sampleWorld (ActionError NOT_FOUND "Pet not found.")
           Logic.eq_refl).
Defined.

(** X13 at work: after Alice's and Bob's day the ids are still unique. *)
Lemma primary_keys_survive_any_requests_witness :
  keys_unique (store sampleWorld)
  /\ keys_unique (store (serve_all sampleHost aliceAndBob sampleWorld)).
Proof.
  split; [exact sampleDb_keys_unique|].
  exact (@primary_keys_survive_any_requests sampleHost aliceAndBob sampleWorld
           sampleDb_keys_unique).
Defined.

(** X14 at work: Bob lists his pets and gets Mithra only. *)
Lemma responses_carry_the_callers_rows_only_witness :
  fst (server sampleHost ListPets bob sampleWorld)
  = Returned (PetItems {| items := [mithra]; total := 1 |})
  /\ Forall (fun owner => owner = "bob")
       (response_owners (PetItems {| items := [mithra]; total := 1 |})).
Proof.
  split; [reflexivity|].
  exact (@responses_carry_the_callers_rows_only sampleHost ListPets bob
           {| App.id := "bob" |} sampleWorld
           (PetItems {| items := [mithra]; total := 1 |})
           Logic.eq_refl Logic.eq_refl).
Defined.

(** X15 at work: Bruno is stored as Rex, updated at the time of the run. *)
Lemma updatePet_writes_present_fields_witness :
  In bruno (pets (store sampleWorld))
  /\ fst (updatePet sampleHost renameBruno alice sampleWorld) = Returned tt
  /\ In (Pets.apply (petUpdates sampleHost renameBruno (DateMs 1700000000000)) bruno)
        (pets (store (snd (updatePet sampleHost renameBruno alice sampleWorld))))
  /\ Pets.name
       (Pets.apply (petUpdates sampleHost renameBruno (DateMs 1700000000000)) bruno)
     = "Rex"
  /\ Pets.updatedAt
       (Pets.apply (petUpdates sampleHost renameBruno (DateMs 1700000000000)) bruno)
     = DateMs 1700000000000.
Proof.
  split; [now left|].
  destruct (@updatePet_writes_present_fields sampleHost renameBruno alice
              {| App.id := "alice" |} sampleWorld bruno Logic.eq_refl
              (or_introl Logic.eq_refl) Logic.eq_refl Logic.eq_refl)
    as (Hok & Hin & _ & Hname & _ & _ & _ & _ & _ & _ & _ & Hat & _).
  split; [exact Hok|]. split; [exact Hin|].
  split; [exact (Hname "Rex" Logic.eq_refl) | exact Hat].
Defined.

(** X16 at work: the check-up moves to Coco and to another clinic. *)
Lemma updateVetVisit_stores_the_update_witness :
  owned Pet (store sampleWorld) "pet-3" "alice" = true
  /\ fst (updateVetVisit sampleHost moveCheckup alice sampleWorld) = Returned tt
  /\ VetVisits.petId (VetVisits.apply (visitUpdates sampleHost moveCheckup) checkup)
     = "pet-3".
Proof.
  split; [reflexivity|].
  destruct (@updateVetVisit_stores_the_update sampleHost moveCheckup alice
              {| App.id := "alice" |} sampleWorld checkup Logic.eq_refl
              sampleDb_visit_keys (or_introl Logic.eq_refl) Logic.eq_refl
              Logic.eq_refl Logic.eq_refl Logic.eq_refl)
    as (Hok & _ & _ & Hmoved & _).
  split; [exact Hok|]. exact (Hmoved "pet-3" Logic.eq_refl).
Defined.

(** X17 at work: Alice brings the archived walk back. *)
Lemma updatePetCareRoutine_writes_present_fields_witness :
  PetCareRoutines.isActive walking = false
  /\ fst (updatePetCareRoutine sampleHost reactivateWalking alice sampleWorld)
     = Returned tt
  /\ PetCareRoutines.isActive
       (PetCareRoutines.apply
          (routineUpdates sampleHost reactivateWalking (DateMs 1700000000000))
          walking)
     = true.
Proof.
  split; [reflexivity|].
  destruct (@updatePetCareRoutine_writes_present_fields sampleHost
              reactivateWalking alice {| App.id := "alice" |} sampleWorld walking
              Logic.eq_refl sampleDb_routine_keys
              (or_intror (or_introl Logic.eq_refl)) Logic.eq_refl Logic.eq_refl
              Logic.eq_refl)
    as (Hok & _ & _ & _ & Hactive & _).
  split; [exact Hok|]. exact (Hactive true Logic.eq_refl).
Defined.

(** X19 at work: Alice deletes Coco, whom nothing named; Coco's logs can
    no longer be listed. *)
Lemma a_deleted_pet_had_no_dependents_witness :
  fst (deletePet {| IdInput.id := "pet-3" |} alice sampleWorld) = Returned tt
  /\ (forall r, In r (petCareRoutines (store sampleWorld)) ->
        PetCareRoutines.petId r <> "pet-3")
  /\ fails (listPetCareLogs {| PetIdInput.petId := "pet-3" |} alice)
           (snd (deletePet {| IdInput.id := "pet-3" |} alice sampleWorld))
           NOT_FOUND.
Proof.
  split; [reflexivity|].
  destruct (@a_deleted_pet_had_no_dependents sampleHost {| IdInput.id := "pet-3" |}
              alice {| App.id := "alice" |} sampleWorld
              Logic.eq_refl Logic.eq_refl)
    as (_ & Hroutines & _ & _ & _ & _ & _ & _ & Hlist & _).
  split; [exact Hroutines | exact Hlist].
Defined.

(** X20 at work: an empty [petId] filters nothing; Alice gets her active
    routine. *)
Lemma listPetCareRoutines_returns_exactly_witness :
  caller alice = Some {| App.id := "alice" |}
  /\ exists routines,
       fst (listPetCareRoutines (Some routinesOfNoPet) alice sampleWorld)
       = Returned {| items := routines; total := length routines |}
       /\ In feeding routines /\ ~ In walking routines.
Proof.
  split; [reflexivity|].
  destruct (@listPetCareRoutines_returns_exactly routinesOfNoPet alice
              {| App.id := "alice" |} sampleWorld Logic.eq_refl)
    as (l & Hrun & _ & Hiff & _).
  exists l. split; [exact Hrun|]. split.
  - apply Hiff. split; [now left|]. split; [reflexivity|]. split.
    + intros p [= <-]. discriminate.
    + reflexivity.
  - intros H. apply Hiff in H as (_ & _ & _ & H).
    specialize (H Logic.eq_refl). discriminate H.
Defined.
